(** * Simple LMK: a shallow embedding of the reclaim engine

    The development follows the kernel source of the low-memory killer
    (find_victims, process_victims, scan_and_kill, simple_lmk_mm_freed,
    simple_lmk_trigger, the vmpressure and display notifier callbacks,
    the reclaim thread and simple_lmk_init_set).

    Conventions.
    - The target is an LP64 kernel: [unsigned long] is 64 bits wide, [int]
      is 32 bits wide, [short] is 16 bits wide.  Integers are carried as
      [Z]; every place where the C code can wrap or truncate is written
      out with [wrap_ulong] / [to_int].
    - Pointers to tasks and address spaces are identifiers ([Z]); a
      pointer that may be NULL is an [option].
    - The intrusive chain [tsk->simple_lmk_next] hanging off a bucket is
      the list of the tasks on the chain, head first; a NULL bucket is an
      absent key (or an empty list).
    - Calls to kernel primitives with an effect outside this file
      (signals, locks, wake-ups, log lines) are appended to a trace. *)

From Stdlib Require Import ZArith Lia List Permutation Sorted.
From stdpp Require Import base option list gmap.

Local Open Scope Z_scope.

(** ** Machine integers *)

Definition ULONG_BITS : Z := 64.
Definition wrap_ulong (z : Z) : Z := z mod 2 ^ ULONG_BITS.

(** Conversion of an integer value to a 32-bit [int]. *)
Definition to_int (z : Z) : Z := (z + 2 ^ 31) mod 2 ^ 32 - 2 ^ 31.

Definition SHRT_MAX : Z := 32767.

(** Kill up to this many victims per reclaim. *)
Definition MAX_VICTIMS : Z := 1024.

(** ** Data model *)

(** An address space: its identity and the values [get_mm_counter]
    returns for the counters [0 .. NR_MM_COUNTERS). *)
Record mm_struct := {
  mm_id : Z;
  rss_stat : list Z
}.

(** The part of a process the scan reads. [find_lock_task_mm] is the
    outcome of the kernel helper of that name on this process: a thread
    of the group (its id) whose address space is still there, or NULL. *)
Record task_struct := {
  pid : Z;
  oom_score_adj : Z;
  signal_flags : Z;
  flags : Z;
  thread_group_empty : bool;
  find_lock_task_mm : option (Z * mm_struct)
}.

Record victim_info := {
  tsk : option Z;
  mm : option Z;
  size : Z
}.

Definition victim_zero : victim_info :=
  {| tsk := None; mm := None; size := 0 |}.

(** Calls that leave this file. *)
Inductive event :=
| task_lock (t : option Z)        (* find_lock_task_mm returned [t], locked *)
| task_unlock (t : option Z)
| do_send_sig_info (t : option Z) (* SIGKILL, SEND_SIG_FORCED *)
| expedite (t : option Z)         (* TIF_MEMDIE, SCHED_RR, all CPUs, thaw *)
| pr_info_killing (t : option Z)
| pr_err_no_processes
| pr_info_timeout
| write_lock
| write_unlock
| wait_for_completion_timeout
| wake_up
| complete.

Record state := {
  victims : list victim_info;
  task_bucket : gmap Z (list task_struct);
  nr_victims : Z;
  min_pressure : Z;
  needs_reclaim : Z;
  nr_killed : Z;
  screen_on : bool;
  reclaim_done : Z;      (* the completion's [done] count *)
  mm_free_lock : bool;   (* a writer holds the rwlock *)
  trace : list event
}.

Definition set_victims (v : list victim_info) (s : state) : state :=
  {| victims := v; task_bucket := task_bucket s; nr_victims := nr_victims s;
     min_pressure := min_pressure s; needs_reclaim := needs_reclaim s;
     nr_killed := nr_killed s; screen_on := screen_on s;
     reclaim_done := reclaim_done s; mm_free_lock := mm_free_lock s;
     trace := trace s |}.

Definition set_task_bucket (b : gmap Z (list task_struct)) (s : state) : state :=
  {| victims := victims s; task_bucket := b; nr_victims := nr_victims s;
     min_pressure := min_pressure s; needs_reclaim := needs_reclaim s;
     nr_killed := nr_killed s; screen_on := screen_on s;
     reclaim_done := reclaim_done s; mm_free_lock := mm_free_lock s;
     trace := trace s |}.

Definition set_nr_victims (n : Z) (s : state) : state :=
  {| victims := victims s; task_bucket := task_bucket s; nr_victims := n;
     min_pressure := min_pressure s; needs_reclaim := needs_reclaim s;
     nr_killed := nr_killed s; screen_on := screen_on s;
     reclaim_done := reclaim_done s; mm_free_lock := mm_free_lock s;
     trace := trace s |}.

Definition set_min_pressure (n : Z) (s : state) : state :=
  {| victims := victims s; task_bucket := task_bucket s;
     nr_victims := nr_victims s;
     min_pressure := n; needs_reclaim := needs_reclaim s;
     nr_killed := nr_killed s; screen_on := screen_on s;
     reclaim_done := reclaim_done s; mm_free_lock := mm_free_lock s;
     trace := trace s |}.

Definition set_needs_reclaim (n : Z) (s : state) : state :=
  {| victims := victims s; task_bucket := task_bucket s;
     nr_victims := nr_victims s;
     min_pressure := min_pressure s; needs_reclaim := n;
     nr_killed := nr_killed s; screen_on := screen_on s;
     reclaim_done := reclaim_done s; mm_free_lock := mm_free_lock s;
     trace := trace s |}.

Definition set_nr_killed (n : Z) (s : state) : state :=
  {| victims := victims s; task_bucket := task_bucket s;
     nr_victims := nr_victims s;
     min_pressure := min_pressure s; needs_reclaim := needs_reclaim s;
     nr_killed := n; screen_on := screen_on s;
     reclaim_done := reclaim_done s; mm_free_lock := mm_free_lock s;
     trace := trace s |}.

Definition set_screen_on (b : bool) (s : state) : state :=
  {| victims := victims s; task_bucket := task_bucket s;
     nr_victims := nr_victims s;
     min_pressure := min_pressure s; needs_reclaim := needs_reclaim s;
     nr_killed := nr_killed s; screen_on := b;
     reclaim_done := reclaim_done s; mm_free_lock := mm_free_lock s;
     trace := trace s |}.

Definition set_reclaim_done (n : Z) (s : state) : state :=
  {| victims := victims s; task_bucket := task_bucket s;
     nr_victims := nr_victims s;
     min_pressure := min_pressure s; needs_reclaim := needs_reclaim s;
     nr_killed := nr_killed s; screen_on := screen_on s;
     reclaim_done := n; mm_free_lock := mm_free_lock s;
     trace := trace s |}.

Definition set_mm_free_lock (b : bool) (s : state) : state :=
  {| victims := victims s; task_bucket := task_bucket s;
     nr_victims := nr_victims s;
     min_pressure := min_pressure s; needs_reclaim := needs_reclaim s;
     nr_killed := nr_killed s; screen_on := screen_on s;
     reclaim_done := reclaim_done s; mm_free_lock := b;
     trace := trace s |}.

(** Append calls to the trace. *)
Definition emit (es : list event) (s : state) : state :=
  {| victims := victims s; task_bucket := task_bucket s;
     nr_victims := nr_victims s;
     min_pressure := min_pressure s; needs_reclaim := needs_reclaim s;
     nr_killed := nr_killed s; screen_on := screen_on s;
     reclaim_done := reclaim_done s; mm_free_lock := mm_free_lock s;
     trace := trace s ++ es |}.

(** The state of the statics right after boot: zeroed arrays,
    [screen_on = true], all atomics at 0. *)
Definition boot_state : state :=
  {| victims := replicate (Z.to_nat MAX_VICTIMS) victim_zero;
     task_bucket := ∅; nr_victims := 0; min_pressure := 0;
     needs_reclaim := 0; nr_killed := 0; screen_on := true;
     reclaim_done := 0; mm_free_lock := false; trace := [] |}.

(** ** victim_cmp

    [return rhs->size - lhs->size;] the difference is taken in
    [unsigned long] and returned as [int]. *)
Definition victim_cmp (lhs rhs : victim_info) : Z :=
  to_int (wrap_ulong (size rhs - size lhs)).

(** ** The kernel's sort() *)

Section Sort.
Context {A : Type}.
Variable cmp_func : A → A → Z.

(** [swap_func(base + i, base + j)] *)
Definition swap_func (a : list A) (i j : nat) : list A :=
  match a !! i, a !! j with
  | Some x, Some y => <[j := x]> (<[i := y]> a)
  | _, _ => a
  end.

(** [cmp_func(base + i, base + j)] *)
Definition cmp_at (a : list A) (i j : nat) : Z :=
  match a !! i, a !! j with
  | Some x, Some y => cmp_func x y
  | _, _ => 0
  end.

(** The inner loop [for (r = ...; r * 2 + 1 < n; r = c)] of both
    phases, in element indices.  [r] at least doubles at every round,
    so [n] rounds are more than the loop can make. *)
Fixpoint sift_down (rounds : nat) (n r : nat) (a : list A) : list A :=
  match rounds with
  | O => a
  | S rounds' =>
      if (2 * r + 1 <? n)%nat then
        let c := (2 * r + 1)%nat in
        let c := if (c <? n - 1)%nat && (cmp_at a c (c + 1) <? 0)
                 then (c + 1)%nat else c in
        if cmp_at a r c >=? 0 then a
        else sift_down rounds' n c (swap_func a r c)
      else a
  end.

(** [for (i = num/2 - 1; i >= 0; i--)], with [k = i + 1]. *)
Fixpoint heapify (k : nat) (n : nat) (a : list A) : list A :=
  match k with
  | O => a
  | S i => heapify i n (sift_down n n i a)
  end.

(** [for (i = num - 1; i > 0; i--)] *)
Fixpoint sort_loop (i : nat) (a : list A) : list A :=
  match i with
  | O => a
  | S i' => sort_loop i' (sift_down i i 0%nat (swap_func a 0%nat i))
  end.

(** Modelled from the spec: the kernel's generic [sort()] (lib/sort.c)
    is not among the sources.  The spec asks that the slice be sorted
    with the comparator it is given; the kernel routine is an in-place
    heapsort that puts the elements in ascending order of [cmp_func],
    and that is what is transcribed here (in element indices). *)
Definition sort (a : list A) : list A :=
  let num := length a in
  sort_loop (num - 1)%nat (heapify (num / 2)%nat num a).
End Sort.

(** [sort(&victims[from], upto - from, ..., victim_cmp, victim_swap)]:
    the slice [from .. upto) of the table is sorted in place. *)
Definition sort_victims (from upto : Z) (v : list victim_info) : list victim_info :=
  let lo := Z.to_nat from in
  let n := Z.to_nat (upto - from) in
  take lo v ++ sort victim_cmp (take n (drop lo v)) ++ drop (lo + n)%nat v.

(** [get_total_mm_pages] *)
Definition get_total_mm_pages (m : mm_struct) : Z :=
  fold_left (fun pages c => wrap_ulong (pages + c)) (rss_stat m) 0.

(** ** The reclaim engine *)

Section Engine.

(** [MIN_FREE_PAGES] is [slmk_minfree * SZ_1M / PAGE_SIZE]; the macros
    [SZ_1M] and [PAGE_SIZE] and the flag masks below come from kernel
    headers that are not among the sources, so the value of the
    expression and the masks are parameters. *)
Variable MIN_FREE_PAGES : Z.
Variables SIGNAL_GROUP_EXIT SIGNAL_GROUP_COREDUMP PF_EXITING : Z.

(** The test that makes the first loop of [find_victims] skip a task. *)
Definition skip_task (t : task_struct) : bool :=
  (oom_score_adj t <? 0)
  || negb (Z.land (signal_flags t)
                  (Z.lor SIGNAL_GROUP_EXIT SIGNAL_GROUP_COREDUMP) =? 0)
  || (thread_group_empty t && negb (Z.land (flags t) PF_EXITING =? 0)).

(** [tsk->simple_lmk_next = task_bucket[adj]; task_bucket[adj] = tsk;] *)
Definition bucket_push (adj : Z) (t : task_struct)
    (b : gmap Z (list task_struct)) : gmap Z (list task_struct) :=
  <[adj := t :: default [] (b !! adj)]> b.

(** The [for_each_process] loop: the buckets, [min_adj] and [max_adj]. *)
Fixpoint for_each_process (ps : list task_struct)
    (b : gmap Z (list task_struct)) (min_adj max_adj : Z)
    : gmap Z (list task_struct) * Z * Z :=
  match ps with
  | [] => (b, min_adj, max_adj)
  | t :: ps' =>
      let adj := oom_score_adj t in
      if skip_task t then for_each_process ps' b min_adj max_adj
      else
        for_each_process ps' (bucket_push adj t b)
          (if adj <? min_adj then adj else min_adj)
          (if adj >? max_adj then adj else max_adj)
  end.

(** A store into [victims[i]]; outside the array it is undefined
    behaviour, which is [None] here. *)
Definition victims_store (i : Z) (v : victim_info)
    (tbl : list victim_info) : option (list victim_info) :=
  if (0 <=? i) && (i <? Z.of_nat (length tbl))
  then Some (<[Z.to_nat i := v]> tbl)
  else None.

(** The [do { ... } while ((tsk = tsk->simple_lmk_next))] loop over one
    chain.  The result is [( *vindex, pages_found, state)]. *)
Fixpoint bucket_chain (chain : list task_struct) (vindex pages_found : Z)
    (s : state) : option (Z * Z * state) :=
  match chain with
  | [] => Some (vindex, pages_found, s)
  | t :: next =>
      match find_lock_task_mm t with
      | None => bucket_chain next vindex pages_found s
      | Some (vtsk, vmm) =>
          let v := {| tsk := Some vtsk; mm := Some (mm_id vmm);
                      size := get_total_mm_pages vmm |} in
          tbl ← victims_store vindex v (victims s);
          let s := emit [task_lock (tsk v)] (set_victims tbl s) in
          let pages_found := wrap_ulong (pages_found + size v) in
          let vindex := vindex + 1 in
          if vindex =? MAX_VICTIMS then Some (vindex, pages_found, s)
          else bucket_chain next vindex pages_found s
      end
  end.

(** [memset(&task_bucket[min_adj], 0, len * sizeof( *task_bucket))] *)
Definition memset_buckets (min_adj len : Z)
    (b : gmap Z (list task_struct)) : gmap Z (list task_struct) :=
  foldr delete b (seqZ min_adj len).

(** The loop [for (i = max_adj; i >= min_adj; i--)]; [n] is the number
    of values of [i] still to come, [max_adj - min_adj + 1] at the
    start. *)
Fixpoint bucket_walk (n : nat) (i min_adj : Z) (vindex pages_found : Z)
    (s : state) : option (Z * Z * state) :=
  match n with
  | O => Some (vindex, pages_found, s)
  | S n' =>
      match task_bucket s !! i with
      | None | Some [] =>
          bucket_walk n' (i - 1) min_adj vindex pages_found s
      | Some chain =>
          let s := set_task_bucket (delete i (task_bucket s)) s in
          let old_vindex := vindex in
          '(vindex, pages_found, s) ← bucket_chain chain vindex pages_found s;
          if vindex =? old_vindex
          then bucket_walk n' (i - 1) min_adj vindex pages_found s
          else
            let s := set_victims (sort_victims old_vindex vindex (victims s)) s in
            if (vindex =? MAX_VICTIMS) || (pages_found >=? MIN_FREE_PAGES)
            then
              Some (vindex, pages_found,
                    if i >? min_adj
                    then set_task_bucket
                           (memset_buckets min_adj (i - min_adj) (task_bucket s)) s
                    else s)
            else bucket_walk n' (i - 1) min_adj vindex pages_found s
      end
  end.

(** [find_victims(&vindex)]: the result is [( *vindex, pages_found,
    state)]. *)
Definition find_victims (ps : list task_struct) (vindex : Z) (s : state)
    : option (Z * Z * state) :=
  let '(b, min_adj, max_adj) :=
    for_each_process ps (task_bucket s) SHRT_MAX 0 in
  bucket_walk (Z.to_nat (max_adj - min_adj + 1)) max_adj min_adj vindex 0
    (set_task_bucket b s).

(** The loop of [process_victims] over [victims[i .. vlen)]. *)
Fixpoint process_victims_loop (vs : list victim_info)
    (pages_found nr_to_kill : Z) (s : state) : Z * state :=
  match vs with
  | [] => (nr_to_kill, s)
  | victim :: vs' =>
      if pages_found >=? MIN_FREE_PAGES
      then process_victims_loop vs' pages_found nr_to_kill
             (emit [task_unlock (tsk victim)] s)
      else process_victims_loop vs' (wrap_ulong (pages_found + size victim))
             (nr_to_kill + 1) s
  end.

(** [process_victims(vlen)]: the number of victims to kill, and the
    state (the released victims were unlocked). *)
Definition process_victims (vlen : Z) (s : state) : Z * state :=
  process_victims_loop (take (Z.to_nat vlen) (victims s)) 0 0 s.

(** The body of the kill loop for one victim.  The thread-group marking,
    the scheduler elevation, the affinity change and the two thaws are
    one [expedite] event. *)
Definition kill_victim (victim : victim_info) : list event :=
  [pr_info_killing (tsk victim); do_send_sig_info (tsk victim);
   expedite (tsk victim); task_unlock (tsk victim)].

(** [for (i = 0; i < nr_to_kill; i++)] over [victims[i]]. *)
Fixpoint kill_loop (vs : list victim_info) (s : state) : state :=
  match vs with
  | [] => s
  | victim :: vs' => kill_loop vs' (emit (kill_victim victim) s)
  end.

(** [write_lock; nr_victims = nr_to_kill; write_unlock] *)
Definition publish_victims (nr_to_kill : Z) (s : state) : state :=
  let s := set_mm_free_lock true (emit [write_lock] s) in
  let s := set_nr_victims nr_to_kill s in
  emit [write_unlock] (set_mm_free_lock false s).

(** [simple_lmk_mm_freed]: the loop over [victims[i .. nr_victims)];
    [n] is the number of indices still to visit.  A read outside the
    table ends the loop (it is not reached: [nr_victims] never exceeds
    the length of the table). *)
Fixpoint mm_freed_loop (n i : nat) (m : Z) (s : state) : state :=
  match n with
  | O => s
  | S n' =>
      match victims s !! i with
      | None => s
      | Some v =>
          if decide (mm v = Some m) then
            let v' := {| tsk := tsk v; mm := None; size := size v |} in
            let s := set_victims (<[i := v']> (victims s)) s in
            (* atomic_inc_return_relaxed(&nr_killed) *)
            let s := set_nr_killed (to_int (nr_killed s + 1)) s in
            if nr_killed s =? nr_victims s
            then set_reclaim_done (reclaim_done s + 1) (emit [complete] s)
            else s
          else mm_freed_loop n' (S i) m s
      end
  end.

(** [simple_lmk_mm_freed(mm)], [mm] being the (non-NULL) address space
    that was torn down.  [read_trylock] fails when a writer holds the
    lock. *)
Definition simple_lmk_mm_freed (m : Z) (s : state) : state :=
  if mm_free_lock s then s
  else mm_freed_loop (Z.to_nat (nr_victims s)) 0%nat m s.

(** The notifications that come in while the worker kills and waits. *)
Definition deliver_freed (freed : list Z) (s : state) : state :=
  fold_left (fun s m => simple_lmk_mm_freed m s) freed s.

(** How [scan_and_kill] leaves its first half. *)
Inductive scan_outcome :=
| no_victims (s : state)   (* returned after the error line *)
| awaiting (s : state).    (* count published, victims killed *)

(** [scan_and_kill] up to the end of the kill loop. *)
Definition scan_and_kill_begin (ps : list task_struct) (s : state)
    : option scan_outcome :=
  '(nr_found, pages_found, s) ← find_victims ps 0 s;
  if nr_found =? 0 then Some (no_victims (emit [pr_err_no_processes] s))
  else
    let '(nr_to_kill, s) :=
      if pages_found >? MIN_FREE_PAGES then
        let '(nr_to_kill, s) := process_victims nr_found s in
        let s := set_victims (sort_victims 0 nr_to_kill (victims s)) s in
        process_victims nr_to_kill s
      else (nr_found, s) in
    let s := publish_victims nr_to_kill s in
    Some (awaiting (kill_loop (take (Z.to_nat nr_to_kill) (victims s)) s)).

(** [scan_and_kill] from the wait on: [wait_for_completion_timeout]
    consumes a completion when there is one and otherwise times out;
    then the clean-up under the write lock. *)
Definition scan_and_kill_end (s : state) : state :=
  let s := emit [wait_for_completion_timeout] s in
  let s := if 0 <? reclaim_done s
           then set_reclaim_done (reclaim_done s - 1) s
           else emit [pr_info_timeout] s in
  let s := set_mm_free_lock true (emit [write_lock] s) in
  let s := set_reclaim_done 0 s in
  let s := set_nr_victims 0 s in
  let s := set_nr_killed 0 s in
  emit [write_unlock] (set_mm_free_lock false s).

(** [scan_and_kill()]; [ps] is the process list the scan walks and
    [freed] the address spaces reported freed before the wait ends. *)
Definition scan_and_kill (ps : list task_struct) (freed : list Z)
    (s : state) : option state :=
  r ← scan_and_kill_begin ps s;
  match r with
  | no_victims s => Some s
  | awaiting s => Some (scan_and_kill_end (deliver_freed freed s))
  end.

(** [simple_lmk_trigger]: [atomic_cmpxchg_acquire(&needs_reclaim, 0, 1)]
    returns the old value and stores 1 when that was 0. *)
Definition simple_lmk_trigger (s : state) : state :=
  let old := needs_reclaim s in
  let s := if old =? 0 then set_needs_reclaim 1 s else s in
  if old =? 0 then emit [wake_up] s else s.

(** [simple_lmk_vmpressure_cb] *)
Definition simple_lmk_vmpressure_cb (pressure : Z) (s : state) : state :=
  if pressure >=? 90 then simple_lmk_trigger s else s.

(** *** The worker thread and the requests, as a step function

    The worker is either in [wait_event_freezable] or has returned from
    [scan_and_kill] and is about to clear [needs_reclaim]. *)
Inductive worker_pc := in_wait_event | after_scan_and_kill.

Inductive action :=
| a_trigger                                        (* simple_lmk_trigger() *)
| a_worker_run (ps : list task_struct) (freed : list Z)
                                                   (* the wait returns; scan_and_kill() *)
| a_worker_clear.                                  (* atomic_set_release(&needs_reclaim, 0) *)

(** The system: where the worker is, how many times it has called
    [scan_and_kill], and the statics. *)
Record system := {
  pc : worker_pc;
  cycles : nat;
  statics : state
}.

Definition step (a : action) (y : system) : option system :=
  match a with
  | a_trigger =>
      Some {| pc := pc y; cycles := cycles y;
              statics := simple_lmk_trigger (statics y) |}
  | a_worker_run ps freed =>
      match pc y with
      | in_wait_event =>
          if needs_reclaim (statics y) =? 0 then Some y   (* keeps sleeping *)
          else
            s ← scan_and_kill ps freed (statics y);
            Some {| pc := after_scan_and_kill; cycles := S (cycles y);
                    statics := s |}
      | after_scan_and_kill => Some y
      end
  | a_worker_clear =>
      match pc y with
      | after_scan_and_kill =>
          Some {| pc := in_wait_event; cycles := cycles y;
                  statics := set_needs_reclaim 0 (statics y) |}
      | in_wait_event => Some y
      end
  end.

Fixpoint run (sched : list action) (y : system) : option system :=
  match sched with
  | [] => Some y
  | a :: sched' => y' ← step a y; run sched' y'
  end.

End Engine.

(** ** The display notifier *)

Record msm_drm_notifier := {
  notifier_id : Z;
  notifier_data : option Z    (* the int [data] points to, or NULL *)
}.

Section Display.

(** Constants of [linux/msm_drm_notify.h], which is not among the
    sources. *)
Variables MSM_DRM_EVENT_BLANK MSM_DRM_PRIMARY_DISPLAY : Z.
Variables MSM_DRM_BLANK_POWERDOWN MSM_DRM_BLANK_UNBLANK : Z.

Definition msm_drm_notifier_callback (event : Z)
    (evdata : option msm_drm_notifier) (s : state) : state :=
  if negb (event =? MSM_DRM_EVENT_BLANK) then s
  else
    match evdata with
    | None => s
    | Some ev =>
        match notifier_data ev with
        | None => s
        | Some blank =>
            if negb (notifier_id ev =? MSM_DRM_PRIMARY_DISPLAY) then s
            else if blank =? MSM_DRM_BLANK_POWERDOWN then
              if negb (screen_on s) then s
              else set_min_pressure 95 (set_screen_on false s)
            else if blank =? MSM_DRM_BLANK_UNBLANK then
              if screen_on s then s
              else set_min_pressure 100 (set_screen_on true s)
            else s
        end
    end.

End Display.

(** ** Initialisation: simple_lmk_init_set *)

(** What [simple_lmk_init_set] starts and registers. *)
Inductive init_event :=
| kthread_run                    (* simple_lmk_reclaim_thread, "simple_lmkd" *)
| vmpressure_notifier_register   (* &vmpressure_notif *)
| msm_drm_register_client.       (* &fb_notifier_block *)

(** The two tunables, the function's static [init_done], and the calls
    made so far. *)
Record tunables := {
  init_done : Z;
  slmk_minfree : Z;
  slmk_timeout : Z;
  started : list init_event
}.

(** What the kernel answers during one call: whether [kthread_run]
    returned an error pointer, what the two registrations returned, and
    [i.totalram] as [si_meminfo] filled it in. *)
Record init_env := {
  kthread_run_is_err : bool;
  vmpressure_notifier_register_ret : Z;
  msm_drm_register_client_ret : Z;
  totalram : Z
}.

(** The call returns a value, or a [BUG_ON] fires and it never returns;
    either way the statics are left in some state. *)
Inductive init_outcome :=
| init_returned (ret : Z) (t : tunables)
| init_BUG (t : tunables).

Definition set_init_done (n : Z) (t : tunables) : tunables :=
  {| init_done := n; slmk_minfree := slmk_minfree t;
     slmk_timeout := slmk_timeout t; started := started t |}.

Definition start (e : init_event) (t : tunables) : tunables :=
  {| init_done := init_done t; slmk_minfree := slmk_minfree t;
     slmk_timeout := slmk_timeout t; started := started t ++ [e] |}.

Definition set_tunables (minfree timeout : Z) (t : tunables) : tunables :=
  {| init_done := init_done t; slmk_minfree := minfree;
     slmk_timeout := timeout; started := started t |}.

Section Init.

(** [PAGE_SHIFT] comes from a kernel header that is not among the
    sources. *)
Variable PAGE_SHIFT : Z.

(** The part of [simple_lmk_init_set] after [si_meminfo(&i)]:
    [i.totalram << (PAGE_SHIFT-10)] is an [unsigned long], compared
    with [5072ull * 1024 * 1024] and [3072ull * 1024 * 1024]. *)
Definition tune_by_totalram (totalram : Z) (t : tunables) : tunables :=
  let shifted := wrap_ulong (Z.shiftl totalram (PAGE_SHIFT - 10)) in
  if shifted >? 5072 * 1024 * 1024 then set_tunables 64 160 t
  else if shifted >? 3072 * 1024 * 1024 then set_tunables 64 172 t
  else set_tunables 64 250 t.

(** [simple_lmk_init_set(val, kp)]; neither argument is read. *)
Definition simple_lmk_init_set (env : init_env) (t : tunables) : init_outcome :=
  let old := init_done t in                     (* atomic_cmpxchg(&init_done, 0, 1) *)
  let t := if old =? 0 then set_init_done 1 t else t in
  if old =? 0 then
    let t := start kthread_run t in
    if kthread_run_is_err env then init_BUG t
    else
      let t := start vmpressure_notifier_register t in
      if negb (vmpressure_notifier_register_ret env =? 0) then init_BUG t
      else
        let t := start msm_drm_register_client t in
        if negb (msm_drm_register_client_ret env =? 0) then init_BUG t
        else init_returned 0 (tune_by_totalram (totalram env) t)
  else init_returned 0 (tune_by_totalram (totalram env) t).

End Init.

(** * The wait and the clean-up, apart *)

(** The wait of [scan_and_kill] (lines 278-279):
    [wait_for_completion_timeout] consumes a completion when there is
    one; otherwise it times out and the timeout line is logged. *)
Definition scan_and_kill_wait (s : state) : state :=
  let s := emit [wait_for_completion_timeout] s in
  if 0 <? reclaim_done s
  then set_reclaim_done (reclaim_done s - 1) s
  else emit [pr_info_timeout] s.

(** The clean-up of [scan_and_kill] (lines 282-286), under the write
    lock. *)
Definition scan_and_kill_cleanup (s : state) : state :=
  let s := set_mm_free_lock true (emit [write_lock] s) in
  let s := set_reclaim_done 0 s in
  let s := set_nr_victims 0 s in
  let s := set_nr_killed 0 s in
  emit [write_unlock] (set_mm_free_lock false s).

(** [scan_and_kill()] with the notifications of its last lines placed:
    [freed] are the address spaces reported freed before the wait ends,
    [gap] those reported after the wait has ended and before the
    clean-up takes the write lock, while [nr_victims] is still
    published. *)
Definition scan_and_kill_gap (MIN_FREE_PAGES : Z)
    (SIGNAL_GROUP_EXIT SIGNAL_GROUP_COREDUMP PF_EXITING : Z)
    (ps : list task_struct) (freed gap : list Z) (s : state) : option state :=
  r ← scan_and_kill_begin MIN_FREE_PAGES SIGNAL_GROUP_EXIT SIGNAL_GROUP_COREDUMP
        PF_EXITING ps s;
  match r with
  | no_victims s => Some s
  | awaiting s =>
      Some (scan_and_kill_cleanup
              (deliver_freed gap (scan_and_kill_wait (deliver_freed freed s))))
  end.

(** * Vocabulary of the statements *)

(** The transposition of two indices. *)
Definition transpose (i j k : nat) : nat :=
  if decide (k = i) then j else if decide (k = j) then i else k.

(** The record the scan stores for a task, when [find_lock_task_mm]
    finds an address space for it. *)
Definition victim_of (t : task_struct) : option victim_info :=
  match find_lock_task_mm t with
  | Some (vtsk, vmm) =>
      Some {| tsk := Some vtsk; mm := Some (mm_id vmm);
              size := get_total_mm_pages vmm |}
  | None => None
  end.

(** The eligible candidates of a process list: the tasks the first loop
    does not skip and whose address space is still there, as the records
    the scan would store for them. *)
Definition candidates (SIGNAL_GROUP_EXIT SIGNAL_GROUP_COREDUMP PF_EXITING : Z)
    (ps : list task_struct) : list victim_info :=
  omap victim_of
    (filter (fun t => skip_task SIGNAL_GROUP_EXIT SIGNAL_GROUP_COREDUMP
                        PF_EXITING t = false) ps).

(** The pages held by a list of victims (no wrap-around). *)
Definition sum_sizes (l : list victim_info) : Z :=
  foldr (fun v acc => size v + acc) 0 l.

(** All the tasks chained in the buckets. *)
Definition bucket_tasks (b : gmap Z (list task_struct)) : list task_struct :=
  concat (map snd (map_to_list b)).

(** [pages_found] after the sizes of [new] were added one by one. *)
Definition add_sizes (pages_found : Z) (new : list victim_info) : Z :=
  fold_left (fun p v => wrap_ulong (p + size v)) new pages_found.

(** One turn of the loop over the buckets for a bucket that holds
    [chain] (lines 117-153 of [find_victims]): the head of the bucket
    is taken and cleared, the chain is walked, and the victims it
    appended, if any, are sorted.  The result is the new [vindex], the
    new [pages_found] and the state right after the sort. *)
Definition consume_bucket (i : Z) (chain : list task_struct)
    (vindex pages_found : Z) (s : state) : option (Z * Z * state) :=
  let s := set_task_bucket (delete i (task_bucket s)) s in
  let old_vindex := vindex in
  '(vindex, pages_found, s) ← bucket_chain chain vindex pages_found s;
  if vindex =? old_vindex then Some (vindex, pages_found, s)
  else Some (vindex, pages_found,
             set_victims (sort_victims old_vindex vindex (victims s)) s).

(** The [task_lock] calls for the records of [new]. *)
Definition lock_events (new : list victim_info) : list event :=
  map (fun v => task_lock (tsk v)) new.

(** No bucket holds an empty chain, and every bucket in use has its
    index between [lo] and [hi]. *)
Definition buckets_within (lo hi : Z) (b : gmap Z (list task_struct)) : Prop :=
  ∀ k c, b !! k = Some c → c ≠ [] ∧ lo <= k <= hi.

(** The victims [scan_and_kill] ends up killing: the first [nr_victims]
    entries of the table once the count is published, none when the
    function returned early. *)
Definition selected (r : scan_outcome) : list victim_info :=
  match r with
  | no_victims _ => []
  | awaiting s => take (Z.to_nat (nr_victims s)) (victims s)
  end.

Definition outcome_state (r : scan_outcome) : state :=
  match r with
  | no_victims s => s
  | awaiting s => s
  end.

(** The tasks a trace sends the kill signal to, in order. *)
Definition signalled (tr : list event) : list (option Z) :=
  omap (fun e => match e with do_send_sig_info t => Some t | _ => None end) tr.

(** The prefix of [vs] that the loop of [process_victims] counts in
    when it starts with the running total [pages_found]. *)
Fixpoint chosen (MIN_FREE_PAGES : Z) (pages_found : Z)
    (vs : list victim_info) : list victim_info :=
  match vs with
  | [] => []
  | v :: vs' =>
      if pages_found >=? MIN_FREE_PAGES then []
      else v :: chosen MIN_FREE_PAGES (wrap_ulong (pages_found + size v)) vs'
  end.

(** The [task_unlock] calls for the records of [vs]. *)
Definition unlock_events (vs : list victim_info) : list event :=
  map (fun v => task_unlock (tsk v)) vs.

(** A table entry whose address space was not reported freed yet. *)
Definition has_mm (v : victim_info) : bool :=
  match mm v with Some _ => true | None => false end.

(** The published victims, and how many of them are still pending. *)
Definition published (s : state) : list victim_info :=
  take (Z.to_nat (nr_victims s)) (victims s).

Definition pending (s : state) : Z :=
  Z.of_nat (length (filter (fun v => has_mm v = true) (published s))).

(** [victims[i].mm = NULL] *)
Definition clear_mm (v : victim_info) : victim_info :=
  {| tsk := tsk v; mm := None; size := size v |}.

(** What [simple_lmk_mm_freed] does once it has found the entry [i]. *)
Definition confirm (i : nat) (v : victim_info) (s : state) : state :=
  let s := set_victims (<[i := clear_mm v]> (victims s)) s in
  let s := set_nr_killed (to_int (nr_killed s + 1)) s in
  if nr_killed s =? nr_victims s
  then set_reclaim_done (reclaim_done s + 1) (emit [complete] s)
  else s.

(** The invariant of the confirmation window. *)
Definition window_inv (s : state) : Prop :=
  0 <= nr_killed s ∧
  nr_killed s + pending s <= nr_victims s ∧
  nr_victims s <= Z.of_nat (length (victims s)) ∧
  Z.of_nat (length (victims s)) <= MAX_VICTIMS.

(** The calls of [wake_up] in a trace. *)
Definition is_wake_up (e : event) : bool :=
  match e with wake_up => true | _ => false end.

Definition wakeups (tr : list event) : nat :=
  length (filter (fun e => is_wake_up e = true) tr).

(** The invariant of the system. *)
Definition system_inv (y : system) : Prop :=
  Z.of_nat (length (victims (statics y))) = MAX_VICTIMS ∧
  task_bucket (statics y) = ∅ ∧
  (pc y = after_scan_and_kill → needs_reclaim (statics y) ≠ 0).

(** A request that no cycle has been started for yet. *)
Definition request_pending (y : system) : Z :=
  match pc y with
  | in_wait_event => if needs_reclaim (statics y) =? 0 then 0 else 1
  | after_scan_and_kill => 0
  end.

(** There is a pressure level at which the vmpressure callback requests
    reclaim in the state [s_on] but not in the state [s_off]. *)
Definition needs_more_pressure (s_on s_off : state) : Prop :=
  ∃ pressure,
    needs_reclaim (simple_lmk_vmpressure_cb pressure s_on) = 1 ∧
    needs_reclaim (simple_lmk_vmpressure_cb pressure s_off) = 0.

(** A blank event for the primary display, with the constants of
    [linux/msm_drm_notify.h]: [MSM_DRM_EVENT_BLANK = 1],
    [MSM_DRM_PRIMARY_DISPLAY = 0], [MSM_DRM_BLANK_UNBLANK = 0],
    [MSM_DRM_BLANK_POWERDOWN = 1]. *)
Definition blank_event (blank : Z) (s : state) : state :=
  msm_drm_notifier_callback 1 0 1 0 1
    (Some {| notifier_id := 0; notifier_data := Some blank |}) s.

(** The boot state after the display was powered down, and after it was
    unblanked again. *)
Definition screen_off_state : state := blank_event 1 boot_state.
Definition screen_on_again : state := blank_event 0 screen_off_state.

(** A process with importance [adj] whose address space holds [sz]
    pages, none of the flags that make the scan skip it being set. *)
Definition plain_task (p adj sz : Z) : task_struct :=
  {| pid := p; oom_score_adj := adj; signal_flags := 0; flags := 0;
     thread_group_empty := true;
     find_lock_task_mm :=
       Some (p, {| mm_id := 100 + p; rss_stat := [0; sz; 0; 0] |}) |}.

(** The five processes of the scenario: (importance, pages) =
    (0,100), (0,50), (5,40), (5,400), (7,20).  Where the engine is run
    on concrete processes the masks take the values of the kernel
    headers: [SIGNAL_GROUP_EXIT = 4], [SIGNAL_GROUP_COREDUMP = 8],
    [PF_EXITING = 4]. *)
Definition scenario_ps : list task_struct :=
  [plain_task 1 0 100; plain_task 2 0 50; plain_task 3 5 40;
   plain_task 4 5 400; plain_task 5 7 20].


(** Two processes of the same importance, one of 1 page and one of
    [2^31 + 2] pages. *)
Definition far_apart_ps : list task_struct :=
  [plain_task 1 5 1; plain_task 2 5 (2 ^ 31 + 2)].

(** More candidates than the table holds: 1030 processes of one page
    each, all of importance 3. *)
Definition crowd_ps : list task_struct :=
  map (fun p => plain_task p 3 1) (seqZ 1 1030).


(** The system right after boot: the worker sleeps, nothing was run. *)
Definition boot_system : system :=
  {| pc := in_wait_event; cycles := 0; statics := boot_state |}.

(** The state in which the scenario awaits its confirmations. *)
Definition scenario_awaiting : state :=
  match scan_and_kill_begin 60 4 8 4 scenario_ps boot_state with
  | Some r => outcome_state r
  | None => boot_state
  end.

(** A size that fits a non-negative [int]. *)
Definition small_size (v : victim_info) : Prop := 0 <= size v < 2 ^ 31.

(** [a[i]] is not below [a[j]] for the comparator. *)
Definition dominates {A} (cmp : A → A → Z) (a : list A) (i j : nat) : Prop :=
  ∀ x y, a !! i = Some x → a !! j = Some y → 0 <= cmp x y.

(** The node [i] of the heap [a[0 .. n)] dominates its children. *)
Definition heap_at {A} (cmp : A → A → Z) (a : list A) (n i : nat) : Prop :=
  ((2 * i + 1 < n)%nat → dominates cmp a i (2 * i + 1)) ∧
  ((2 * i + 2 < n)%nat → dominates cmp a i (2 * i + 2)).

(** From index [m] on, every element dominates all the elements before
    it. *)
Definition suffix_sorted {A} (cmp : A → A → Z) (a : list A) (m : nat) : Prop :=
  ∀ k x y, (m ≤ k)%nat → a !! k = Some x → y ∈ take k a → 0 <= cmp x y.

(** The statics a call leaves, whether it returned or not. *)
Definition outcome_tunables (o : init_outcome) : tunables :=
  match o with
  | init_returned _ t => t
  | init_BUG t => t
  end.

(** Writes to the parameter, one after the other. *)
Definition init_calls (PAGE_SHIFT : Z) (envs : list init_env) (t : tunables)
    : tunables :=
  fold_left (fun t env => outcome_tunables (simple_lmk_init_set PAGE_SHIFT env t))
    envs t.

(** The statics before the first write, the tunables holding their
    configured values. *)
Definition boot_tunables (minfree timeout : Z) : tunables :=
  {| init_done := 0; slmk_minfree := minfree; slmk_timeout := timeout;
     started := [] |}.

(** Calls of the display notifier, one after the other; a call is the
    pair of its [event] and its [data]. *)
Definition display_calls
    (MSM_DRM_EVENT_BLANK MSM_DRM_PRIMARY_DISPLAY : Z)
    (MSM_DRM_BLANK_POWERDOWN MSM_DRM_BLANK_UNBLANK : Z)
    (calls : list (Z * option msm_drm_notifier)) (s : state) : state :=
  fold_left
    (fun s c => msm_drm_notifier_callback MSM_DRM_EVENT_BLANK
                  MSM_DRM_PRIMARY_DISPLAY MSM_DRM_BLANK_POWERDOWN
                  MSM_DRM_BLANK_UNBLANK (fst c) (snd c) s)
    calls s.

(** Pressure reports, one after the other. *)
Definition pressure_reports (reports : list Z) (s : state) : state :=
  fold_left (fun s pressure => simple_lmk_vmpressure_cb pressure s) reports s.

(** Take [t] out of the task locks held; [None] when it is not held. *)
Fixpoint release (t : option Z) (held : list (option Z))
    : option (list (option Z)) :=
  match held with
  | [] => None
  | h :: held' =>
      if decide (h = t) then Some held'
      else held'' ← release t held'; Some (h :: held'')
  end.

(** A trace replayed against the locks: [held] are the task locks held
    and [wr] tells whether [mm_free_lock] is write-locked.  The replay
    fails on the release of a lock that is not held, on a log line, a
    kill signal or an expediting for a task whose lock is not held, on
    [write_lock] while the lock is write-locked and on [write_unlock]
    while it is not. *)
Fixpoint lock_replay (tr : list event) (held : list (option Z)) (wr : bool)
    : option (list (option Z) * bool) :=
  match tr with
  | [] => Some (held, wr)
  | e :: tr' =>
      match e with
      | task_lock t => lock_replay tr' (t :: held) wr
      | task_unlock t => held' ← release t held; lock_replay tr' held' wr
      | do_send_sig_info t | expedite t | pr_info_killing t =>
          if decide (t ∈ held) then lock_replay tr' held wr else None
      | write_lock => if wr then None else lock_replay tr' held true
      | write_unlock => if wr then lock_replay tr' held false else None
      | _ => lock_replay tr' held wr
      end
  end.

(** The tasks a trace locks, in order. *)
Definition lock_targets (tr : list event) : list (option Z) :=
  omap (fun e => match e with task_lock t => Some t | _ => None end) tr.

(** A list of importances in non-increasing order. *)
Definition descending (adjs : list Z) : Prop :=
  ∀ j k a b, (j ≤ k)%nat → adjs !! j = Some a → adjs !! k = Some b → b <= a.

(** [adjs] labels the entries of the table [tbl] from the index [from]
    on with buckets: the entry [from + k] is the record of a task
    chained in the bucket [adjs[k]] of [b]. *)
Definition bucket_labels (b : gmap Z (list task_struct))
    (tbl : list victim_info) (from : nat) (adjs : list Z) : Prop :=
  ∀ k a, adjs !! k = Some a →
    ∃ v c t, tbl !! (from + k)%nat = Some v ∧
             b !! a = Some c ∧ t ∈ c ∧ victim_of t = Some v.

(** [adjs] labels the first entries of the table [tbl] with
    importances: the entry [k] is the record of a process of [ps] that
    the first loop keeps and whose [oom_score_adj] is [adjs[k]]. *)
Definition adj_labels (SIGNAL_GROUP_EXIT SIGNAL_GROUP_COREDUMP PF_EXITING : Z)
    (ps : list task_struct) (tbl : list victim_info) (adjs : list Z) : Prop :=
  ∀ k a, adjs !! k = Some a →
    ∃ v t, tbl !! k = Some v ∧ t ∈ ps ∧
           skip_task SIGNAL_GROUP_EXIT SIGNAL_GROUP_COREDUMP PF_EXITING t = false ∧
           oom_score_adj t = a ∧ victim_of t = Some v.

(** The statics between two cycles: the table has its size, the buckets
    are empty, no victim count is published, the counter and the
    completion are at 0, the lock is free and [needs_reclaim] is 0 or
    1. *)
Definition idle (s : state) : Prop :=
  Z.of_nat (length (victims s)) = MAX_VICTIMS ∧
  task_bucket s = ∅ ∧
  nr_victims s = 0 ∧ nr_killed s = 0 ∧ reclaim_done s = 0 ∧
  mm_free_lock s = false ∧
  (needs_reclaim s = 0 ∨ needs_reclaim s = 1).

(** The window, with the completion: all the published victims were
    pending when the count was published, the completion was signalled
    at most once, and only when the last of them was confirmed. *)
Definition window_done (tr0 : list event) (s : state) : Prop :=
  window_inv s ∧
  nr_killed s + pending s = nr_victims s ∧
  mm_free_lock s = false ∧
  reclaim_done s
    = (if (0 <? nr_victims s) && (pending s =? 0) then 1 else 0) ∧
  trace s
    = tr0 ++ (if (0 <? nr_victims s) && (pending s =? 0) then [complete] else []).

(** The state a scan started at index 0 leaves. *)
Definition scan_state (MIN_FREE_PAGES : Z)
    (SIGNAL_GROUP_EXIT SIGNAL_GROUP_COREDUMP PF_EXITING : Z)
    (ps : list task_struct) (s : state) : state :=
  match find_victims MIN_FREE_PAGES SIGNAL_GROUP_EXIT SIGNAL_GROUP_COREDUMP
          PF_EXITING ps 0 s with
  | Some (_, _, s1) => s1
  | None => s
  end.

(** The state the scan of the scenario leaves. *)
Definition scenario_scanned : state := scan_state 60 4 8 4 scenario_ps boot_state.

(** A machine of 6 GiB with pages of 4 KiB on which the three
    initialisation calls succeed. *)
Definition six_gib_env : init_env :=
  {| kthread_run_is_err := false; vmpressure_notifier_register_ret := 0;
     msm_drm_register_client_ret := 0; totalram := 1572864 |}.

(** A machine on which the pressure notifier cannot be registered. *)
Definition failing_env : init_env :=
  {| kthread_run_is_err := false; vmpressure_notifier_register_ret := -16;
     msm_drm_register_client_ret := 0; totalram := 1572864 |}.

(** * Facts *)

(** ** sort() permutes its argument *)

Section SortFacts.
Context {A : Type} (cmp : A → A → Z).

Lemma transpose_inj i j : Inj (=) (=) (transpose i j).
Proof.
  intros k1 k2. unfold transpose.
  repeat case_decide; intros; subst; congruence.
Qed.

Lemma swap_func_length (a : list A) i j :
  length (swap_func a i j) = length a.
Proof.
  unfold swap_func.
  destruct (a !! i), (a !! j); rewrite ?length_insert; reflexivity.
Qed.

Lemma swap_func_lookup (a : list A) i j k :
  (i < length a)%nat → (j < length a)%nat →
  swap_func a i j !! k = a !! transpose i j k.
Proof.
  intros Hi Hj. unfold swap_func, transpose.
  destruct (lookup_lt_is_Some_2 a i Hi) as [x Hx].
  destruct (lookup_lt_is_Some_2 a j Hj) as [y Hy].
  rewrite Hx, Hy.
  destruct (decide (k = j)) as [->|Hkj].
  - rewrite list_lookup_insert_eq by (rewrite length_insert; lia).
    case_decide; subst; congruence.
  - rewrite list_lookup_insert_ne by congruence.
    destruct (decide (k = i)) as [->|Hki].
    + rewrite list_lookup_insert_eq by lia. congruence.
    + rewrite list_lookup_insert_ne by congruence. reflexivity.
Qed.

Lemma swap_func_Permutation (a : list A) i j : swap_func a i j ≡ₚ a.
Proof.
  destruct (decide (i < length a)%nat) as [Hi|Hi];
    [destruct (decide (j < length a)%nat) as [Hj|Hj]|].
  - apply Permutation_inj. split; [apply swap_func_length|].
    exists (transpose i j). split; [apply transpose_inj|].
    intros k. apply swap_func_lookup; assumption.
  - unfold swap_func. rewrite (lookup_ge_None_2 a j) by lia.
    destruct (a !! i); reflexivity.
  - unfold swap_func. rewrite (lookup_ge_None_2 a i) by lia. reflexivity.
Qed.

Lemma sift_down_Permutation rounds n r (a : list A) :
  sift_down cmp rounds n r a ≡ₚ a.
Proof.
  revert r a. induction rounds as [|rounds IH]; intros r a;
    cbn [sift_down]; [reflexivity|].
  destruct (_ <? n)%nat; [|reflexivity].
  destruct (_ >=? 0); [reflexivity|].
  rewrite IH. apply swap_func_Permutation.
Qed.

(** The bound on the rounds of the inner loop is never what ends it:
    any number of rounds from [n - r] on gives the same array. *)
Lemma sift_down_rounds k1 k2 n r (a : list A) :
  (n - r ≤ k1)%nat → (n - r ≤ k2)%nat →
  sift_down cmp k1 n r a = sift_down cmp k2 n r a.
Proof.
  revert k2 r a. induction k1 as [|k1 IH]; intros k2 r a H1 H2.
  - destruct k2 as [|k2]; cbn [sift_down]; [reflexivity|].
    destruct (2 * r + 1 <? n)%nat eqn:E; [apply Nat.ltb_lt in E; lia|reflexivity].
  - destruct k2 as [|k2]; cbn [sift_down].
    + destruct (2 * r + 1 <? n)%nat eqn:E; [apply Nat.ltb_lt in E; lia|reflexivity].
    + destruct (2 * r + 1 <? n)%nat eqn:E; [apply Nat.ltb_lt in E|reflexivity].
      destruct (_ >=? 0); [reflexivity|].
      apply IH; destruct (_ && _); lia.
Qed.

Lemma heapify_Permutation k n (a : list A) : heapify cmp k n a ≡ₚ a.
Proof.
  revert a. induction k as [|k IH]; intros a; cbn [heapify]; [reflexivity|].
  rewrite IH. apply sift_down_Permutation.
Qed.

Lemma sort_loop_Permutation i (a : list A) : sort_loop cmp i a ≡ₚ a.
Proof.
  revert a. induction i as [|i IH]; intros a; cbn [sort_loop]; [reflexivity|].
  rewrite IH, sift_down_Permutation. apply swap_func_Permutation.
Qed.

Lemma sort_Permutation (a : list A) : sort cmp a ≡ₚ a.
Proof.
  unfold sort. rewrite sort_loop_Permutation. apply heapify_Permutation.
Qed.

Lemma sort_length (a : list A) : length (sort cmp a) = length a.
Proof. apply Permutation_length, sort_Permutation. Qed.

End SortFacts.

Lemma sort_victims_length from upto (v : list victim_info) :
  length (sort_victims from upto v) = length v.
Proof.
  unfold sort_victims.
  rewrite !length_app, sort_length, !length_take, !length_drop.
  destruct (decide (Z.to_nat from ≤ length v)%nat); lia.
Qed.

Lemma sort_victims_Permutation from upto (v : list victim_info) :
  sort_victims from upto v ≡ₚ v.
Proof.
  unfold sort_victims. rewrite sort_Permutation.
  rewrite app_assoc, take_take_drop, take_drop. reflexivity.
Qed.

(** The slice is permuted and the rest of the table stays in place. *)
Lemma sort_victims_split from upto (v : list victim_info) :
  0 <= from <= upto → upto <= Z.of_nat (length v) →
  ∃ l1 l2 l3,
    v = l1 ++ l2 ++ l3 ∧
    sort_victims from upto v = l1 ++ sort victim_cmp l2 ++ l3 ∧
    length l1 = Z.to_nat from ∧ length l2 = Z.to_nat (upto - from).
Proof.
  intros Hr Hlen. unfold sort_victims.
  set (lo := Z.to_nat from). set (n := Z.to_nat (upto - from)).
  exists (take lo v), (take n (drop lo v)), (drop (lo + n) v).
  split; [|split; [reflexivity|split]].
  - rewrite app_assoc, take_take_drop, take_drop. reflexivity.
  - rewrite length_take. lia.
  - rewrite length_take, length_drop. lia.
Qed.

Lemma sort_victims_take_from from upto (v : list victim_info) :
  0 <= from <= upto → upto <= Z.of_nat (length v) →
  take (Z.to_nat from) (sort_victims from upto v) = take (Z.to_nat from) v.
Proof.
  intros Hr Hlen.
  destruct (sort_victims_split from upto v Hr Hlen)
    as (l1 & l2 & l3 & Hv & -> & H1 & H2).
  rewrite Hv. rewrite <- H1, !take_app_length. reflexivity.
Qed.

Lemma sort_victims_slice from upto (v : list victim_info) :
  0 <= from <= upto → upto <= Z.of_nat (length v) →
  take (Z.to_nat (upto - from)) (drop (Z.to_nat from) (sort_victims from upto v))
  = sort victim_cmp (take (Z.to_nat (upto - from)) (drop (Z.to_nat from) v)).
Proof.
  intros Hr Hlen.
  destruct (sort_victims_split from upto v Hr Hlen)
    as (l1 & l2 & l3 & Hv & -> & H1 & H2).
  rewrite Hv. rewrite <- H1, !drop_app_length.
  rewrite <- H2, take_app_length.
  rewrite <- (sort_length victim_cmp l2), take_app_length. reflexivity.
Qed.

Lemma sort_victims_take_upto from upto (v : list victim_info) :
  0 <= from <= upto → upto <= Z.of_nat (length v) →
  take (Z.to_nat upto) (sort_victims from upto v) ≡ₚ take (Z.to_nat upto) v.
Proof.
  intros Hr Hlen.
  destruct (sort_victims_split from upto v Hr Hlen)
    as (l1 & l2 & l3 & Hv & -> & H1 & H2).
  rewrite Hv.
  replace (Z.to_nat upto) with (length (l1 ++ l2)).
  2:{ rewrite length_app. lia. }
  rewrite (app_assoc l1 l2 l3), take_app_length.
  rewrite (app_assoc l1 (sort victim_cmp l2) l3).
  rewrite take_app_length'.
  2:{ rewrite !length_app, sort_length. reflexivity. }
  rewrite sort_Permutation. reflexivity.
Qed.

Lemma sort_victims_drop_upto from upto (v : list victim_info) :
  0 <= from <= upto → upto <= Z.of_nat (length v) →
  drop (Z.to_nat upto) (sort_victims from upto v) = drop (Z.to_nat upto) v.
Proof.
  intros Hr Hlen.
  destruct (sort_victims_split from upto v Hr Hlen)
    as (l1 & l2 & l3 & Hv & -> & H1 & H2).
  rewrite Hv.
  replace (Z.to_nat upto) with (length (l1 ++ l2)).
  2:{ rewrite length_app. lia. }
  rewrite (app_assoc l1 l2 l3), drop_app_length.
  rewrite (app_assoc l1 (sort victim_cmp l2) l3).
  rewrite drop_app_length'.
  2:{ rewrite !length_app, sort_length. reflexivity. }
  reflexivity.
Qed.

(** ** sort() sorts, for a comparator that is an order *)

Section SortSorted.
Context {A : Type} (cmp : A → A → Z) (P : A → Prop).
Hypothesis cmp_total : ∀ x y, P x → P y → 0 <= cmp x y ∨ 0 <= cmp y x.
Hypothesis cmp_trans :
  ∀ x y z, P x → P y → P z → 0 <= cmp x y → 0 <= cmp y z → 0 <= cmp x z.

Local Open Scope nat_scope.

Lemma cmp_at_lookup (a : list A) i j x y :
  a !! i = Some x → a !! j = Some y → cmp_at cmp a i j = cmp x y.
Proof. intros Hi Hj. unfold cmp_at. rewrite Hi, Hj. reflexivity. Qed.

Lemma Forall_lookup_P (a : list A) i x : Forall P a → a !! i = Some x → P x.
Proof. intros Ha Hi. exact (Forall_lookup_1 P a i x Ha Hi). Qed.

Lemma swap_func_Forall (a : list A) i j : Forall P a → Forall P (swap_func a i j).
Proof. intros H. rewrite swap_func_Permutation. exact H. Qed.

Lemma sift_down_Forall rounds n r (a : list A) :
  Forall P a → Forall P (sift_down cmp rounds n r a).
Proof. intros H. rewrite sift_down_Permutation. exact H. Qed.

Lemma dominates_trans (a : list A) i j k :
  Forall P a → j < length a →
  dominates cmp a i j → dominates cmp a j k → dominates cmp a i k.
Proof.
  intros Ha Hj Hij Hjk x z Hx Hz.
  destruct (lookup_lt_is_Some_2 a j Hj) as [y Hy].
  apply (cmp_trans x y z); eauto using Forall_lookup_P.
Qed.

Lemma dominates_refl (a : list A) i : Forall P a → dominates cmp a i i.
Proof.
  intros Ha x y Hx Hy. rewrite Hx in Hy. injection Hy as <-.
  destruct (cmp_total x x); eauto using Forall_lookup_P.
Qed.

Lemma dominates_total (a : list A) i j :
  Forall P a → dominates cmp a i j ∨ dominates cmp a j i.
Proof.
  intros Ha.
  destruct (a !! i) as [x|] eqn:Hx; [|left; intros ? ? H; rewrite Hx in H; discriminate].
  destruct (a !! j) as [y|] eqn:Hy; [|left; intros ? ? _ H; rewrite Hy in H; discriminate].
  destruct (cmp_total x y) as [H|H]; eauto using Forall_lookup_P.
  - left. intros x' y' Hx' Hy'. congruence.
  - right. intros y' x' Hy' Hx'. congruence.
Qed.

(** The test of the loop, read on the array. *)
Lemma cmp_at_nonneg (a : list A) i j :
  i < length a → j < length a →
  (cmp_at cmp a i j >=? 0)%Z = true → dominates cmp a i j.
Proof.
  intros Hi Hj Ht x y Hx Hy. rewrite (cmp_at_lookup a i j x y Hx Hy) in Ht.
  apply Z.geb_le in Ht. exact Ht.
Qed.

Lemma cmp_at_neg (a : list A) i j :
  Forall P a → i < length a → j < length a →
  (cmp_at cmp a i j >=? 0)%Z = false → dominates cmp a j i.
Proof.
  intros Ha Hi Hj Ht.
  destruct (dominates_total a i j Ha) as [H|H]; [|exact H].
  exfalso.
  destruct (lookup_lt_is_Some_2 a i Hi) as [x Hx].
  destruct (lookup_lt_is_Some_2 a j Hj) as [y Hy].
  rewrite (cmp_at_lookup a i j x y Hx Hy) in Ht.
  specialize (H x y Hx Hy). rewrite Z.geb_leb in Ht. apply Z.leb_gt in Ht. lia.
Qed.

Lemma dominates_swap (a : list A) r c i j :
  r < length a → c < length a →
  dominates cmp a (transpose r c i) (transpose r c j) →
  dominates cmp (swap_func a r c) i j.
Proof.
  intros Hr Hc H x y. rewrite !swap_func_lookup by assumption. apply H.
Qed.

Lemma transpose_other r c k : k ≠ r → k ≠ c → transpose r c k = k.
Proof. intros H1 H2. unfold transpose. repeat case_decide; congruence. Qed.

Lemma transpose_l r c : transpose r c r = c.
Proof. unfold transpose. case_decide; congruence. Qed.

Lemma transpose_r r c : transpose r c c = r.
Proof. unfold transpose. repeat case_decide; congruence. Qed.

(** One run of the inner loop repairs the heap below [r]. *)
Lemma sift_down_heap rounds n r lo (a : list A) :
  Forall P a → n ≤ length a → n - r ≤ rounds → lo ≤ r →
  (∀ i, lo ≤ i < n → i ≠ r → heap_at cmp a n i) →
  (∀ p c, lo ≤ p → r = 2 * p + 1 ∨ r = 2 * p + 2 →
          c = 2 * r + 1 ∨ c = 2 * r + 2 → c < n → dominates cmp a p c) →
  (∀ i, lo ≤ i < n → heap_at cmp (sift_down cmp rounds n r a) n i) ∧
  (∀ k, k < r ∨ n ≤ k → sift_down cmp rounds n r a !! k = a !! k).
Proof.
  revert r a. induction rounds as [|rounds IH];
    intros r a Ha Hn Hfuel Hlo Hheap Hpar; cbn [sift_down].
  { split; [|reflexivity]. intros i Hi. apply Hheap; lia. }
  destruct (2 * r + 1 <? n) eqn:Eleaf;
    [apply Nat.ltb_lt in Eleaf|apply Nat.ltb_ge in Eleaf].
  2:{ split; [|reflexivity]. intros i Hi.
      destruct (decide (i = r)) as [->|Hne]; [|apply Hheap; assumption].
      split; intros; lia. }
  (* the larger child *)
  set (c := if (2 * r + 1 <? n - 1) && (cmp_at cmp a (2 * r + 1) (2 * r + 1 + 1) <? 0)%Z
            then 2 * r + 1 + 1 else 2 * r + 1).
  assert (Hc : (c = 2 * r + 1 ∨ c = 2 * r + 2) ∧ c < n ∧
               ∀ o, o = 2 * r + 1 ∨ o = 2 * r + 2 → o < n → dominates cmp a c o).
  { unfold c.
    destruct (2 * r + 1 <? n - 1) eqn:E1;
      [apply Nat.ltb_lt in E1|apply Nat.ltb_ge in E1]; cbn [andb].
    - destruct (cmp_at cmp a (2 * r + 1) (2 * r + 1 + 1) <? 0)%Z eqn:E2.
      + split; [right; lia|]. split; [lia|].
        intros o [->| ->] Ho.
        * apply cmp_at_neg; [assumption|lia|lia|].
          rewrite Z.geb_leb. apply Z.leb_gt. apply Z.ltb_lt in E2. exact E2.
        * replace (2 * r + 1 + 1) with (2 * r + 2) by lia.
          apply dominates_refl. assumption.
      + split; [left; reflexivity|]. split; [lia|].
        intros o [->| ->] Ho.
        * apply dominates_refl. assumption.
        * replace (2 * r + 2) with (2 * r + 1 + 1) by lia.
          apply cmp_at_nonneg; [lia|lia|].
          rewrite Z.geb_leb. apply Z.leb_le. apply Z.ltb_ge in E2. exact E2.
    - split; [left; reflexivity|]. split; [lia|].
      intros o [->| ->] Ho; [apply dominates_refl; assumption|lia]. }
  clearbody c. destruct Hc as (Hc & Hcn & Hsib).
  destruct (cmp_at cmp a r c >=? 0)%Z eqn:Et.
  - (* [break] *)
    split; [|reflexivity]. intros i Hi.
    destruct (decide (i = r)) as [->|Hne]; [|apply Hheap; assumption].
    assert (Hrc : dominates cmp a r c) by (apply cmp_at_nonneg; [lia|lia|exact Et]).
    split; intros Ho; apply (dominates_trans a r c); try assumption; try lia;
      apply Hsib; auto.
  - (* swap and go on from [c] *)
    assert (Hcr : dominates cmp a c r) by (apply cmp_at_neg; [assumption|lia|lia|exact Et]).
    assert (Hr' : r < length a) by lia. assert (Hc' : c < length a) by lia.
    destruct (IH c (swap_func a r c)) as [Hh Hsame].
    + apply swap_func_Forall. assumption.
    + rewrite swap_func_length. assumption.
    + lia.
    + lia.
    + intros i Hi Hic.
      destruct (decide (i = r)) as [->|Hir].
      * split; intros Ho; apply dominates_swap; try assumption;
          rewrite transpose_l.
        -- destruct (decide (2 * r + 1 = c)) as [<-|Hne].
           ++ rewrite transpose_r. exact Hcr.
           ++ rewrite transpose_other by lia. apply Hsib; auto.
        -- destruct (decide (2 * r + 2 = c)) as [<-|Hne].
           ++ rewrite transpose_r. exact Hcr.
           ++ rewrite transpose_other by lia. apply Hsib; auto.
      * destruct (Hheap i Hi Hir) as [Hl Hrgt].
        split; intros Ho; apply dominates_swap; try assumption;
          rewrite (transpose_other r c i) by assumption.
        -- destruct (decide (2 * i + 1 = r)) as [Hch|Hch].
           ++ rewrite Hch, transpose_l. apply Hpar; [lia|lia|exact Hc|exact Hcn].
           ++ rewrite transpose_other by lia. apply Hl. exact Ho.
        -- destruct (decide (2 * i + 2 = r)) as [Hch|Hch].
           ++ rewrite Hch, transpose_l. apply Hpar; [lia|lia|exact Hc|exact Hcn].
           ++ rewrite transpose_other by lia. apply Hrgt. exact Ho.
    + intros p c' Hp Hpc Hcc Hcn'.
      assert (p = r) as -> by lia.
      apply dominates_swap; try assumption.
      rewrite transpose_l, transpose_other by lia.
      destruct (Hheap c) as [Hl Hrgt]; [lia|lia|].
      destruct Hcc as [-> | ->]; [apply Hl|apply Hrgt]; exact Hcn'.
    + split; [exact Hh|].
      intros k Hk. rewrite Hsame by lia.
      rewrite swap_func_lookup by assumption.
      rewrite transpose_other by lia. reflexivity.
Qed.

Lemma heapify_heap k n (a : list A) :
  Forall P a → n ≤ length a →
  (∀ i, k ≤ i < n → heap_at cmp a n i) →
  (∀ i, i < n → heap_at cmp (heapify cmp k n a) n i) ∧
  (∀ j, n ≤ j → heapify cmp k n a !! j = a !! j).
Proof.
  revert a. induction k as [|k IH]; intros a Ha Hn Hheap; cbn [heapify].
  { split; [|reflexivity]. intros i Hi. apply Hheap. lia. }
  destruct (sift_down_heap n n k k a Ha Hn) as [Hh Hsame]; [lia|lia| | |].
  - intros i Hi Hne. apply Hheap. lia.
  - intros p c Hp Hk. lia.
  - destruct (IH (sift_down cmp n n k a)) as [Hh' Hsame'].
    + apply sift_down_Forall. exact Ha.
    + rewrite (Permutation_length (sift_down_Permutation cmp n n k a)). exact Hn.
    + exact Hh.
    + split; [exact Hh'|]. intros j Hj. rewrite Hsame' by exact Hj.
      apply Hsame. right. exact Hj.
Qed.

(** The root of a heap dominates every element of the heap. *)
Lemma heap_root_max n (a : list A) :
  Forall P a → n ≤ length a →
  (∀ i, i < n → heap_at cmp a n i) →
  ∀ k, k < n → dominates cmp a 0 k.
Proof.
  intros Ha Hn Hheap k. induction k as [k IH] using lt_wf_ind. intros Hk.
  destruct k as [|k]; [apply dominates_refl; exact Ha|].
  assert (Hpar : S k = 2 * (k / 2) + 1 ∨ S k = 2 * (k / 2) + 2).
  { pose proof (Nat.div_mod_eq k 2) as Hdm.
    pose proof (Nat.mod_upper_bound k 2). lia. }
  assert (Hlt : k / 2 < S k).
  { pose proof (Nat.div_mod_eq k 2). lia. }
  apply (dominates_trans a 0 (k / 2)); [exact Ha|lia|apply IH; lia|].
  destruct (Hheap (k / 2)) as [Hl Hr]; [lia|].
  destruct Hpar as [Hp|Hp]; rewrite Hp; [apply Hl|apply Hr]; lia.
Qed.

Lemma take_Permutation_same_drop (a b : list A) k :
  a ≡ₚ b → (∀ j, k ≤ j → a !! j = b !! j) → take k a ≡ₚ take k b.
Proof.
  intros Hp Hsame.
  assert (Hd : drop k a = drop k b).
  { apply list_eq. intros j. rewrite !lookup_drop. apply Hsame. lia. }
  apply (Permutation_app_inv_r (drop k a)).
  rewrite take_drop, Hd, take_drop. exact Hp.
Qed.

Lemma sort_loop_sorted i (a : list A) :
  Forall P a → S i ≤ length a →
  (∀ j, j < S i → heap_at cmp a (S i) j) →
  suffix_sorted cmp a (S i) →
  suffix_sorted cmp (sort_loop cmp i a) 1.
Proof.
  revert a. induction i as [|i IH]; intros a Ha Hn Hheap Hsuf; cbn [sort_loop].
  { exact Hsuf. }
  set (a1 := swap_func a 0 (S i)).
  set (a2 := sift_down cmp (S i) (S i) 0 a1).
  assert (Hl1 : length a1 = length a) by apply swap_func_length.
  assert (Ha1 : Forall P a1) by (apply swap_func_Forall; exact Ha).
  assert (Hlk1 : ∀ k, a1 !! k = a !! transpose 0 (S i) k).
  { intros k. apply swap_func_lookup; lia. }
  destruct (sift_down_heap (S i) (S i) 0 0 a1 Ha1) as [Hh2 Hsame2];
    [lia|lia|lia| | |].
  { intros j Hj Hne. destruct (Hheap j) as [Hl Hr]; [lia|].
    split; intros Ho x y; rewrite !Hlk1, !transpose_other by lia;
      [apply Hl|apply Hr]; lia. }
  { intros p c Hp Hk. lia. }
  fold a2 in Hh2, Hsame2.
  assert (Hp2 : a2 ≡ₚ a1) by apply sift_down_Permutation.
  assert (Hp1 : a1 ≡ₚ a) by apply swap_func_Permutation.
  apply IH.
  - rewrite Hp2. exact Ha1.
  - rewrite (Permutation_length Hp2), Hl1. lia.
  - intros j Hj. apply Hh2. lia.
  - intros k x y Hk Hx Hy.
    rewrite Hsame2 in Hx by lia.
    destruct (decide (k = S i)) as [->|Hne].
    + (* the old root, now at the end of the heap *)
      rewrite Hlk1, transpose_r in Hx.
      rewrite (take_Permutation_same_drop a2 a1 (S i) Hp2) in Hy
        by (intros j Hj; apply Hsame2; lia).
      apply list_elem_of_lookup in Hy as [j Hj].
      apply lookup_take_Some in Hj as [Hj Hjlt].
      rewrite Hlk1 in Hj.
      assert (Hjj : transpose 0 (S i) j < S (S i)).
      { unfold transpose. repeat case_decide; lia. }
      exact (heap_root_max (S (S i)) a Ha Hn Hheap _ Hjj x y Hx Hj).
    + rewrite Hlk1, transpose_other in Hx by lia.
      apply (Hsuf k x y); [lia|exact Hx|].
      rewrite <- (take_Permutation_same_drop a2 a k); [exact Hy| |].
      * rewrite Hp2. exact Hp1.
      * intros j Hj. rewrite Hsame2 by lia. rewrite Hlk1.
        rewrite transpose_other by lia. reflexivity.
Qed.

(** [sort] puts the elements in ascending order of the comparator. *)
Lemma sort_sorted (a : list A) i j x y :
  Forall P a → i < j →
  sort cmp a !! i = Some x → sort cmp a !! j = Some y →
  (0 <= cmp y x)%Z.
Proof.
  intros Ha Hij Hx Hy. unfold sort in *.
  set (num := length a) in *.
  destruct (heapify_heap (num / 2) num a Ha) as [Hh Hsame]; [reflexivity| |].
  { intros k Hk. pose proof (Nat.div_mod_eq num 2).
    pose proof (Nat.mod_upper_bound num 2). split; intros; lia. }
  set (h := heapify cmp (num / 2) num a) in *.
  assert (Hph : h ≡ₚ a) by apply heapify_Permutation.
  assert (Hj : j < num).
  { apply lookup_lt_Some in Hy.
    rewrite (Permutation_length (sort_loop_Permutation cmp _ h)) in Hy.
    rewrite (Permutation_length Hph) in Hy. exact Hy. }
  assert (Hsuf : suffix_sorted cmp (sort_loop cmp (num - 1) h) 1).
  { apply sort_loop_sorted.
    - rewrite Hph. exact Ha.
    - rewrite (Permutation_length Hph). fold num. lia.
    - replace (S (num - 1)) with num by lia. intros k Hk. apply Hh. lia.
    - intros k x' y' Hk Hx'. apply lookup_lt_Some in Hx'.
      rewrite (Permutation_length Hph) in Hx'. fold num in Hx'. lia. }
  apply (Hsuf j y x); [lia|exact Hy|].
  apply list_elem_of_lookup. exists i. apply lookup_take_Some. split; [exact Hx|exact Hij].
Qed.

End SortSorted.

(** With sizes below [2^31] the comparison is the difference of the
    sizes, and the sorted slice is in descending order of size. *)
Lemma to_int_wrap_ulong d :
  - 2 ^ 31 <= d < 2 ^ 31 → to_int (wrap_ulong d) = d.
Proof.
  intros Hd. unfold to_int, wrap_ulong, ULONG_BITS.
  rewrite (Z.mod_eq d (2 ^ 64)) by lia.
  replace (d - 2 ^ 64 * (d / 2 ^ 64) + 2 ^ 31)
    with (d + 2 ^ 31 + (- (2 ^ 32 * (d / 2 ^ 64))) * 2 ^ 32) by lia.
  rewrite Z_mod_plus_full. rewrite Z.mod_small by lia. lia.
Qed.

Lemma victim_cmp_small lhs rhs :
  0 <= size lhs < 2 ^ 31 → 0 <= size rhs < 2 ^ 31 →
  victim_cmp lhs rhs = size rhs - size lhs.
Proof.
  intros Hl Hr. unfold victim_cmp. apply to_int_wrap_ulong. lia.
Qed.

Lemma sort_victim_cmp_descending (l : list victim_info) i j x y :
  Forall small_size l →
  (i < j)%nat →
  sort victim_cmp l !! i = Some x → sort victim_cmp l !! j = Some y →
  size y <= size x.
Proof.
  intros Hl Hij Hx Hy.
  assert (Hsl : Forall small_size (sort victim_cmp l))
    by (rewrite sort_Permutation; exact Hl).
  pose proof (Forall_lookup_1 small_size _ i x Hsl Hx) as Hpx.
  pose proof (Forall_lookup_1 small_size _ j y Hsl Hy) as Hpy.
  assert (Hs : 0 <= victim_cmp y x).
  { apply (sort_sorted victim_cmp small_size) with (a := l) (i := i) (j := j);
      try assumption.
    - intros a b Ha Hb. unfold small_size in *.
      rewrite !victim_cmp_small by assumption. lia.
    - intros a b c Ha Hb Hc. unfold small_size in *.
      rewrite !victim_cmp_small by assumption. lia. }
  unfold small_size in *. rewrite victim_cmp_small in Hs by assumption. lia.
Qed.


(** ** The scan stays inside the victim table *)

Section ScanBounds.
Variable MIN_FREE_PAGES : Z.
Variables SIGNAL_GROUP_EXIT SIGNAL_GROUP_COREDUMP PF_EXITING : Z.

Lemma victims_store_Some i v (tbl : list victim_info) :
  0 <= i < Z.of_nat (length tbl) →
  victims_store i v tbl = Some (<[Z.to_nat i := v]> tbl).
Proof.
  intros Hi. unfold victims_store.
  destruct (0 <=? i) eqn:E1; [|lia].
  destruct (i <? Z.of_nat (length tbl)) eqn:E2; [reflexivity|lia].
Qed.

Lemma victims_store_inv i v (tbl tbl' : list victim_info) :
  victims_store i v tbl = Some tbl' →
  0 <= i < Z.of_nat (length tbl) ∧ tbl' = <[Z.to_nat i := v]> tbl.
Proof.
  unfold victims_store.
  destruct (0 <=? i) eqn:E1; destruct (i <? Z.of_nat (length tbl)) eqn:E2;
    simpl; intros [= <-]; split; [lia|reflexivity].
Qed.

Lemma bucket_chain_bounds chain vindex pages_found s :
  Z.of_nat (length (victims s)) = MAX_VICTIMS →
  0 <= vindex < MAX_VICTIMS →
  ∃ vindex' pages_found' s',
    bucket_chain chain vindex pages_found s = Some (vindex', pages_found', s') ∧
    vindex <= vindex' <= MAX_VICTIMS ∧
    length (victims s') = length (victims s) ∧
    task_bucket s' = task_bucket s.
Proof.
  revert vindex pages_found s.
  induction chain as [|t next IH]; intros vindex pages_found s Hlen Hv;
    cbn [bucket_chain].
  - eexists _, _, _. split; [reflexivity|]. repeat split; lia.
  - destruct (find_lock_task_mm t) as [[vtsk vmm]|]; [|apply IH; assumption].
    rewrite victims_store_Some by lia. cbn [mbind option_bind].
    destruct (vindex + 1 =? MAX_VICTIMS) eqn:E.
    + eexists _, _, _. split; [reflexivity|]. cbn.
      rewrite length_insert. repeat split; lia.
    + match goal with |- context [bucket_chain next _ ?p ?s1] =>
        destruct (IH (vindex + 1) p s1) as (v' & p' & s' & Hrun & Hb & Hl & Htb)
      end.
      * cbn. rewrite length_insert. assumption.
      * lia.
      * exists v', p', s'. split; [exact Hrun|].
        cbn in Hl, Htb. rewrite length_insert in Hl. repeat split; [lia|lia|assumption..].
Qed.

Lemma bucket_walk_bounds n i min_adj vindex pages_found s :
  Z.of_nat (length (victims s)) = MAX_VICTIMS →
  0 <= vindex < MAX_VICTIMS →
  ∃ vindex' pages_found' s',
    bucket_walk MIN_FREE_PAGES n i min_adj vindex pages_found s
      = Some (vindex', pages_found', s') ∧
    vindex <= vindex' <= MAX_VICTIMS ∧
    length (victims s') = length (victims s).
Proof.
  revert i vindex pages_found s.
  induction n as [|n IH]; intros i vindex pages_found s Hlen Hv;
    cbn [bucket_walk].
  - eexists _, _, _. split; [reflexivity|]. split; [lia|reflexivity].
  - destruct (task_bucket s !! i) as [[|t chain]|]; [apply IH; assumption| |apply IH; assumption].
    set (s1 := set_task_bucket _ s).
    destruct (bucket_chain_bounds (t :: chain) vindex pages_found s1)
      as (v1 & p1 & s2 & Hrun & Hb & Hl & _); [assumption..|].
    rewrite Hrun. cbn [mbind option_bind].
    destruct (v1 =? vindex) eqn:E1.
    + assert (v1 = vindex) as -> by lia.
      destruct (IH (i - 1) vindex p1 s2) as (v' & p' & s' & Hw & Hb' & Hl');
        [cbn in Hl; lia|lia|].
      exists v', p', s'. split; [exact Hw|]. split; [lia|].
      rewrite Hl'. exact Hl.
    + destruct ((v1 =? MAX_VICTIMS) || (p1 >=? MIN_FREE_PAGES)) eqn:E2.
      * eexists _, _, _. split; [reflexivity|]. split; [lia|].
        destruct (i >? min_adj); cbn; rewrite sort_victims_length; exact Hl.
      * apply orb_false_iff in E2 as [E2 _].
        match goal with |- context [bucket_walk _ n _ _ _ _ ?s3] =>
          destruct (IH (i - 1) v1 p1 s3) as (v' & p' & s' & Hw & Hb' & Hl')
        end.
        -- cbn. rewrite sort_victims_length. cbn in Hl. lia.
        -- lia.
        -- exists v', p', s'. split; [exact Hw|]. split; [lia|].
           rewrite Hl'. cbn. rewrite sort_victims_length. exact Hl.
Qed.

(** C9. Whatever the process list, a scan started at index 0 on the
    table of [MAX_VICTIMS] entries runs to its end without a store
    outside the table (a store at an index outside [0, MAX_VICTIMS) is
    the only way for the model to yield [None]), the index it leaves
    is at most [MAX_VICTIMS], and the table keeps its size. *)
Theorem find_victims_in_table (ps : list task_struct) (s : state) :
  Z.of_nat (length (victims s)) = MAX_VICTIMS →
  (∀ i v tbl, victims_store i v tbl ≠ None → 0 <= i < Z.of_nat (length tbl)) ∧
  ∃ nr_found pages_found s',
    find_victims MIN_FREE_PAGES SIGNAL_GROUP_EXIT SIGNAL_GROUP_COREDUMP
      PF_EXITING ps 0 s = Some (nr_found, pages_found, s') ∧
    0 <= nr_found <= MAX_VICTIMS ∧
    Z.of_nat (length (victims s')) = MAX_VICTIMS.
Proof.
  intros Hlen. split.
  - intros i v tbl Hs. destruct (victims_store i v tbl) as [tbl'|] eqn:E; [|done].
    apply victims_store_inv in E. tauto.
  - unfold find_victims.
    destruct (for_each_process _ _ _ ps (task_bucket s) SHRT_MAX 0)
      as [[b min_adj] max_adj].
    match goal with |- context [bucket_walk _ ?n ?i ?m 0 0 ?s1] =>
      destruct (bucket_walk_bounds n i m 0 0 s1) as (v' & p' & s' & Hw & Hb & Hl)
    end; [exact Hlen|unfold MAX_VICTIMS; lia|].
    exists v', p', s'. split; [exact Hw|]. split; [lia|].
    rewrite Hl. exact Hlen.
Qed.

End ScanBounds.

(** With 1030 candidates the scan stops when the table is full: 1024
    entries are recorded, the buckets are empty all the same, and the
    cycle kills the 1024 recorded candidates (the 1030 candidates hold
    1030 pages, fewer than the target of 2000). *)
Lemma crowd_fills_table :
  ∃ s1 r,
    find_victims 2000 4 8 4 crowd_ps 0 boot_state = Some (1024, 1024, s1) ∧
    task_bucket s1 = ∅ ∧
    length (candidates 4 8 4 crowd_ps) = 1030%nat ∧
    scan_and_kill_begin 2000 4 8 4 crowd_ps boot_state = Some r ∧
    length (selected r) = 1024%nat.
Proof.
  eexists _, _. split; [vm_compute; reflexivity|].
  split; [vm_compute; reflexivity|].
  split; [vm_compute; reflexivity|].
  split; vm_compute; reflexivity.
Qed.

(** ** Algebra of the state updates *)

(** Two states with the same fields are the same state. *)
Lemma state_ext s1 s2 :
  victims s1 = victims s2 → task_bucket s1 = task_bucket s2 →
  nr_victims s1 = nr_victims s2 → min_pressure s1 = min_pressure s2 →
  needs_reclaim s1 = needs_reclaim s2 → nr_killed s1 = nr_killed s2 →
  screen_on s1 = screen_on s2 → reclaim_done s1 = reclaim_done s2 →
  mm_free_lock s1 = mm_free_lock s2 → trace s1 = trace s2 →
  s1 = s2.
Proof.
  destruct s1, s2. cbn. intros. subst. reflexivity.
Qed.

Lemma emit_nil s : emit [] s = s.
Proof. destruct s. unfold emit. cbn. rewrite app_nil_r. reflexivity. Qed.

Lemma emit_emit e1 e2 s : emit e2 (emit e1 s) = emit (e1 ++ e2) s.
Proof. unfold emit. cbn. rewrite app_assoc. reflexivity. Qed.

Lemma set_victims_id s : set_victims (victims s) s = s.
Proof. destruct s. reflexivity. Qed.

Lemma set_task_bucket_id s : set_task_bucket (task_bucket s) s = s.
Proof. destruct s. reflexivity. Qed.

(** ** What one chain adds to the table *)

Lemma bucket_chain_spec chain vindex pages_found s :
  Z.of_nat (length (victims s)) = MAX_VICTIMS →
  0 <= vindex < MAX_VICTIMS →
  let new := take (Z.to_nat (MAX_VICTIMS - vindex)) (omap victim_of chain) in
  let vindex' := vindex + Z.of_nat (length new) in
  bucket_chain chain vindex pages_found s =
    Some (vindex', add_sizes pages_found new,
          emit (lock_events new)
            (set_victims (take (Z.to_nat vindex) (victims s) ++ new
                          ++ drop (Z.to_nat vindex') (victims s)) s)).
Proof.
  revert vindex pages_found s.
  induction chain as [|t next IH]; intros vindex pages_found s Hlen Hv;
    cbn [bucket_chain omap list_omap].
  - cbn. rewrite take_nil. cbn. rewrite Z.add_0_r, take_drop, emit_nil, set_victims_id.
    reflexivity.
  - destruct (find_lock_task_mm t) as [[vtsk vmm]|] eqn:Hf.
    2:{ assert (victim_of t = None) as -> by (unfold victim_of; rewrite Hf; reflexivity).
        apply IH; assumption. }
    set (v := {| tsk := Some vtsk; mm := Some (mm_id vmm);
                 size := get_total_mm_pages vmm |}).
    assert (victim_of t = Some v) as -> by (unfold victim_of; rewrite Hf; reflexivity).
    rewrite victims_store_Some by lia. cbn [mbind option_bind].
    replace (Z.to_nat (MAX_VICTIMS - vindex))
      with (S (Z.to_nat (MAX_VICTIMS - (vindex + 1)))) by lia.
    cbn [take length].
    destruct (vindex + 1 =? MAX_VICTIMS) eqn:E.
    + replace (Z.to_nat (MAX_VICTIMS - (vindex + 1))) with 0%nat by lia.
      rewrite take_0. cbn [length app add_sizes fold_left lock_events map].
      do 4 f_equal.
      rewrite insert_take_drop by lia. do 3 f_equal. lia.
    + rewrite IH; [|cbn; rewrite length_insert; assumption|lia].
      set (new' := take _ (omap victim_of next)).
      cbn [add_sizes fold_left lock_events map].
      f_equal. f_equal; [f_equal; lia|].
      unfold set_victims, emit; cbn. f_equal.
      * replace (Z.to_nat (vindex + 1)) with (S (Z.to_nat vindex)) by lia.
        erewrite take_S_r by (apply list_lookup_insert_eq; lia).
        rewrite take_insert_ge by lia.
        rewrite drop_insert_lt by lia.
        rewrite <- app_assoc. cbn [app]. do 4 f_equal. lia.
      * rewrite <- app_assoc. reflexivity.
Qed.

(** ** Sums of sizes *)

Lemma sum_sizes_app l1 l2 : sum_sizes (l1 ++ l2) = sum_sizes l1 + sum_sizes l2.
Proof. unfold sum_sizes. induction l1 as [|v l1 IH]; cbn; lia. Qed.

Lemma sum_sizes_Permutation l1 l2 : l1 ≡ₚ l2 → sum_sizes l1 = sum_sizes l2.
Proof. unfold sum_sizes. induction 1; cbn; lia. Qed.

Lemma wrap_ulong_range z : 0 <= wrap_ulong z < 2 ^ ULONG_BITS.
Proof. unfold wrap_ulong. apply Z.mod_pos_bound. reflexivity. Qed.

Lemma wrap_ulong_small z : 0 <= z < 2 ^ ULONG_BITS → wrap_ulong z = z.
Proof. intros H. unfold wrap_ulong. apply Z.mod_small. exact H. Qed.


Lemma wrap_ulong_add_l a b : wrap_ulong (wrap_ulong a + b) = wrap_ulong (a + b).
Proof. unfold wrap_ulong. apply Zplus_mod_idemp_l. Qed.

Lemma add_sizes_wrap pages_found new :
  0 <= pages_found < 2 ^ ULONG_BITS →
  add_sizes pages_found new = wrap_ulong (pages_found + sum_sizes new).
Proof.
  unfold add_sizes, sum_sizes.
  revert pages_found. induction new as [|v new IH]; intros p Hp; cbn.
  - rewrite Z.add_0_r, wrap_ulong_small; [reflexivity|exact Hp].
  - rewrite IH by apply wrap_ulong_range.
    rewrite wrap_ulong_add_l. f_equal. lia.
Qed.

Lemma get_total_mm_pages_range m : 0 <= get_total_mm_pages m < 2 ^ ULONG_BITS.
Proof.
  unfold get_total_mm_pages.
  assert (H : ∀ l p, 0 <= p < 2 ^ ULONG_BITS →
     0 <= fold_left (fun pages c => wrap_ulong (pages + c)) l p < 2 ^ ULONG_BITS).
  { induction l as [|c l IH]; intros p Hp; cbn; [exact Hp|].
    apply IH, wrap_ulong_range. }
  apply H. unfold ULONG_BITS. lia.
Qed.

(** ** The tasks chained in the buckets *)

Lemma bucket_tasks_empty : bucket_tasks ∅ = [].
Proof. unfold bucket_tasks. rewrite map_to_list_empty. reflexivity. Qed.

Lemma bucket_tasks_delete (b : gmap Z (list task_struct)) i c :
  b !! i = Some c → bucket_tasks b ≡ₚ c ++ bucket_tasks (delete i b).
Proof.
  intros Hb. unfold bucket_tasks.
  rewrite <- (map_to_list_delete b i c Hb). reflexivity.
Qed.

Lemma bucket_tasks_push (b : gmap Z (list task_struct)) adj t :
  bucket_tasks (bucket_push adj t b) ≡ₚ t :: bucket_tasks b.
Proof.
  unfold bucket_push.
  rewrite (bucket_tasks_delete (<[adj:=t :: default [] (b !! adj)]> b) adj
             (t :: default [] (b !! adj))) by apply lookup_insert_eq.
  rewrite delete_insert_eq. cbn [app]. apply Permutation_cons; [reflexivity|].
  destruct (b !! adj) as [c|] eqn:E; cbn.
  - symmetry. apply bucket_tasks_delete. exact E.
  - rewrite delete_id by exact E. reflexivity.
Qed.

Lemma buckets_within_empty (b : gmap Z (list task_struct)) lo hi :
  hi < lo → buckets_within lo hi b → b = ∅.
Proof.
  intros Hlt Hb. apply map_empty. intros k.
  destruct (b !! k) as [c|] eqn:E; [|reflexivity].
  destruct (Hb k c E) as [_ ?]. lia.
Qed.

Lemma buckets_within_delete (b : gmap Z (list task_struct)) lo hi :
  buckets_within lo hi b → buckets_within lo (hi - 1) (delete hi b).
Proof.
  intros Hb k c Hk. apply lookup_delete_Some in Hk as [Hne Hk'].
  destruct (Hb k c Hk'). split; [assumption|lia].
Qed.

Lemma buckets_within_skip (b : gmap Z (list task_struct)) lo hi :
  b !! hi = None → buckets_within lo hi b → buckets_within lo (hi - 1) b.
Proof.
  intros Hnone Hb k c Hk. destruct (Hb k c Hk).
  split; [assumption|]. assert (k ≠ hi) by congruence. lia.
Qed.

Lemma foldr_delete_lookup_in (b : gmap Z (list task_struct)) (l : list Z) k :
  k ∈ l → foldr delete b l !! k = None.
Proof.
  induction l as [|x l IH]; cbn; intros Hin.
  - apply elem_of_nil in Hin. contradiction.
  - destruct (decide (x = k)) as [->|Hne]; [apply lookup_delete_eq|].
    rewrite lookup_delete_ne by exact Hne. apply IH.
    apply elem_of_cons in Hin as [->|Hin]; [congruence|exact Hin].
Qed.

Lemma foldr_delete_lookup_notin (b : gmap Z (list task_struct)) (l : list Z) k :
  k ∉ l → foldr delete b l !! k = b !! k.
Proof.
  induction l as [|x l IH]; cbn; [reflexivity|]. intros Hk.
  rewrite lookup_delete_ne by set_solver. apply IH. set_solver.
Qed.

Lemma memset_buckets_lookup (b : gmap Z (list task_struct)) lo len k :
  memset_buckets lo len b !! k =
    if decide (lo <= k < lo + len) then None else b !! k.
Proof.
  unfold memset_buckets. case_decide as Hk.
  - apply foldr_delete_lookup_in, elem_of_seqZ. exact Hk.
  - apply foldr_delete_lookup_notin. rewrite elem_of_seqZ. exact Hk.
Qed.

Lemma memset_buckets_clears (b : gmap Z (list task_struct)) lo hi :
  buckets_within lo hi b →
  (if hi >? lo then memset_buckets lo (hi - lo) (delete hi b) else delete hi b) = ∅.
Proof.
  intros Hb. apply map_empty. intros k.
  destruct (hi >? lo) eqn:E.
  - rewrite memset_buckets_lookup. case_decide; [reflexivity|].
    destruct (delete hi b !! k) as [c|] eqn:Hk; [|reflexivity].
    apply lookup_delete_Some in Hk as [Hne Hk']. destruct (Hb k c Hk'). lia.
  - destruct (delete hi b !! k) as [c|] eqn:Hk; [|reflexivity].
    apply lookup_delete_Some in Hk as [Hne Hk']. destruct (Hb k c Hk'). lia.
Qed.

(** ** The first loop of find_victims *)

Section Scan.
Variable MIN_FREE_PAGES : Z.
Variables SIGNAL_GROUP_EXIT SIGNAL_GROUP_COREDUMP PF_EXITING : Z.

Local Abbreviation skip_task' :=
  (skip_task SIGNAL_GROUP_EXIT SIGNAL_GROUP_COREDUMP PF_EXITING).
Local Abbreviation for_each_process' :=
  (for_each_process SIGNAL_GROUP_EXIT SIGNAL_GROUP_COREDUMP PF_EXITING).
Local Abbreviation candidates' :=
  (candidates SIGNAL_GROUP_EXIT SIGNAL_GROUP_COREDUMP PF_EXITING).
Local Abbreviation find_victims' :=
  (find_victims MIN_FREE_PAGES SIGNAL_GROUP_EXIT SIGNAL_GROUP_COREDUMP PF_EXITING).

Lemma buckets_within_push (b : gmap Z (list task_struct)) lo hi adj t :
  buckets_within lo hi b →
  buckets_within (if adj <? lo then adj else lo) (if adj >? hi then adj else hi)
    (bucket_push adj t b).
Proof.
  intros Hb k c Hk. unfold bucket_push in Hk.
  apply lookup_insert_Some in Hk as [[<- <-]|[Hne Hk']].
  - split; [discriminate|]. destruct (adj <? lo) eqn:E1, (adj >? hi) eqn:E2; lia.
  - destruct (Hb k c Hk'). split; [assumption|].
    destruct (adj <? lo) eqn:E1, (adj >? hi) eqn:E2; lia.
Qed.

Lemma for_each_process_spec ps b min_adj max_adj b' min_adj' max_adj' :
  for_each_process' ps b min_adj max_adj = (b', min_adj', max_adj') →
  buckets_within min_adj max_adj b →
  buckets_within min_adj' max_adj' b' ∧
  bucket_tasks b' ≡ₚ filter (fun t => skip_task' t = false) ps ++ bucket_tasks b.
Proof.
  revert b min_adj max_adj.
  induction ps as [|t ps IH]; intros b lo hi Hrun Hb; cbn [for_each_process] in Hrun.
  - injection Hrun as <- <- <-. split; [exact Hb|reflexivity].
  - destruct (skip_task' t) eqn:Hskip.
    + rewrite filter_cons_False by congruence. apply (IH _ _ _ Hrun Hb).
    + rewrite filter_cons_True by exact Hskip.
      destruct (IH _ _ _ Hrun (buckets_within_push b lo hi (oom_score_adj t) t Hb))
        as [Hw Hp].
      split; [exact Hw|]. rewrite Hp, bucket_tasks_push. cbn [app].
      symmetry. apply Permutation_middle.
Qed.

(** ** The walk over the buckets *)

Lemma state_walk_norm e1 e2 T1 T2 b1 b2 s :
  emit e2 (set_victims T2 (set_task_bucket b2
    (emit e1 (set_victims T1 (set_task_bucket b1 s)))))
  = emit (e1 ++ e2) (set_victims T2 (set_task_bucket b2 s)).
Proof.
  apply state_ext; try reflexivity.
  cbn [trace emit set_victims set_task_bucket]. symmetry. apply app_assoc.
Qed.

Lemma state_walk_stop e1 T2 T3 b1 b s :
  set_task_bucket b (set_victims T3 (emit e1 (set_victims T2 (set_task_bucket b1 s))))
  = emit e1 (set_victims T3 (set_task_bucket b s)).
Proof. apply state_ext; reflexivity. Qed.

Lemma state_walk_keep e1 T2 T3 b1 s :
  set_victims T3 (emit e1 (set_victims T2 (set_task_bucket b1 s)))
  = emit e1 (set_victims T3 (set_task_bucket b1 s)).
Proof. apply state_ext; reflexivity. Qed.

Lemma state_walk_next e1 e2 T T2 T3 b1 b2 s :
  emit e2 (set_victims T (set_task_bucket b2
    (set_victims T3 (emit e1 (set_victims T2 (set_task_bucket b1 s))))))
  = emit (e1 ++ e2) (set_victims T (set_task_bucket b2 s)).
Proof.
  apply state_ext; try reflexivity.
  cbn [trace emit set_victims set_task_bucket]. symmetry. apply app_assoc.
Qed.

Lemma bucket_walk_spec n i min_adj vindex pages_found s :
  Z.of_nat (length (victims s)) = MAX_VICTIMS →
  0 <= vindex < MAX_VICTIMS →
  0 <= pages_found < 2 ^ ULONG_BITS →
  buckets_within min_adj i (task_bucket s) →
  n = Z.to_nat (i - min_adj + 1) →
  ∃ new rest tbl locks pages_found',
    bucket_walk MIN_FREE_PAGES n i min_adj vindex pages_found s =
      Some (vindex + Z.of_nat (length new), pages_found',
            emit locks (set_victims tbl (set_task_bucket ∅ s))) ∧
    vindex + Z.of_nat (length new) <= MAX_VICTIMS ∧
    length tbl = length (victims s) ∧
    take (Z.to_nat (vindex + Z.of_nat (length new))) tbl
      ≡ₚ take (Z.to_nat vindex) (victims s) ++ new ∧
    drop (Z.to_nat (vindex + Z.of_nat (length new))) tbl
      = drop (Z.to_nat (vindex + Z.of_nat (length new))) (victims s) ∧
    new ++ rest ≡ₚ omap victim_of (bucket_tasks (task_bucket s)) ∧
    (rest = [] ∨ vindex + Z.of_nat (length new) = MAX_VICTIMS
     ∨ MIN_FREE_PAGES <= pages_found') ∧
    pages_found' = wrap_ulong (pages_found + sum_sizes new) ∧
    locks ≡ₚ lock_events new.
Proof.
  revert i vindex pages_found s.
  induction n as [|n IH]; intros i vindex pages_found s Hlen Hv Hpf Hb Hn;
    cbn [bucket_walk].
  - assert (Hemp : task_bucket s = ∅) by (apply (buckets_within_empty _ min_adj i); [lia|exact Hb]).
    exists [], [], (victims s), [], pages_found. cbn [length app].
    rewrite Z.add_0_r, <- Hemp, set_task_bucket_id, set_victims_id, emit_nil.
    rewrite app_nil_r, Hemp, bucket_tasks_empty.
    repeat split; try reflexivity; try lia.
    + left; reflexivity.
    + cbn. rewrite Z.add_0_r, wrap_ulong_small; [reflexivity|exact Hpf].
  - destruct (task_bucket s !! i) as [[|t chain]|] eqn:Hbi.
    + destruct (Hb i [] Hbi) as [Hne _]. congruence.
    + (* a chain hangs off bucket [i] *)
      set (c := omap victim_of (t :: chain)).
      set (b1 := delete i (task_bucket s)).
      assert (Hb1 : buckets_within min_adj (i - 1) b1)
        by (apply buckets_within_delete; exact Hb).
      assert (Hcands : omap victim_of (bucket_tasks (task_bucket s))
                       ≡ₚ c ++ omap victim_of (bucket_tasks b1)).
      { rewrite (bucket_tasks_delete _ i _ Hbi), omap_app. reflexivity. }
      rewrite bucket_chain_spec by (cbn; assumption).
      fold c. set (new1 := take (Z.to_nat (MAX_VICTIMS - vindex)) c).
      set (v1 := vindex + Z.of_nat (length new1)).
      cbn [mbind option_bind victims set_task_bucket].
      set (T2 := take (Z.to_nat vindex) (victims s) ++ new1
                 ++ drop (Z.to_nat v1) (victims s)).
      assert (Hlen1 : Z.of_nat (length new1) <= MAX_VICTIMS - vindex).
      { unfold new1. rewrite length_take. lia. }
      assert (HlenT2 : length T2 = length (victims s)).
      { unfold T2. rewrite !length_app, length_take, length_drop. unfold v1. lia. }
      assert (HtakeT2 : take (Z.to_nat v1) T2 = take (Z.to_nat vindex) (victims s) ++ new1).
      { unfold T2. rewrite app_assoc. apply take_app_length'.
        rewrite length_app, length_take. unfold v1. lia. }
      assert (HdropT2 : drop (Z.to_nat v1) T2 = drop (Z.to_nat v1) (victims s)).
      { unfold T2. rewrite app_assoc. apply drop_app_length'.
        rewrite length_app, length_take. unfold v1. lia. }
      destruct (v1 =? vindex) eqn:E1; [apply Z.eqb_eq in E1|apply Z.eqb_neq in E1].
      * (* nothing was found in this bucket *)
        assert (Hnil : new1 = []).
        { apply length_zero_iff_nil. unfold v1 in E1. lia. }
        assert (Hc : c = []).
        { apply length_zero_iff_nil.
          assert (Hl0 : length new1 = 0%nat) by (rewrite Hnil; reflexivity).
          unfold new1 in Hl0. rewrite length_take in Hl0. lia. }
        assert (Hv1 : v1 = vindex) by lia.
        assert (HT2 : T2 = victims s).
        { unfold T2. rewrite Hnil, Hv1. cbn [app]. apply take_drop. }
        rewrite Hv1.
        match goal with |- context [bucket_walk _ n _ _ _ ?p ?s2] =>
          destruct (IH (i - 1) vindex p s2)
            as (new & rest & tbl & locks & pf' & Hrun & Hle & Hl & Htk & Hdr & Hcs & Hst & Hpf' & Hlk)
        end.
        { cbn. rewrite HlenT2. exact Hlen. }
        { exact Hv. }
        { rewrite Hnil. cbn. exact Hpf. }
        { cbn. exact Hb1. }
        { lia. }
        exists new, rest, tbl, locks, pf'.
        rewrite Hrun, state_walk_norm, Hnil. cbn [lock_events map app].
        cbn [victims emit set_victims set_task_bucket task_bucket] in Hl, Htk, Hdr, Hcs.
        rewrite HT2 in Hl, Htk, Hdr.
        repeat split; try assumption.
        -- rewrite Hcands, Hc. cbn [app]. exact Hcs.
        -- rewrite Hpf', Hnil. reflexivity.
      * (* the new slice is sorted *)
        assert (Hnew1 : 0 < Z.of_nat (length new1)) by (unfold v1 in E1; lia).
        set (T3 := sort_victims vindex v1 T2).
        assert (HlenT3 : length T3 = length (victims s)).
        { unfold T3. rewrite sort_victims_length. exact HlenT2. }
        assert (Hrange : 0 <= vindex <= v1) by (unfold v1; lia).
        assert (Hv1len : v1 <= Z.of_nat (length T2)) by (rewrite HlenT2; unfold v1; lia).
        assert (HtakeT3 : take (Z.to_nat v1) T3 ≡ₚ take (Z.to_nat vindex) (victims s) ++ new1).
        { unfold T3. rewrite sort_victims_take_upto by assumption. rewrite HtakeT2.
          reflexivity. }
        assert (HdropT3 : drop (Z.to_nat v1) T3 = drop (Z.to_nat v1) (victims s)).
        { unfold T3. rewrite sort_victims_drop_upto by assumption. exact HdropT2. }
        assert (Hpf1 : add_sizes pages_found new1 = wrap_ulong (pages_found + sum_sizes new1))
          by (apply add_sizes_wrap; exact Hpf).
        destruct ((v1 =? MAX_VICTIMS) || (add_sizes pages_found new1 >=? MIN_FREE_PAGES)) eqn:E2.
        -- (* out of space, or enough pages found *)
           exists new1, (drop (Z.to_nat (MAX_VICTIMS - vindex)) c
                         ++ omap victim_of (bucket_tasks b1)),
                  T3, (lock_events new1), (add_sizes pages_found new1).
           fold v1. split.
           { f_equal. f_equal.
             pose proof (memset_buckets_clears (task_bucket s) min_adj i Hb) as Hclr.
             fold b1 in Hclr.
             destruct (i >? min_adj).
             - rewrite state_walk_stop. cbn [task_bucket emit set_victims set_task_bucket].
               rewrite Hclr. reflexivity.
             - rewrite <- Hclr. apply state_walk_keep. }
           split; [unfold v1; lia|]. split; [exact HlenT3|]. split; [exact HtakeT3|].
           split; [exact HdropT3|]. split; [|split; [|split; [exact Hpf1|reflexivity]]].
           ++ rewrite Hcands, app_assoc. unfold new1. rewrite take_drop. reflexivity.
           ++ apply orb_true_iff in E2 as [E2|E2]; [right; left|right; right].
              ** apply Z.eqb_eq in E2. exact E2.
              ** apply Z.geb_le in E2. exact E2.
        -- (* on to the next bucket *)
           apply orb_false_iff in E2 as [E2a E2b]. apply Z.eqb_neq in E2a.
           assert (Hall : new1 = c).
           { unfold new1. apply take_ge.
             assert (Hl1 : length new1 = Init.Nat.min (Z.to_nat (MAX_VICTIMS - vindex)) (length c))
               by (unfold new1; apply length_take).
             unfold v1 in E2a. lia. }
           match goal with |- context [bucket_walk _ n _ _ _ ?p ?s3] =>
             destruct (IH (i - 1) v1 p s3)
               as (new & rest & tbl & locks & pf' & Hrun & Hle & Hl & Htk & Hdr & Hcs & Hst & Hpf' & Hlk)
           end.
           { cbn. fold T2 v1 T3. rewrite HlenT3. exact Hlen. }
           { unfold v1. lia. }
           { rewrite Hpf1. apply wrap_ulong_range. }
           { cbn. exact Hb1. }
           { lia. }
           cbn [victims emit set_victims set_task_bucket task_bucket] in Hl, Htk, Hdr, Hcs.
           fold T2 v1 T3 in Hl, Htk, Hdr, Hrun.
           exists (new1 ++ new), rest, tbl, (lock_events new1 ++ locks), pf'.
           rewrite length_app, Nat2Z.inj_add, Z.add_assoc. fold v1.
           split.
           { fold T2 T3. rewrite Hrun. f_equal. f_equal. apply state_walk_next. }
           repeat split.
           ++ exact Hle.
           ++ rewrite Hl. exact HlenT3.
           ++ rewrite Htk, HtakeT3, app_assoc. reflexivity.
           ++ rewrite Hdr.
              replace (Z.to_nat (v1 + Z.of_nat (length new)))
                with (Z.to_nat v1 + length new)%nat by lia.
              rewrite <- !drop_drop, HdropT3. reflexivity.
           ++ rewrite Hcands, <- app_assoc, Hcs, Hall. reflexivity.
           ++ exact Hst.
           ++ rewrite Hpf', Hpf1, wrap_ulong_add_l, sum_sizes_app. f_equal. lia.
           ++ unfold lock_events. rewrite map_app. fold (lock_events new1) (lock_events new).
              rewrite Hlk. reflexivity.
    + (* an empty bucket *)
      apply IH; try assumption; [|lia].
      apply buckets_within_skip; assumption.
Qed.

(** ** What a scan leaves *)

Lemma find_victims_spec ps s :
  Z.of_nat (length (victims s)) = MAX_VICTIMS →
  task_bucket s = ∅ →
  ∃ nr_found pages_found tbl locks rest,
    find_victims' ps 0 s =
      Some (nr_found, pages_found, emit locks (set_victims tbl s)) ∧
    0 <= nr_found <= MAX_VICTIMS ∧
    length tbl = length (victims s) ∧
    drop (Z.to_nat nr_found) tbl = drop (Z.to_nat nr_found) (victims s) ∧
    take (Z.to_nat nr_found) tbl ++ rest ≡ₚ candidates' ps ∧
    (rest = [] ∨ nr_found = MAX_VICTIMS ∨ MIN_FREE_PAGES <= pages_found) ∧
    pages_found = wrap_ulong (sum_sizes (take (Z.to_nat nr_found) tbl)) ∧
    locks ≡ₚ lock_events (take (Z.to_nat nr_found) tbl).
Proof.
  intros Hlen Hemp. unfold find_victims.
  destruct (for_each_process' ps (task_bucket s) SHRT_MAX 0)
    as [[b min_adj] max_adj] eqn:Hfep.
  destruct (for_each_process_spec _ _ _ _ _ _ _ Hfep) as [Hw Hp].
  { rewrite Hemp. intros k c Hk. rewrite lookup_empty in Hk. discriminate. }
  rewrite Hemp, bucket_tasks_empty, app_nil_r in Hp.
  destruct (bucket_walk_spec (Z.to_nat (max_adj - min_adj + 1)) max_adj min_adj
              0 0 (set_task_bucket b s))
    as (new & rest & tbl & locks & pf' & Hrun & Hle & Hl & Htk & Hdr & Hcs & Hst & Hpf' & Hlk);
    [exact Hlen|unfold MAX_VICTIMS; lia|unfold ULONG_BITS; lia|exact Hw|reflexivity|].
  cbn [victims task_bucket set_task_bucket] in Hl, Htk, Hdr, Hcs.
  rewrite take_0 in Htk. cbn [app] in Htk. rewrite Z.add_0_l in *.
  exists (Z.of_nat (length new)), pf', tbl, locks, rest.
  split.
  { rewrite Hrun. do 3 f_equal.
    unfold set_task_bucket. cbn. rewrite <- Hemp. destruct s; reflexivity. }
  split; [lia|]. split; [exact Hl|]. split; [exact Hdr|].
  split; [rewrite Htk, Hcs, Hp; reflexivity|].
  split; [exact Hst|].
  split; [rewrite Hpf', (sum_sizes_Permutation _ _ Htk); reflexivity|].
  rewrite Hlk. unfold lock_events. rewrite Htk. reflexivity.
Qed.

End Scan.

(** ** The selector *)

Section Select.
Variable MIN_FREE_PAGES : Z.

Local Abbreviation chosen' := (chosen MIN_FREE_PAGES).
Local Abbreviation process_victims_loop' := (process_victims_loop MIN_FREE_PAGES).
Local Abbreviation process_victims' := (process_victims MIN_FREE_PAGES).

Lemma chosen_prefix pages_found vs :
  chosen' pages_found vs = take (length (chosen' pages_found vs)) vs.
Proof.
  revert pages_found. induction vs as [|v vs IH]; intros p; cbn [chosen];
    [reflexivity|].
  destruct (p >=? MIN_FREE_PAGES); [reflexivity|].
  cbn [length take]. f_equal. apply IH.
Qed.

Lemma chosen_length pages_found vs :
  (length (chosen' pages_found vs) ≤ length vs)%nat.
Proof.
  rewrite (chosen_prefix pages_found vs) at 1. rewrite length_take. lia.
Qed.

(** The running total stays below the target as long as victims are
    counted in. *)
Lemma chosen_below pages_found vs k :
  (k < length (chosen' pages_found vs))%nat →
  add_sizes pages_found (take k vs) < MIN_FREE_PAGES.
Proof.
  revert pages_found k. induction vs as [|v vs IH]; intros p k; cbn [chosen].
  - cbn. lia.
  - destruct (p >=? MIN_FREE_PAGES) eqn:E; [cbn; lia|].
    rewrite Z.geb_leb in E. apply Z.leb_gt in E. cbn [length]. intros Hk.
    destruct k as [|k]; [cbn; exact E|].
    cbn [take add_sizes fold_left]. apply IH. lia.
Qed.

(** When a victim is released, the running total has met the target. *)
Lemma chosen_stops pages_found vs :
  (length (chosen' pages_found vs) < length vs)%nat →
  MIN_FREE_PAGES <= add_sizes pages_found (chosen' pages_found vs).
Proof.
  revert pages_found. induction vs as [|v vs IH]; intros p; cbn [chosen].
  - cbn. lia.
  - destruct (p >=? MIN_FREE_PAGES) eqn:E.
    + apply Z.geb_le in E. intros _. cbn. exact E.
    + cbn [length add_sizes fold_left]. intros Hk. apply IH. lia.
Qed.

Lemma process_victims_loop_spec vs pages_found nr_to_kill s :
  process_victims_loop' vs pages_found nr_to_kill s =
    (nr_to_kill + Z.of_nat (length (chosen' pages_found vs)),
     emit (unlock_events (drop (length (chosen' pages_found vs)) vs)) s).
Proof.
  revert pages_found nr_to_kill s.
  induction vs as [|v vs IH]; intros p nr s; cbn [process_victims_loop chosen].
  - cbn. rewrite Z.add_0_r, emit_nil. reflexivity.
  - destruct (p >=? MIN_FREE_PAGES) eqn:E.
    + cbn [length drop]. rewrite Z.add_0_r.
      (* from here on every victim is released *)
      assert (Hrel : ∀ vs nr s,
        process_victims_loop' vs p nr s = (nr, emit (unlock_events vs) s)).
      { clear IH. induction vs0 as [|w ws IHw]; intros nr0 s0;
          cbn [process_victims_loop].
        - rewrite emit_nil. reflexivity.
        - rewrite E, IHw, emit_emit. reflexivity. }
      rewrite Hrel, emit_emit. reflexivity.
    + rewrite IH. cbn [length drop]. f_equal. lia.
Qed.

Lemma process_victims_spec vlen s :
  let vs := take (Z.to_nat vlen) (victims s) in
  process_victims' vlen s =
    (Z.of_nat (length (chosen' 0 vs)),
     emit (unlock_events (drop (length (chosen' 0 vs)) vs)) s).
Proof.
  cbn zeta. unfold process_victims. rewrite process_victims_loop_spec.
  reflexivity.
Qed.

Lemma kill_loop_spec vs s : kill_loop vs s = emit (flat_map kill_victim vs) s.
Proof.
  revert s. induction vs as [|v vs IH]; intros s; cbn [kill_loop flat_map].
  - rewrite emit_nil. reflexivity.
  - rewrite IH, emit_emit. reflexivity.
Qed.

Lemma signalled_app tr1 tr2 :
  signalled (tr1 ++ tr2) = signalled tr1 ++ signalled tr2.
Proof. apply omap_app. Qed.

Lemma signalled_kill vs : signalled (flat_map kill_victim vs) = map tsk vs.
Proof.
  induction vs as [|v vs IH]; [reflexivity|].
  cbn [flat_map]. rewrite signalled_app, IH. reflexivity.
Qed.

Lemma signalled_unlock vs : signalled (unlock_events vs) = [].
Proof. induction vs as [|v vs IH]; [reflexivity|exact IH]. Qed.

Lemma signalled_lock vs : signalled (lock_events vs) = [].
Proof. induction vs as [|v vs IH]; [reflexivity|exact IH]. Qed.

Lemma wakeups_app tr1 tr2 : wakeups (tr1 ++ tr2) = (wakeups tr1 + wakeups tr2)%nat.
Proof. unfold wakeups. rewrite filter_app. apply length_app. Qed.

Lemma wakeups_unlock vs : wakeups (unlock_events vs) = 0%nat.
Proof. induction vs as [|v vs IH]; [reflexivity|exact IH]. Qed.

Lemma wakeups_lock vs : wakeups (lock_events vs) = 0%nat.
Proof. induction vs as [|v vs IH]; [reflexivity|exact IH]. Qed.

Lemma wakeups_kill vs : wakeups (flat_map kill_victim vs) = 0%nat.
Proof. induction vs as [|v vs IH]; [reflexivity|exact IH]. Qed.

Lemma wakeups_Permutation tr1 tr2 : tr1 ≡ₚ tr2 → wakeups tr1 = wakeups tr2.
Proof. intros H. unfold wakeups. rewrite H. reflexivity. Qed.

(** C10. A pass of the selector over [victims[0 .. vlen)] returns a
    count [nr_to_kill] between 0 and [vlen], leaves the table alone, and
    releases (unlocks) exactly the entries at the indices [nr_to_kill ..
    vlen), in order; the entries counted in are therefore the prefix
    [victims[0 .. nr_to_kill)].  The running total is below the target
    before each entry of the prefix and has met it once an entry is
    released.  The kill loop over that prefix signals, expedites and
    unlocks exactly its entries, in order. *)
Theorem process_victims_prefix (vlen : Z) (s : state) :
  0 <= vlen <= Z.of_nat (length (victims s)) →
  ∃ nr_to_kill s',
    process_victims' vlen s = (nr_to_kill, s') ∧
    0 <= nr_to_kill <= vlen ∧
    s' = emit (unlock_events
                 (drop (Z.to_nat nr_to_kill) (take (Z.to_nat vlen) (victims s)))) s ∧
    take (Z.to_nat nr_to_kill) (victims s')
      = chosen' 0 (take (Z.to_nat vlen) (victims s)) ∧
    (∀ k, 0 <= k < nr_to_kill →
       add_sizes 0 (take (Z.to_nat k) (victims s)) < MIN_FREE_PAGES) ∧
    (nr_to_kill < vlen →
       MIN_FREE_PAGES <= add_sizes 0 (take (Z.to_nat nr_to_kill) (victims s))) ∧
    kill_loop (take (Z.to_nat nr_to_kill) (victims s')) s'
      = emit (flat_map kill_victim (take (Z.to_nat nr_to_kill) (victims s))) s' ∧
    signalled (flat_map kill_victim (take (Z.to_nat nr_to_kill) (victims s)))
      = map tsk (take (Z.to_nat nr_to_kill) (victims s)).
Proof.
  intros Hvlen.
  set (vs := take (Z.to_nat vlen) (victims s)).
  set (k := length (chosen' 0 vs)).
  assert (Hlvs : length vs = Z.to_nat vlen) by (unfold vs; rewrite length_take; lia).
  assert (Hk : (k ≤ length vs)%nat) by apply chosen_length.
  assert (Htk : take k (victims s) = chosen' 0 vs).
  { rewrite (chosen_prefix 0 vs). fold k. unfold vs. rewrite take_take.
    f_equal. lia. }
  exists (Z.of_nat k), (emit (unlock_events (drop k vs)) s).
  rewrite Nat2Z.id. cbn [victims emit].
  split; [apply process_victims_spec|].
  split; [lia|]. split; [reflexivity|]. split; [exact Htk|].
  split; [|split; [|split]].
  - intros j Hj.
    replace (take (Z.to_nat j) (victims s)) with (take (Z.to_nat j) vs).
    + apply chosen_below. fold k. lia.
    + unfold vs. rewrite take_take. f_equal. lia.
  - intros Hlt. rewrite Htk. apply chosen_stops. fold k. lia.
  - apply kill_loop_spec.
  - apply signalled_kill.
Qed.

End Select.

(** ** Freed notifications leave the buckets and the table size alone *)

Lemma mm_freed_loop_frame n i m s :
  task_bucket (mm_freed_loop n i m s) = task_bucket s ∧
  length (victims (mm_freed_loop n i m s)) = length (victims s) ∧
  nr_victims (mm_freed_loop n i m s) = nr_victims s ∧
  needs_reclaim (mm_freed_loop n i m s) = needs_reclaim s ∧
  mm_free_lock (mm_freed_loop n i m s) = mm_free_lock s.
Proof.
  revert i. induction n as [|n IH]; intros i; cbn [mm_freed_loop];
    [repeat split; reflexivity|].
  destruct (victims s !! i) as [v|]; [|repeat split; reflexivity].
  case_decide; [|apply IH].
  match goal with |- context [if ?c then _ else _] => destruct c end;
    cbn; rewrite length_insert; repeat split; reflexivity.
Qed.

Lemma simple_lmk_mm_freed_frame m s :
  task_bucket (simple_lmk_mm_freed m s) = task_bucket s ∧
  length (victims (simple_lmk_mm_freed m s)) = length (victims s) ∧
  nr_victims (simple_lmk_mm_freed m s) = nr_victims s ∧
  needs_reclaim (simple_lmk_mm_freed m s) = needs_reclaim s ∧
  mm_free_lock (simple_lmk_mm_freed m s) = mm_free_lock s.
Proof.
  unfold simple_lmk_mm_freed.
  destruct (mm_free_lock s) eqn:E; [rewrite E; repeat split; reflexivity|].
  rewrite <- E. apply mm_freed_loop_frame.
Qed.

Lemma deliver_freed_frame freed s :
  task_bucket (deliver_freed freed s) = task_bucket s ∧
  length (victims (deliver_freed freed s)) = length (victims s) ∧
  nr_victims (deliver_freed freed s) = nr_victims s ∧
  needs_reclaim (deliver_freed freed s) = needs_reclaim s ∧
  mm_free_lock (deliver_freed freed s) = mm_free_lock s.
Proof.
  unfold deliver_freed. revert s.
  induction freed as [|m freed IH]; intros s; cbn [fold_left];
    [repeat split; reflexivity|].
  destruct (IH (simple_lmk_mm_freed m s)) as (-> & -> & -> & -> & ->).
  apply simple_lmk_mm_freed_frame.
Qed.

Lemma scan_and_kill_end_frame s :
  task_bucket (scan_and_kill_end s) = task_bucket s ∧
  victims (scan_and_kill_end s) = victims s ∧
  nr_victims (scan_and_kill_end s) = 0 ∧
  nr_killed (scan_and_kill_end s) = 0 ∧
  reclaim_done (scan_and_kill_end s) = 0 ∧
  needs_reclaim (scan_and_kill_end s) = needs_reclaim s ∧
  mm_free_lock (scan_and_kill_end s) = false.
Proof.
  unfold scan_and_kill_end. cbn [emit reclaim_done].
  destruct (0 <? reclaim_done s); repeat split; reflexivity.
Qed.

(** ** One reclaim cycle *)

Section Cycle.
Variable MIN_FREE_PAGES : Z.
Variables SIGNAL_GROUP_EXIT SIGNAL_GROUP_COREDUMP PF_EXITING : Z.

Local Abbreviation candidates' :=
  (candidates SIGNAL_GROUP_EXIT SIGNAL_GROUP_COREDUMP PF_EXITING).
Local Abbreviation find_victims' :=
  (find_victims MIN_FREE_PAGES SIGNAL_GROUP_EXIT SIGNAL_GROUP_COREDUMP PF_EXITING).
Local Abbreviation scan_and_kill_begin' :=
  (scan_and_kill_begin MIN_FREE_PAGES SIGNAL_GROUP_EXIT SIGNAL_GROUP_COREDUMP
     PF_EXITING).
Local Abbreviation scan_and_kill' :=
  (scan_and_kill MIN_FREE_PAGES SIGNAL_GROUP_EXIT SIGNAL_GROUP_COREDUMP
     PF_EXITING).
Local Abbreviation chosen' := (chosen MIN_FREE_PAGES).

Lemma candidates_nonneg ps : Forall (fun v => 0 <= size v) (candidates' ps).
Proof.
  unfold candidates.
  induction (filter _ ps) as [|t l IH]; cbn [omap list_omap]; [constructor|].
  unfold victim_of at 1. destruct (find_lock_task_mm t) as [[vtsk vmm]|]; [|exact IH].
  constructor; [|exact IH]. cbn. apply get_total_mm_pages_range.
Qed.

Lemma sum_sizes_nonneg vs :
  Forall (fun v => 0 <= size v) vs → 0 <= sum_sizes vs.
Proof. unfold sum_sizes. induction 1; cbn; lia. Qed.


Lemma chosen_Forall (P : victim_info → Prop) pages_found vs :
  Forall P vs → Forall P (chosen' pages_found vs).
Proof.
  intros H. rewrite chosen_prefix. apply Forall_take. exact H.
Qed.


(** What the first half of [scan_and_kill] does after the scan. *)
Lemma scan_and_kill_begin_spec ps s nr_found pages_found s1 :
  find_victims' ps 0 s = Some (nr_found, pages_found, s1) →
  0 <= nr_found <= Z.of_nat (length (victims s1)) →
  let found := take (Z.to_nat nr_found) (victims s1) in
  ∃ r,
    scan_and_kill_begin' ps s = Some r ∧
    (nr_found = 0 → r = no_victims (emit [pr_err_no_processes] s1)) ∧
    (nr_found ≠ 0 → ∃ s2 pre,
       r = awaiting s2 ∧
       selected r =
         (if pages_found >? MIN_FREE_PAGES
          then chosen' 0 (sort victim_cmp (chosen' 0 found))
          else found) ∧
       trace s2 = trace s1 ++ pre ++ flat_map kill_victim (selected r) ∧
       signalled pre = [] ∧ wakeups pre = 0%nat ∧
       0 <= nr_victims s2 <= nr_found ∧
       Z.of_nat (length (selected r)) = nr_victims s2 ∧
       victims s2 ≡ₚ victims s1 ∧
       task_bucket s2 = task_bucket s1 ∧
       nr_killed s2 = nr_killed s1 ∧
       needs_reclaim s2 = needs_reclaim s1 ∧
       reclaim_done s2 = reclaim_done s1 ∧
       mm_free_lock s2 = false).
Proof.
  intros Hfv Hnr found. unfold scan_and_kill_begin. rewrite Hfv.
  cbn [mbind option_bind].
  destruct (nr_found =? 0) eqn:E0; [apply Z.eqb_eq in E0|apply Z.eqb_neq in E0].
  { eexists. split; [reflexivity|]. split; [reflexivity|]. intros; contradiction. }
  destruct (pages_found >? MIN_FREE_PAGES) eqn:Epf.
  - rewrite process_victims_spec. fold found.
    set (c1 := chosen' 0 found).
    assert (Hc1 : (length c1 ≤ length found)%nat) by apply chosen_length.
    assert (Hlf : length found = Z.to_nat nr_found)
      by (unfold found; rewrite length_take; lia).
    cbn [victims emit set_victims].
    rewrite process_victims_spec. cbn [victims emit set_victims].
    rewrite !Nat2Z.id.
    assert (Hl1 : take (length c1) (sort_victims 0 (Z.of_nat (length c1)) (victims s1))
                  = sort victim_cmp c1).
    { pose proof (sort_victims_slice 0 (Z.of_nat (length c1)) (victims s1)) as Hs.
      rewrite Z.sub_0_r, Nat2Z.id in Hs. change (Z.to_nat 0) with 0%nat in Hs.
      rewrite !drop_0 in Hs. rewrite Hs by lia. f_equal. unfold c1. rewrite (chosen_prefix _ 0 found) at 2.
      unfold found. rewrite take_take. f_equal. fold found c1. lia. }
    rewrite !Hl1.
    set (l1 := sort victim_cmp c1). set (c2 := chosen' 0 l1).
    assert (Hc2 : (length c2 ≤ length l1)%nat) by apply chosen_length.
    assert (Hll1 : length l1 = length c1) by apply sort_length.
    eexists. split; [reflexivity|]. split; [intros; contradiction|]. intros _.
    eexists _, (unlock_events (drop (length c1) found)
                ++ unlock_events (drop (length c2) l1) ++ [write_lock; write_unlock]).
    split; [reflexivity|].
    assert (Hsel : take (length c2)
                     (sort_victims 0 (Z.of_nat (length c1)) (victims s1)) = c2).
    { transitivity (take (length c2) (take (length c1)
                      (sort_victims 0 (Z.of_nat (length c1)) (victims s1)))).
      - rewrite take_take. f_equal. lia.
      - rewrite Hl1. symmetry. apply chosen_prefix. }
    rewrite kill_loop_spec.
    cbn [selected victims nr_victims emit set_victims publish_victims
         set_nr_victims set_mm_free_lock].
    rewrite !Nat2Z.id, !Hsel.
    unfold publish_victims.
    cbn [trace victims nr_victims emit set_victims set_nr_victims set_mm_free_lock
         task_bucket nr_killed needs_reclaim reclaim_done mm_free_lock].
    split; [reflexivity|].
    split; [rewrite <- !app_assoc; reflexivity|].
    split; [rewrite !signalled_app, !signalled_unlock; reflexivity|].
    split; [rewrite !wakeups_app, !wakeups_unlock; reflexivity|].
    split; [lia|]. split; [reflexivity|].
    split; [apply sort_victims_Permutation|].
    repeat split; reflexivity.
  - eexists. split; [reflexivity|]. split; [intros; contradiction|]. intros _.
    eexists _, [write_lock; write_unlock].
    split; [reflexivity|].
    cbn [selected victims nr_victims emit set_victims publish_victims
         set_nr_victims set_mm_free_lock].
    rewrite kill_loop_spec.
    unfold publish_victims.
    cbn [trace victims nr_victims emit set_victims set_nr_victims set_mm_free_lock
         task_bucket nr_killed needs_reclaim reclaim_done mm_free_lock].
    fold found.
    split; [reflexivity|].
    split; [rewrite <- !app_assoc; reflexivity|].
    split; [reflexivity|]. split; [reflexivity|].
    split; [lia|].
    split; [unfold found; rewrite length_take; lia|].
    repeat split; reflexivity.
Qed.

Lemma signalled_Permutation_nil (l l' : list event) :
  l ≡ₚ l' → signalled l' = [] → signalled l = [].
Proof.
  intros Hp Hn. apply Permutation_nil. rewrite <- Hn. unfold signalled.
  rewrite Hp. reflexivity.
Qed.


(** C6. A reclaim cycle started with empty buckets ends with empty
    buckets, whatever the process list and however the scan stopped:
    the buckets are already all empty when [find_victims] returns, and
    nothing after it touches them.  (The table keeps its size, so the
    next cycle starts from a well-formed state again.) *)
Theorem buckets_empty_after_cycle (ps : list task_struct) (freed : list Z)
    (s : state) :
  Z.of_nat (length (victims s)) = MAX_VICTIMS →
  task_bucket s = ∅ →
  (∃ nr_found pages_found s1,
     find_victims' ps 0 s = Some (nr_found, pages_found, s1) ∧
     task_bucket s1 = ∅) ∧
  ∃ s', scan_and_kill' ps freed s = Some s' ∧
        task_bucket s' = ∅ ∧
        Z.of_nat (length (victims s')) = MAX_VICTIMS.
Proof.
  intros Hlen Hemp.
  destruct (find_victims_spec MIN_FREE_PAGES SIGNAL_GROUP_EXIT
              SIGNAL_GROUP_COREDUMP PF_EXITING ps s Hlen Hemp)
    as (nr & pf & tbl & locks & rest & Hfv & Hnr & Hl & _).
  set (s1 := emit locks (set_victims tbl s)) in *.
  split; [exists nr, pf, s1; split; [exact Hfv|exact Hemp]|].
  destruct (scan_and_kill_begin_spec ps s nr pf s1 Hfv) as (r & Hr & Hr0 & Hr1).
  { cbn. lia. }
  unfold scan_and_kill. rewrite Hr. cbn [mbind option_bind].
  destruct (decide (nr = 0)) as [Hz|Hnz].
  - rewrite (Hr0 Hz). eexists. split; [reflexivity|].
    cbn. split; [exact Hemp|lia].
  - destruct (Hr1 Hnz) as (s2 & pre & -> & _ & _ & _ & _ & _ & _ & Hperm & Htb & _).
    eexists. split; [reflexivity|].
    destruct (deliver_freed_frame freed s2) as (Hb & Hlv & _).
    destruct (scan_and_kill_end_frame (deliver_freed freed s2)) as (-> & -> & _).
    rewrite Hb, Htb, Hlv.
    split; [exact Hemp|]. rewrite (Permutation_length Hperm). cbn. lia.
Qed.

(** C8. When the scan finds no victim, [scan_and_kill] returns right
    after the error line: the final state is the initial one with that
    one line added to the trace.  So no kill signal is sent, the write
    lock is never taken (no count is published), there is no wait, and
    the table and the counters are what they were. *)
Theorem no_victims_aborts (ps : list task_struct) (freed : list Z) (s : state)
    (pages_found : Z) (s1 : state) :
  Z.of_nat (length (victims s)) = MAX_VICTIMS →
  task_bucket s = ∅ →
  find_victims' ps 0 s = Some (0, pages_found, s1) →
  scan_and_kill' ps freed s = Some (emit [pr_err_no_processes] s) ∧
  scan_and_kill_begin' ps s = Some (no_victims (emit [pr_err_no_processes] s)) ∧
  s1 = s ∧
  signalled (trace (emit [pr_err_no_processes] s)) = signalled (trace s) ∧
  (write_lock ∉ [pr_err_no_processes]) ∧
  (wait_for_completion_timeout ∉ [pr_err_no_processes]).
Proof.
  intros Hlen Hemp Hfv0.
  destruct (find_victims_spec MIN_FREE_PAGES SIGNAL_GROUP_EXIT
              SIGNAL_GROUP_COREDUMP PF_EXITING ps s Hlen Hemp)
    as (nr & pf & tbl & locks & rest & Hfv & Hnr & Hl & Hdr & Hcs & Hst & Hpf & Hlk).
  rewrite Hfv0 in Hfv. injection Hfv as <- <- ->.
  change (Z.to_nat 0) with 0%nat in Hdr, Hlk.
  rewrite !drop_0 in Hdr. subst tbl.
  rewrite take_0 in Hlk. cbn [lock_events map] in Hlk.
  symmetry in Hlk. apply Permutation_nil in Hlk. subst locks.
  assert (Hs1 : emit [] (set_victims (victims s) s) = s)
    by (rewrite set_victims_id; apply emit_nil).
  rewrite Hs1 in Hfv0.
  assert (Hb : scan_and_kill_begin' ps s
               = Some (no_victims (emit [pr_err_no_processes] s))).
  { unfold scan_and_kill_begin. rewrite Hfv0. reflexivity. }
  split; [unfold scan_and_kill; rewrite Hb; reflexivity|].
  split; [exact Hb|]. split; [exact Hs1|].
  split; [cbn; rewrite signalled_app; apply app_nil_r|].
  split; intros Hin; apply list_elem_of_singleton in Hin; discriminate.
Qed.

End Cycle.


(** ** The confirmation window *)

Lemma to_int_small z : - 2 ^ 31 <= z < 2 ^ 31 → to_int z = z.
Proof.
  intros H. unfold to_int. rewrite Z.mod_small by lia. lia.
Qed.

(** The loop of [simple_lmk_mm_freed] either finds no entry and changes
    nothing, or confirms the first entry that matches. *)
Lemma mm_freed_loop_cases n i m s :
  (mm_freed_loop n i m s = s ∧
   Some m ∉ map mm (take n (drop i (victims s))))
  ∨ (∃ j v, (i ≤ j < i + n)%nat ∧ victims s !! j = Some v ∧ mm v = Some m ∧
            mm_freed_loop n i m s = confirm j v s).
Proof.
  revert i. induction n as [|n IH]; intros i; cbn [mm_freed_loop].
  - left. split; [reflexivity|]. rewrite take_0. cbn. apply not_elem_of_nil.
  - destruct (victims s !! i) as [v|] eqn:Hi.
    + case_decide as Hm.
      * right. exists i, v. split; [lia|]. split; [exact Hi|]. split; [exact Hm|].
        reflexivity.
      * destruct (IH (S i)) as [[Heq Hnot]|(j & w & Hj & Hw & Hmw & Heq)].
        -- left. split; [exact Heq|].
           rewrite (drop_S _ _ _ Hi). cbn [take map].
           rewrite not_elem_of_cons. split; [congruence|exact Hnot].
        -- right. exists j, w. split; [lia|]. repeat split; assumption.
    + left. split; [reflexivity|].
      rewrite drop_ge by (apply lookup_ge_None_1; exact Hi).
      rewrite take_nil. cbn. apply not_elem_of_nil.
Qed.

Lemma filter_has_mm_clear (l : list victim_info) j v :
  l !! j = Some v → has_mm v = true →
  (length (filter (fun v => has_mm v = true) (<[j := clear_mm v]> l)) + 1)%nat
  = length (filter (fun v => has_mm v = true) l).
Proof.
  revert j. induction l as [|w l IH]; intros j Hj Hv; [discriminate|].
  destruct j as [|j]; cbn in Hj.
  - injection Hj as ->. cbn [insert list_insert].
    rewrite filter_cons_False by (cbn; discriminate).
    rewrite filter_cons_True by exact Hv. cbn. lia.
  - cbn [insert list_insert].
    destruct (decide (has_mm w = true)) as [Hw|Hw].
    + rewrite !filter_cons_True by exact Hw. cbn [length].
      cbn [Nat.add]. f_equal. exact (IH j Hj Hv).
    + rewrite !filter_cons_False by exact Hw. apply IH; assumption.
Qed.

Lemma confirm_step j v m s :
  window_inv s →
  (j < Z.to_nat (nr_victims s))%nat → victims s !! j = Some v → mm v = Some m →
  nr_killed (confirm j v s) = nr_killed s + 1 ∧
  nr_victims (confirm j v s) = nr_victims s ∧
  pending (confirm j v s) = pending s - 1 ∧
  window_inv (confirm j v s).
Proof.
  intros (H0 & Hle & Hnv & Hmax) Hj Hv Hm.
  assert (Hhas : has_mm v = true) by (unfold has_mm; rewrite Hm; reflexivity).
  assert (Hpub : published s !! j = Some v).
  { unfold published. rewrite lookup_take_lt by exact Hj. exact Hv. }
  assert (Hpend : pending s >= 1).
  { unfold pending.
    pose proof (filter_has_mm_clear (published s) j v Hpub Hhas). lia. }
  assert (Hk : to_int (nr_killed s + 1) = nr_killed s + 1).
  { apply to_int_small. unfold MAX_VICTIMS in Hmax. lia. }
  assert (Hpend' : Z.of_nat (length (filter (fun v => has_mm v = true)
             (take (Z.to_nat (nr_victims s)) (<[j:=clear_mm v]> (victims s)))))
           = pending s - 1).
  { rewrite take_insert_lt by exact Hj. unfold pending.
    pose proof (filter_has_mm_clear (published s) j v Hpub Hhas) as Hf.
    unfold published in *. lia. }
  unfold confirm. cbn [nr_killed nr_victims set_victims set_nr_killed].
  rewrite Hk.
  destruct (nr_killed s + 1 =? nr_victims s);
    unfold window_inv, pending, published;
    cbn [nr_killed nr_victims victims set_victims set_nr_killed
         set_reclaim_done emit];
    rewrite Hpend', length_insert; repeat split; lia.
Qed.

(** One notification: the counter goes up by one when the address
    space is that of a pending victim (and the lock is free), and the
    state does not change at all otherwise. *)
Lemma simple_lmk_mm_freed_step m s :
  window_inv s →
  let s' := simple_lmk_mm_freed m s in
  window_inv s' ∧ nr_victims s' = nr_victims s ∧
  (mm_free_lock s = false → Some m ∈ map mm (published s) →
     nr_killed s' = nr_killed s + 1 ∧ pending s' = pending s - 1) ∧
  (mm_free_lock s = true ∨ Some m ∉ map mm (published s) → s' = s).
Proof.
  intros Hinv. cbn zeta. unfold simple_lmk_mm_freed.
  destruct (mm_free_lock s) eqn:Hlock.
  { split; [exact Hinv|]. split; [reflexivity|]. split; [discriminate|reflexivity]. }
  destruct (mm_freed_loop_cases (Z.to_nat (nr_victims s)) 0 m s)
    as [[Heq Hnot]|(j & v & Hj & Hv & Hm & Heq)]; rewrite Heq.
  - rewrite drop_0 in Hnot. split; [exact Hinv|]. split; [reflexivity|].
    split; [intros _ Hin; contradiction|reflexivity].
  - destruct (confirm_step j v m s Hinv) as (Hk & Hn & Hp & Hinv');
      [lia|exact Hv|exact Hm|].
    split; [exact Hinv'|]. split; [exact Hn|]. split; [intros _ _; split; assumption|].
    intros [Hcontra|Hnot]; [discriminate|]. exfalso. apply Hnot.
    apply list_elem_of_fmap. exists v. split; [symmetry; exact Hm|].
    apply list_elem_of_lookup. exists j. unfold published.
    rewrite lookup_take_lt by lia. exact Hv.
Qed.

Lemma simple_lmk_mm_freed_mono m s :
  window_inv s →
  nr_killed s <= nr_killed (simple_lmk_mm_freed m s) <= nr_killed s + 1.
Proof.
  intros Hinv.
  destruct (simple_lmk_mm_freed_step m s Hinv) as (_ & _ & Hyes & Hno).
  destruct (mm_free_lock s) eqn:Hlock; [rewrite Hno by (left; reflexivity); lia|].
  destruct (decide (Some m ∈ map mm (published s))) as [Hin|Hnin].
  - destruct (Hyes eq_refl Hin) as [-> _]. lia.
  - rewrite Hno by (right; exact Hnin). lia.
Qed.

Lemma deliver_freed_inv ms s :
  window_inv s →
  window_inv (deliver_freed ms s) ∧
  nr_victims (deliver_freed ms s) = nr_victims s ∧
  nr_killed s <= nr_killed (deliver_freed ms s).
Proof.
  unfold deliver_freed. revert s.
  induction ms as [|m ms IH]; intros s Hinv; cbn [fold_left].
  - split; [exact Hinv|]. split; [reflexivity|lia].
  - destruct (simple_lmk_mm_freed_step m s Hinv) as (Hinv' & Hn & _).
    cbn zeta in Hinv', Hn.
    destruct (IH _ Hinv') as (Hinv'' & Hn' & Hk').
    pose proof (simple_lmk_mm_freed_mono m s Hinv).
    split; [exact Hinv''|]. split; [congruence|lia].
Qed.

Lemma window_inv_bound s : window_inv s → 0 <= nr_killed s <= nr_victims s.
Proof.
  intros (H0 & Hle & _). unfold pending in Hle. lia.
Qed.

Lemma deliver_freed_app ms1 ms2 s :
  deliver_freed (ms1 ++ ms2) s = deliver_freed ms2 (deliver_freed ms1 s).
Proof. unfold deliver_freed. apply fold_left_app. Qed.

Lemma wakeups_confirm j v s :
  wakeups (trace (confirm j v s)) = wakeups (trace s).
Proof.
  unfold confirm. cbn [nr_killed nr_victims set_victims set_nr_killed].
  destruct (_ =? _);
    cbn [trace emit set_reclaim_done set_nr_killed set_victims]; [|reflexivity].
  rewrite wakeups_app. change (wakeups [complete]) with 0%nat. lia.
Qed.

Lemma wakeups_mm_freed m s :
  wakeups (trace (simple_lmk_mm_freed m s)) = wakeups (trace s).
Proof.
  unfold simple_lmk_mm_freed. destruct (mm_free_lock s); [reflexivity|].
  destruct (mm_freed_loop_cases (Z.to_nat (nr_victims s)) 0 m s)
    as [[-> _]|(j & v & _ & _ & _ & ->)]; [reflexivity|apply wakeups_confirm].
Qed.

Lemma wakeups_deliver_freed ms s :
  wakeups (trace (deliver_freed ms s)) = wakeups (trace s).
Proof.
  unfold deliver_freed. revert s.
  induction ms as [|m ms IH]; intros s; cbn [fold_left]; [reflexivity|].
  rewrite IH. apply wakeups_mm_freed.
Qed.

Lemma wakeups_scan_and_kill_end s :
  wakeups (trace (scan_and_kill_end s)) = wakeups (trace s).
Proof.
  unfold scan_and_kill_end. cbn [emit reclaim_done].
  destruct (0 <? reclaim_done s);
    cbn [trace emit set_reclaim_done set_nr_killed set_victims set_nr_victims
         set_mm_free_lock];
    rewrite !wakeups_app;
    change (wakeups [wait_for_completion_timeout]) with 0%nat;
    change (wakeups [pr_info_timeout]) with 0%nat;
    change (wakeups [write_lock]) with 0%nat;
    change (wakeups [write_unlock]) with 0%nat; lia.
Qed.

Section Window.
Variable MIN_FREE_PAGES : Z.
Variables SIGNAL_GROUP_EXIT SIGNAL_GROUP_COREDUMP PF_EXITING : Z.

Local Abbreviation find_victims' :=
  (find_victims MIN_FREE_PAGES SIGNAL_GROUP_EXIT SIGNAL_GROUP_COREDUMP PF_EXITING).
Local Abbreviation scan_and_kill_begin' :=
  (scan_and_kill_begin MIN_FREE_PAGES SIGNAL_GROUP_EXIT SIGNAL_GROUP_COREDUMP
     PF_EXITING).
Local Abbreviation scan_and_kill' :=
  (scan_and_kill MIN_FREE_PAGES SIGNAL_GROUP_EXIT SIGNAL_GROUP_COREDUMP
     PF_EXITING).

(** The first half of a cycle, from a well-formed state. *)
Lemma scan_and_kill_begin_total ps s :
  Z.of_nat (length (victims s)) = MAX_VICTIMS →
  task_bucket s = ∅ →
  ∃ r, scan_and_kill_begin' ps s = Some r ∧
       Z.of_nat (length (victims (outcome_state r))) = MAX_VICTIMS ∧
       task_bucket (outcome_state r) = ∅ ∧
       needs_reclaim (outcome_state r) = needs_reclaim s ∧
       nr_killed (outcome_state r) = nr_killed s ∧
       wakeups (trace (outcome_state r)) = wakeups (trace s) ∧
       match r with
       | no_victims s' => s' = emit [pr_err_no_processes] s
       | awaiting s2 =>
           0 <= nr_victims s2 <= MAX_VICTIMS ∧ mm_free_lock s2 = false
       end.
Proof.
  intros Hlen Hemp.
  destruct (find_victims_spec MIN_FREE_PAGES SIGNAL_GROUP_EXIT
              SIGNAL_GROUP_COREDUMP PF_EXITING ps s Hlen Hemp)
    as (nr & pf & tbl & locks & rest & Hfv & Hnr & Hl & Hdr & Hcs & Hst & Hpf & Hlk).
  set (s1 := emit locks (set_victims tbl s)) in *.
  assert (Hw1 : wakeups (trace s1) = wakeups (trace s)).
  { unfold s1. cbn [trace emit set_victims].
    rewrite wakeups_app, (wakeups_Permutation _ _ Hlk), wakeups_lock.
    lia. }
  destruct (scan_and_kill_begin_spec MIN_FREE_PAGES SIGNAL_GROUP_EXIT
              SIGNAL_GROUP_COREDUMP PF_EXITING ps s nr pf s1 Hfv)
    as (r & Hr & Hr0 & Hr1).
  { cbn. lia. }
  exists r. split; [exact Hr|].
  destruct (decide (nr = 0)) as [Hz|Hnz].
  - rewrite (Hr0 Hz). cbn [outcome_state].
    assert (Hs1 : s1 = s).
    { unfold s1. subst nr. change (Z.to_nat 0) with 0%nat in Hdr, Hlk.
      rewrite !drop_0 in Hdr. rewrite take_0 in Hlk. cbn in Hlk.
      symmetry in Hlk. apply Permutation_nil in Hlk. rewrite Hlk, Hdr.
      rewrite set_victims_id. apply emit_nil. }
    rewrite Hs1. cbn [victims task_bucket needs_reclaim nr_killed trace emit].
    rewrite wakeups_app. change (wakeups [pr_err_no_processes]) with 0%nat.
    repeat split; try assumption; try reflexivity; lia.
  - destruct (Hr1 Hnz)
      as (s2 & pre & -> & _ & Htr & _ & Hwp & Hnv & _ & Hperm & Htb & Hnk & Hnr' & _ & Hlock).
    cbn [outcome_state].
    split; [rewrite (Permutation_length Hperm); cbn; lia|].
    split; [rewrite Htb; exact Hemp|].
    split; [exact Hnr'|]. split; [exact Hnk|].
    split; [rewrite Htr, !wakeups_app, Hwp, wakeups_kill, Hw1; lia|].
    split; [lia|exact Hlock].
Qed.

(** A whole cycle, from a well-formed state. *)
Lemma scan_and_kill_total ps freed s :
  Z.of_nat (length (victims s)) = MAX_VICTIMS →
  task_bucket s = ∅ →
  ∃ s', scan_and_kill' ps freed s = Some s' ∧
        Z.of_nat (length (victims s')) = MAX_VICTIMS ∧
        task_bucket s' = ∅ ∧
        needs_reclaim s' = needs_reclaim s ∧
        wakeups (trace s') = wakeups (trace s).
Proof.
  intros Hlen Hemp.
  destruct (scan_and_kill_begin_total ps s Hlen Hemp)
    as (r & Hr & Hl & Hb & Hn & _ & Hw & Hcase).
  unfold scan_and_kill. rewrite Hr. cbn [mbind option_bind].
  destruct r as [s'|s2]; cbn [outcome_state] in *.
  - exists s'. repeat split; assumption.
  - eexists. split; [reflexivity|].
    destruct (deliver_freed_frame freed s2) as (Hb' & Hl' & _ & Hn' & _).
    destruct (scan_and_kill_end_frame (deliver_freed freed s2))
      as (-> & -> & _ & _ & _ & -> & _).
    rewrite wakeups_scan_and_kill_end, wakeups_deliver_freed.
    rewrite Hb', Hl', Hn'. repeat split; assumption.
Qed.

(** C5. In a cycle that publishes a victim count (the counter being 0
    at its start, as every cycle leaves it): the counter is 0 when the
    count is published; each notification leaves the published count
    alone; a notification for the address space of a pending victim
    raises the counter by exactly one, any other leaves the state as it
    is; so along any sequence of notifications the counter never
    decreases and never exceeds the published count.  The clean-up puts
    both back to 0. *)
Theorem confirmations_bounded (ps : list task_struct) (s s2 : state)
    (ms1 ms2 : list Z) (m : Z) :
  Z.of_nat (length (victims s)) = MAX_VICTIMS →
  task_bucket s = ∅ →
  nr_killed s = 0 →
  scan_and_kill_begin' ps s = Some (awaiting s2) →
  let a := deliver_freed ms1 s2 in
  let b := deliver_freed ms2 a in
  nr_killed s2 = 0 ∧
  nr_victims a = nr_victims s2 ∧ nr_victims b = nr_victims s2 ∧
  0 <= nr_killed a ∧ nr_killed a <= nr_killed b ∧ nr_killed b <= nr_victims s2 ∧
  (Some m ∈ map mm (published a) →
     nr_killed (simple_lmk_mm_freed m a) = nr_killed a + 1) ∧
  (Some m ∉ map mm (published a) → simple_lmk_mm_freed m a = a) ∧
  nr_killed (scan_and_kill_end b) = 0 ∧ nr_victims (scan_and_kill_end b) = 0.
Proof.
  intros Hlen Hemp Hk0 Hbegin a b.
  destruct (scan_and_kill_begin_total ps s Hlen Hemp)
    as (r & Hr & Hl & Hb & Hn & Hnk & Hw & Hcase).
  rewrite Hbegin in Hr. injection Hr as <-. cbn [outcome_state] in *.
  destruct Hcase as [Hnv Hlock].
  assert (Hinv : window_inv s2).
  { unfold window_inv. rewrite Hnk, Hk0, Hl.
    split; [lia|]. split; [|split; [lia|lia]].
    unfold pending, published.
    pose proof (length_filter (fun v => has_mm v = true)
                  (take (Z.to_nat (nr_victims s2)) (victims s2))) as Hf.
    rewrite length_take in Hf. lia. }
  destruct (deliver_freed_inv ms1 s2 Hinv) as (Hinva & Hna & Hka).
  destruct (deliver_freed_inv ms2 a Hinva) as (Hinvb & Hnb & Hkb).
  fold a in Hinva, Hna, Hka. fold b in Hinvb, Hnb, Hkb.
  pose proof (window_inv_bound b Hinvb) as Hbb.
  destruct (deliver_freed_frame ms1 s2) as (_ & _ & _ & _ & Hlocka).
  fold a in Hlocka. rewrite Hlock in Hlocka.
  destruct (simple_lmk_mm_freed_step m a Hinva) as (_ & _ & Hyes & Hno).
  destruct (scan_and_kill_end_frame b) as (_ & _ & Hev & Hek & _).
  split; [congruence|]. split; [exact Hna|]. split; [congruence|].
  split; [lia|]. split; [exact Hkb|]. split; [lia|].
  split; [intros Hin; apply (Hyes Hlocka Hin)|].
  split; [intros Hnin; apply Hno; right; exact Hnin|].
  split; assumption.
Qed.

End Window.

(** ** Requests and the worker *)

Lemma simple_lmk_trigger_pending s :
  needs_reclaim s ≠ 0 → simple_lmk_trigger s = s.
Proof.
  intros H. unfold simple_lmk_trigger.
  apply Z.eqb_neq in H. rewrite H. reflexivity.
Qed.

Lemma simple_lmk_trigger_idle s :
  needs_reclaim s = 0 →
  simple_lmk_trigger s = emit [wake_up] (set_needs_reclaim 1 s).
Proof.
  intros H. unfold simple_lmk_trigger. rewrite H. reflexivity.
Qed.

Lemma simple_lmk_trigger_repeat n s :
  needs_reclaim s = 0 →
  Nat.iter (S n) simple_lmk_trigger s = emit [wake_up] (set_needs_reclaim 1 s).
Proof.
  intros H. induction n as [|n IH].
  - apply simple_lmk_trigger_idle. exact H.
  - change (Nat.iter (S (S n)) simple_lmk_trigger s)
      with (simple_lmk_trigger (Nat.iter (S n) simple_lmk_trigger s)).
    rewrite IH. apply simple_lmk_trigger_pending. cbn. discriminate.
Qed.

Section Worker.
Variable MIN_FREE_PAGES : Z.
Variables SIGNAL_GROUP_EXIT SIGNAL_GROUP_COREDUMP PF_EXITING : Z.

Local Abbreviation step' :=
  (step MIN_FREE_PAGES SIGNAL_GROUP_EXIT SIGNAL_GROUP_COREDUMP PF_EXITING).
Local Abbreviation run' :=
  (run MIN_FREE_PAGES SIGNAL_GROUP_EXIT SIGNAL_GROUP_COREDUMP PF_EXITING).

Lemma run_app sched1 sched2 y :
  run' (sched1 ++ sched2) y = y' ← run' sched1 y; run' sched2 y'.
Proof.
  revert y. induction sched1 as [|a sched1 IH]; intros y; cbn [run app];
    [reflexivity|].
  destruct (step' a y) as [y1|]; cbn [mbind option_bind]; [apply IH|reflexivity].
Qed.

Lemma run_triggers n y :
  run' (replicate n a_trigger) y =
    Some {| pc := pc y; cycles := cycles y;
            statics := Nat.iter n simple_lmk_trigger (statics y) |}.
Proof.
  revert y. induction n as [|n IH]; intros y; cbn [replicate run].
  - destruct y; reflexivity.
  - cbn [step mbind option_bind]. rewrite IH. cbn [pc cycles statics].
    do 2 f_equal. symmetry. apply Nat.iter_succ_r.
Qed.

Lemma step_inv a y :
  system_inv y →
  ∃ y', step' a y = Some y' ∧ system_inv y' ∧
        Z.of_nat (wakeups (trace (statics y'))) - Z.of_nat (cycles y') - request_pending y'
        = Z.of_nat (wakeups (trace (statics y))) - Z.of_nat (cycles y) - request_pending y.
Proof.
  intros Hinv. pose proof Hinv as (Hlen & Hemp & Hpc).
  destruct a as [|ps freed|]; cbn [step].
  - (* a request *)
    eexists. split; [reflexivity|].
    unfold system_inv, request_pending. cbn [pc cycles statics].
    destruct (decide (needs_reclaim (statics y) = 0)) as [Hz|Hnz].
    + rewrite (simple_lmk_trigger_idle _ Hz).
      cbn [victims task_bucket needs_reclaim trace emit set_needs_reclaim].
      rewrite wakeups_app, Hz. change (wakeups [wake_up]) with 1%nat.
      split; [repeat split; [assumption..|discriminate]|].
      destruct (pc y) eqn:Epc; [cbn; lia|].
      exfalso. apply Hpc; [reflexivity|exact Hz].
    + rewrite (simple_lmk_trigger_pending _ Hnz).
      split; [exact Hinv|reflexivity].
  - (* the worker leaves the wait and runs a cycle *)
    destruct (pc y) eqn:Epc.
    + destruct (needs_reclaim (statics y) =? 0) eqn:Ez.
      * exists y. split; [reflexivity|]. split; [exact Hinv|reflexivity].
      * apply Z.eqb_neq in Ez.
        destruct (scan_and_kill_total MIN_FREE_PAGES SIGNAL_GROUP_EXIT
                    SIGNAL_GROUP_COREDUMP PF_EXITING ps freed (statics y) Hlen Hemp)
          as (s' & Hrun & Hl' & Hb' & Hn' & Hw').
        rewrite Hrun. cbn [mbind option_bind].
        eexists. split; [reflexivity|].
        unfold system_inv, request_pending. cbn [pc cycles statics].
        rewrite Epc, Hw'. apply Z.eqb_neq in Ez. rewrite Ez.
        apply Z.eqb_neq in Ez.
        split; [repeat split; [assumption..|congruence]|lia].
    + exists y. split; [reflexivity|]. split; [exact Hinv|reflexivity].
  - (* the worker clears the flag *)
    destruct (pc y) eqn:Epc.
    + exists y. split; [reflexivity|]. split; [exact Hinv|reflexivity].
    + eexists. split; [reflexivity|].
      unfold system_inv, request_pending. cbn [pc cycles statics].
      rewrite Epc. cbn [needs_reclaim victims task_bucket trace set_needs_reclaim].
      change (0 =? 0) with true. cbn iota.
      split; [repeat split; [assumption..|discriminate]|lia].
Qed.

Lemma run_inv sched y :
  system_inv y →
  ∃ y', run' sched y = Some y' ∧ system_inv y' ∧
        Z.of_nat (wakeups (trace (statics y'))) - Z.of_nat (cycles y') - request_pending y'
        = Z.of_nat (wakeups (trace (statics y))) - Z.of_nat (cycles y) - request_pending y.
Proof.
  revert y. induction sched as [|a sched IH]; intros y Hinv; cbn [run].
  - exists y. split; [reflexivity|]. split; [exact Hinv|reflexivity].
  - destruct (step_inv a y Hinv) as (y1 & Hstep & Hinv1 & Heq1).
    rewrite Hstep. cbn [mbind option_bind].
    destruct (IH y1 Hinv1) as (y' & Hrun & Hinv' & Heq').
    exists y'. split; [exact Hrun|]. split; [exact Hinv'|lia].
Qed.

Lemma simple_lmk_trigger_pending_iter k s :
  needs_reclaim s ≠ 0 → Nat.iter k simple_lmk_trigger s = s.
Proof.
  intros H. induction k as [|k IH]; [reflexivity|].
  change (Nat.iter (S k) simple_lmk_trigger s)
    with (simple_lmk_trigger (Nat.iter k simple_lmk_trigger s)).
  rewrite IH. apply simple_lmk_trigger_pending. exact H.
Qed.

(** C7. A request that finds [needs_reclaim] set changes nothing; one
    that finds it clear sets it and calls [wake_up] once; any number of
    requests in a row from the idle state leave the state one request
    leaves, with a single [wake_up].  With the worker: after one or
    more requests the worker runs one cycle; requests that come in
    while it runs change nothing; once it has cleared the flag it goes
    back to sleep, so exactly one cycle is run.  In any interleaving of
    requests and worker steps, the number of cycles run is the number
    of [wake_up] calls, less one when a request is still waiting to be
    served. *)
Theorem trigger_coalesces (n k : nat) (ps ps' : list task_struct)
    (freed freed' : list Z) (y : system) :
  system_inv y →
  pc y = in_wait_event →
  needs_reclaim (statics y) = 0 →
  (∀ s, needs_reclaim s ≠ 0 → simple_lmk_trigger s = s) ∧
  simple_lmk_trigger (statics y)
    = emit [wake_up] (set_needs_reclaim 1 (statics y)) ∧
  Nat.iter (S n) simple_lmk_trigger (statics y)
    = emit [wake_up] (set_needs_reclaim 1 (statics y)) ∧
  (∃ y',
     run' (replicate (S n) a_trigger ++ a_worker_run ps freed
           :: replicate k a_trigger
           ++ [a_worker_clear; a_worker_run ps' freed']) y = Some y' ∧
     cycles y' = S (cycles y) ∧
     pc y' = in_wait_event ∧
     needs_reclaim (statics y') = 0 ∧
     wakeups (trace (statics y')) = S (wakeups (trace (statics y)))) ∧
  (∀ sched, ∃ y',
     run' sched y = Some y' ∧
     Z.of_nat (cycles y') - Z.of_nat (cycles y)
     = Z.of_nat (wakeups (trace (statics y')))
       - Z.of_nat (wakeups (trace (statics y))) - request_pending y').
Proof.
  intros Hinv Hpc Hz. pose proof Hinv as (Hlen & Hemp & _).
  split; [exact simple_lmk_trigger_pending|].
  split; [apply simple_lmk_trigger_idle; exact Hz|].
  split; [apply simple_lmk_trigger_repeat; exact Hz|].
  split.
  - rewrite run_app, run_triggers. cbn [mbind option_bind].
    rewrite (simple_lmk_trigger_repeat n _ Hz).
    set (s1 := emit [wake_up] (set_needs_reclaim 1 (statics y))).
    cbn [run step pc statics cycles]. rewrite Hpc.
    change (needs_reclaim s1 =? 0) with false. cbn iota.
    destruct (scan_and_kill_total MIN_FREE_PAGES SIGNAL_GROUP_EXIT
                SIGNAL_GROUP_COREDUMP PF_EXITING ps freed s1)
      as (s' & Hrun & Hl' & Hb' & Hn' & Hw'); [exact Hlen|exact Hemp|].
    rewrite Hrun. cbn [mbind option_bind].
    rewrite run_app, run_triggers. cbn [mbind option_bind pc cycles statics].
    rewrite simple_lmk_trigger_pending_iter
      by (rewrite Hn'; cbn; discriminate).
    cbn [run step pc statics cycles mbind option_bind needs_reclaim
         set_needs_reclaim].
    change (0 =? 0) with true. cbn iota.
    eexists. split; [reflexivity|]. cbn [pc cycles statics].
    split; [reflexivity|]. split; [reflexivity|]. split; [reflexivity|].
    cbn [trace set_needs_reclaim]. rewrite Hw'. unfold s1.
    cbn [trace emit set_needs_reclaim]. rewrite wakeups_app.
    change (wakeups [wake_up]) with 1%nat. lia.
  - intros sched. destruct (run_inv sched y Hinv) as (y' & Hrun & _ & Heq).
    exists y'. split; [exact Hrun|].
    unfold request_pending at 2 in Heq. rewrite Hpc, Hz in Heq.
    change (0 =? 0) with true in Heq. cbn iota in Heq. lia.
Qed.

End Worker.

(** ** The display notifier and the pressure callback *)

Section DisplayFacts.
Variables MSM_DRM_EVENT_BLANK MSM_DRM_PRIMARY_DISPLAY : Z.
Variables MSM_DRM_BLANK_POWERDOWN MSM_DRM_BLANK_UNBLANK : Z.

Local Abbreviation callback :=
  (msm_drm_notifier_callback MSM_DRM_EVENT_BLANK MSM_DRM_PRIMARY_DISPLAY
     MSM_DRM_BLANK_POWERDOWN MSM_DRM_BLANK_UNBLANK).

Lemma vmpressure_cb_threshold pressure s :
  needs_reclaim s = 0 →
  needs_reclaim (simple_lmk_vmpressure_cb pressure s) = 1 ↔ 90 <= pressure.
Proof.
  intros Hz. unfold simple_lmk_vmpressure_cb.
  destruct (pressure >=? 90) eqn:E.
  - apply Z.geb_le in E. rewrite (simple_lmk_trigger_idle s Hz). cbn. tauto.
  - rewrite Z.geb_leb in E. apply Z.leb_gt in E. rewrite Hz. lia.
Qed.

(** C3, as the code has it. A blank event for the primary display sets
    [min_pressure] to 95 when it powers the display down (the screen
    being on) and to 100 when it unblanks it (the screen being off),
    and changes nothing but [screen_on] and [min_pressure]; a repeated
    event changes nothing.  The vmpressure callback does not read
    either: in both screen states it requests reclaim exactly when the
    pressure is at least 90. *)
Theorem display_sets_min_pressure (s : state) (pressure : Z) :
  MSM_DRM_BLANK_POWERDOWN ≠ MSM_DRM_BLANK_UNBLANK →
  needs_reclaim s = 0 →
  let ev := fun blank =>
    Some {| notifier_id := MSM_DRM_PRIMARY_DISPLAY; notifier_data := Some blank |} in
  let off := callback MSM_DRM_EVENT_BLANK (ev MSM_DRM_BLANK_POWERDOWN) in
  let on := callback MSM_DRM_EVENT_BLANK (ev MSM_DRM_BLANK_UNBLANK) in
  (screen_on s = true → off s = set_min_pressure 95 (set_screen_on false s)) ∧
  (screen_on s = false → off s = s) ∧
  (screen_on s = false → on s = set_min_pressure 100 (set_screen_on true s)) ∧
  (screen_on s = true → on s = s) ∧
  (needs_reclaim (simple_lmk_vmpressure_cb pressure (off s)) = 1 ↔ 90 <= pressure) ∧
  (needs_reclaim (simple_lmk_vmpressure_cb pressure (on s)) = 1 ↔ 90 <= pressure).
Proof.
  intros Hne Hz ev off on.
  assert (Hoff : off s = if screen_on s
                         then set_min_pressure 95 (set_screen_on false s) else s).
  { unfold off, ev, msm_drm_notifier_callback. cbn [notifier_id notifier_data].
    rewrite !Z.eqb_refl. cbn [negb]. destruct (screen_on s); reflexivity. }
  assert (Hon : on s = if screen_on s
                       then s else set_min_pressure 100 (set_screen_on true s)).
  { unfold on, ev, msm_drm_notifier_callback. cbn [notifier_id notifier_data].
    rewrite !Z.eqb_refl. cbn [negb].
    assert ((MSM_DRM_BLANK_UNBLANK =? MSM_DRM_BLANK_POWERDOWN) = false) as ->
      by (apply Z.eqb_neq; congruence).
    destruct (screen_on s); reflexivity. }
  split; [intros H; rewrite Hoff, H; reflexivity|].
  split; [intros H; rewrite Hoff, H; reflexivity|].
  split; [intros H; rewrite Hon, H; reflexivity|].
  split; [intros H; rewrite Hon, H; reflexivity|].
  split; apply vmpressure_cb_threshold.
  - rewrite Hoff. destruct (screen_on s); exact Hz.
  - rewrite Hon. destruct (screen_on s); exact Hz.
Qed.

End DisplayFacts.

(** C3, as stated, fails. Power the display down from the boot state,
    then unblank it: [min_pressure] is 95 with the screen off and 100
    with the screen on again, so the wake raised it; and no pressure
    level requests reclaim with the screen on without doing so with the
    screen off (89 requests it in neither state, 90 in both). *)
Lemma screen_off_not_stricter :
  screen_on screen_off_state = false ∧ screen_on screen_on_again = true ∧
  min_pressure screen_off_state = 95 ∧ min_pressure screen_on_again = 100 ∧
  needs_reclaim (simple_lmk_vmpressure_cb 89 screen_on_again) = 0 ∧
  needs_reclaim (simple_lmk_vmpressure_cb 89 screen_off_state) = 0 ∧
  needs_reclaim (simple_lmk_vmpressure_cb 90 screen_on_again) = 1 ∧
  needs_reclaim (simple_lmk_vmpressure_cb 90 screen_off_state) = 1 ∧
  ¬ needs_more_pressure screen_on_again screen_off_state.
Proof.
  repeat (split; [reflexivity|]).
  intros (p & Hon & Hoff).
  apply vmpressure_cb_threshold in Hon; [|reflexivity].
  assert (Hoff' : needs_reclaim (simple_lmk_vmpressure_cb p screen_off_state) = 1)
    by (apply vmpressure_cb_threshold; [reflexivity|exact Hon]).
  congruence.
Qed.

(** ** The scenario of five processes *)

(** C2. Five eligible processes (0,100), (0,50), (5,40), (5,400),
    (7,20) and a target of 60 pages.  The scan takes the tasks of
    bucket 7, then those of bucket 5, and stops: the table holds
    (7,20), (5,400), (5,40) in that order, 460 pages were found, the
    tasks of bucket 0 were never looked at and every bucket is empty.
    The first pass keeps two victims, the second one, and the single
    task that is sent the kill signal is (5,400). *)
Theorem scenario_kills_one :
  ∃ s1 s2,
    find_victims 60 4 8 4 scenario_ps 0 boot_state = Some (3, 460, s1) ∧
    take 3 (victims s1)
      = [ {| tsk := Some 5; mm := Some 105; size := 20 |};
          {| tsk := Some 4; mm := Some 104; size := 400 |};
          {| tsk := Some 3; mm := Some 103; size := 40 |} ] ∧
    trace s1 = [task_lock (Some 5); task_lock (Some 4); task_lock (Some 3)] ∧
    task_bucket s1 = ∅ ∧
    fst (process_victims 60 3 s1) = 2 ∧
    scan_and_kill_begin 60 4 8 4 scenario_ps boot_state = Some (awaiting s2) ∧
    nr_victims s2 = 1 ∧
    selected (awaiting s2) = [ {| tsk := Some 4; mm := Some 104; size := 400 |} ] ∧
    signalled (trace s2) = [Some 4].
Proof.
  eexists _, _. split; [vm_compute; reflexivity|].
  split; [vm_compute; reflexivity|].
  split; [vm_compute; reflexivity|].
  split; [vm_compute; reflexivity|].
  split; [vm_compute; reflexivity|].
  split; [vm_compute; reflexivity|].
  split; [vm_compute; reflexivity|].
  split; vm_compute; reflexivity.
Qed.

(** ** The slice of a consumed bucket *)

(** [consume_bucket] is the turn of the loop of [bucket_walk] for a
    bucket that is not empty. *)
Lemma bucket_walk_consume MIN_FREE_PAGES n i min_adj vindex pages_found s :
  bucket_walk MIN_FREE_PAGES (S n) i min_adj vindex pages_found s =
  match task_bucket s !! i with
  | None | Some [] =>
      bucket_walk MIN_FREE_PAGES n (i - 1) min_adj vindex pages_found s
  | Some chain =>
      '(vindex', pages_found', s') ← consume_bucket i chain vindex pages_found s;
      if vindex' =? vindex
      then bucket_walk MIN_FREE_PAGES n (i - 1) min_adj vindex' pages_found' s'
      else if (vindex' =? MAX_VICTIMS) || (pages_found' >=? MIN_FREE_PAGES)
      then Some (vindex', pages_found',
                 if i >? min_adj
                 then set_task_bucket
                        (memset_buckets min_adj (i - min_adj) (task_bucket s')) s'
                 else s')
      else bucket_walk MIN_FREE_PAGES n (i - 1) min_adj vindex' pages_found' s'
  end.
Proof.
  cbn [bucket_walk]. destruct (task_bucket s !! i) as [[|t chain]|]; try reflexivity.
  unfold consume_bucket.
  destruct (bucket_chain (t :: chain) vindex pages_found
              (set_task_bucket (delete i (task_bucket s)) s))
    as [[[v1 pf1] s1]|]; [|reflexivity].
  cbn [mbind option_bind]. destruct (v1 =? vindex) eqn:E; cbn [mbind option_bind];
    rewrite E; reflexivity.
Qed.


(** ** The comparison truncates *)

(** The bound on the sizes is needed: for sizes that lie [2^31] pages
    or more apart the difference does not fit the [int] that
    [victim_cmp] returns.  Two processes of one bucket, of 1 and of
    [2^31 + 2] pages (more than 8 TiB): after the bucket is consumed
    and sorted, the slice holds the smaller one first. *)
Lemma far_apart_slice_ascending :
  victim_cmp {| tsk := None; mm := None; size := 1 |}
             {| tsk := None; mm := None; size := 2 ^ 31 + 2 |} = - (2 ^ 31 - 1) ∧
  ∃ s1,
    find_victims 16384 4 8 4 far_apart_ps 0 boot_state
      = Some (2, 2 ^ 31 + 3, s1) ∧
    map size (take 2 (victims s1)) = [1; 2 ^ 31 + 2] ∧
    ¬ Sorted Z.ge (map size (take 2 (victims s1))).
Proof.
  split; [vm_compute; reflexivity|].
  eexists. split; [vm_compute; reflexivity|].
  split; [vm_compute; reflexivity|].
  intros Hs.
  revert Hs. vm_compute. intros Hs.
  inversion Hs as [|? ? _ Hhd]; subst. inversion Hhd as [|? ? Hge]; subst.
  apply Hge. reflexivity.
Qed.

(** * The theorems at work on concrete inputs *)

Lemma find_victims_in_table_witness :
  Z.of_nat (length (victims boot_state)) = MAX_VICTIMS ∧
  ∃ nr_found pages_found s',
    find_victims 60 4 8 4 scenario_ps 0 boot_state
      = Some (nr_found, pages_found, s') ∧
    0 <= nr_found <= MAX_VICTIMS ∧
    Z.of_nat (length (victims s')) = MAX_VICTIMS.
Proof.
  split; [reflexivity|].
  exact (proj2 (find_victims_in_table 60 4 8 4 scenario_ps boot_state eq_refl)).
Defined.



Lemma buckets_empty_after_cycle_witness :
  Z.of_nat (length (victims boot_state)) = MAX_VICTIMS ∧
  task_bucket boot_state = ∅ ∧
  (∃ nr_found pages_found s1,
     find_victims 60 4 8 4 scenario_ps 0 boot_state
       = Some (nr_found, pages_found, s1) ∧
     task_bucket s1 = ∅) ∧
  ∃ s', scan_and_kill 60 4 8 4 scenario_ps [104] boot_state = Some s' ∧
        task_bucket s' = ∅ ∧
        Z.of_nat (length (victims s')) = MAX_VICTIMS.
Proof.
  split; [reflexivity|]. split; [reflexivity|].
  exact (buckets_empty_after_cycle 60 4 8 4 scenario_ps [104] boot_state
           eq_refl eq_refl).
Defined.

Lemma no_victims_aborts_witness :
  Z.of_nat (length (victims boot_state)) = MAX_VICTIMS ∧
  task_bucket boot_state = ∅ ∧
  find_victims 60 4 8 4 [plain_task 1 (-1) 500] 0 boot_state
    = Some (0, 0, boot_state) ∧
  scan_and_kill 60 4 8 4 [plain_task 1 (-1) 500] [] boot_state
    = Some (emit [pr_err_no_processes] boot_state).
Proof.
  split; [reflexivity|]. split; [reflexivity|]. split; [reflexivity|].
  exact (proj1 (no_victims_aborts 60 4 8 4 [plain_task 1 (-1) 500] [] boot_state
                  0 boot_state eq_refl eq_refl eq_refl)).
Defined.

Lemma process_victims_prefix_witness :
  0 <= 3 <= Z.of_nat (length (victims scenario_awaiting)) ∧
  ∃ nr_to_kill s',
    process_victims 60 3 scenario_awaiting = (nr_to_kill, s') ∧
    0 <= nr_to_kill <= 3.
Proof.
  split; [vm_compute; split; discriminate|].
  destruct (process_victims_prefix 60 3 scenario_awaiting)
    as (nr & s' & Hrun & Hnr & _).
  - vm_compute. split; discriminate.
  - exists nr, s'. split; [exact Hrun|exact Hnr].
Defined.

Lemma confirmations_bounded_witness :
  Z.of_nat (length (victims boot_state)) = MAX_VICTIMS ∧
  task_bucket boot_state = ∅ ∧
  nr_killed boot_state = 0 ∧
  scan_and_kill_begin 60 4 8 4 scenario_ps boot_state
    = Some (awaiting scenario_awaiting) ∧
  let a := deliver_freed [7; 104] scenario_awaiting in
  let b := deliver_freed [104; 104] a in
  nr_killed a <= nr_killed b ∧ nr_killed b <= nr_victims scenario_awaiting.
Proof.
  split; [reflexivity|]. split; [reflexivity|]. split; [reflexivity|].
  split; [vm_compute; reflexivity|].
  destruct (confirmations_bounded 60 4 8 4 scenario_ps boot_state
              scenario_awaiting [7; 104] [104; 104] 104)
    as (_ & _ & _ & _ & Hmono & Hbound & _).
  - reflexivity.
  - reflexivity.
  - reflexivity.
  - vm_compute. reflexivity.
  - split; [exact Hmono|exact Hbound].
Defined.

Lemma trigger_coalesces_witness :
  system_inv boot_system ∧
  pc boot_system = in_wait_event ∧
  needs_reclaim (statics boot_system) = 0 ∧
  ∃ y',
    run 60 4 8 4
      (replicate 3 a_trigger ++ a_worker_run scenario_ps [104]
       :: replicate 2 a_trigger ++ [a_worker_clear; a_worker_run scenario_ps []])
      boot_system = Some y' ∧
    cycles y' = 1%nat ∧
    pc y' = in_wait_event ∧
    needs_reclaim (statics y') = 0 ∧
    wakeups (trace (statics y')) = 1%nat.
Proof.
  assert (Hinv : system_inv boot_system).
  { split; [reflexivity|]. split; [reflexivity|]. intros H. discriminate H. }
  split; [exact Hinv|]. split; [reflexivity|]. split; [reflexivity|].
  exact (proj1 (proj2 (proj2 (proj2
           (trigger_coalesces 60 4 8 4 2 2 scenario_ps scenario_ps [104] []
              boot_system Hinv eq_refl eq_refl))))).
Defined.

Lemma display_sets_min_pressure_witness :
  (1 : Z) ≠ 0 ∧
  needs_reclaim boot_state = 0 ∧
  blank_event 1 boot_state
    = set_min_pressure 95 (set_screen_on false boot_state) ∧
  (needs_reclaim (simple_lmk_vmpressure_cb 92 (blank_event 1 boot_state)) = 1
   ↔ 90 <= 92).
Proof.
  assert (Hne : (1 : Z) ≠ 0) by discriminate.
  split; [exact Hne|]. split; [reflexivity|].
  destruct (display_sets_min_pressure 1 0 1 0 boot_state 92 Hne eq_refl)
    as (Hoff & _ & _ & _ & Hcb & _).
  split; [exact (Hoff eq_refl)|exact Hcb].
Defined.

(** * Further properties *)

(** ** The comparison, on all sizes *)

Lemma to_int_range z : - 2 ^ 31 <= to_int z < 2 ^ 31.
Proof.
  unfold to_int. pose proof (Z.mod_pos_bound (z + 2 ^ 31) (2 ^ 32)). lia.
Qed.

Lemma to_int_congr z : (2 ^ 32 | to_int z - z).
Proof.
  unfold to_int. rewrite (Z.mod_eq (z + 2 ^ 31) (2 ^ 32)) by lia.
  exists (- ((z + 2 ^ 31) / 2 ^ 32)). lia.
Qed.

Lemma wrap_ulong_congr32 z : (2 ^ 32 | wrap_ulong z - z).
Proof.
  unfold wrap_ulong, ULONG_BITS. rewrite (Z.mod_eq z (2 ^ 64)) by lia.
  exists (- (2 ^ 32 * (z / 2 ^ 64))). lia.
Qed.

(** X14. [victim_cmp] returns an [int] congruent modulo [2^32] to the
    difference of the sizes.  So it is the difference itself, with the
    sign that orders the two victims by size, exactly when that
    difference fits an [int]; and two victims compare as equal exactly
    when their sizes differ by a multiple of [2^32]. *)
Theorem victim_cmp_congruent (lhs rhs : victim_info) :
  - 2 ^ 31 <= victim_cmp lhs rhs < 2 ^ 31 ∧
  (2 ^ 32 | victim_cmp lhs rhs - (size rhs - size lhs)) ∧
  (victim_cmp lhs rhs = size rhs - size lhs
   ↔ - 2 ^ 31 <= size rhs - size lhs < 2 ^ 31) ∧
  (victim_cmp lhs rhs = 0 ↔ (2 ^ 32 | size rhs - size lhs)).
Proof.
  set (d := size rhs - size lhs).
  assert (Hr : - 2 ^ 31 <= victim_cmp lhs rhs < 2 ^ 31) by apply to_int_range.
  assert (Hc : (2 ^ 32 | victim_cmp lhs rhs - d)).
  { unfold victim_cmp. fold d.
    replace (to_int (wrap_ulong d) - d)
      with ((to_int (wrap_ulong d) - wrap_ulong d) + (wrap_ulong d - d)) by lia.
    apply Z.divide_add_r; [apply to_int_congr|apply wrap_ulong_congr32]. }
  split; [exact Hr|]. split; [exact Hc|]. split; [split|split].
  - intros <-. exact Hr.
  - intros Hd. unfold victim_cmp. fold d. apply to_int_wrap_ulong. exact Hd.
  - intros H0. rewrite H0 in Hc. destruct Hc as [q Hq]. exists (- q). lia.
  - intros [q Hq]. destruct Hc as [q' Hq']. lia.
Qed.

(** ** get_total_mm_pages *)

Lemma fold_total_wrap (l : list Z) (p : Z) :
  fold_left (fun pages c => wrap_ulong (pages + c)) l (wrap_ulong p)
  = wrap_ulong (p + foldr Z.add 0 l).
Proof.
  revert p. induction l as [|c l IH]; intros p; cbn [fold_left foldr].
  - rewrite Z.add_0_r. reflexivity.
  - rewrite wrap_ulong_add_l, IH. f_equal. lia.
Qed.

(** X15. [get_total_mm_pages] is the sum of all the counters of the
    address space, reduced modulo [2^64]: the order of the counters
    does not matter, and when they are non-negative and their sum fits
    an [unsigned long] the result is that sum. *)
Theorem get_total_mm_pages_sum (m m' : mm_struct) :
  get_total_mm_pages m = wrap_ulong (foldr Z.add 0 (rss_stat m)) ∧
  (rss_stat m ≡ₚ rss_stat m' → get_total_mm_pages m = get_total_mm_pages m') ∧
  (0 <= foldr Z.add 0 (rss_stat m) < 2 ^ ULONG_BITS →
     get_total_mm_pages m = foldr Z.add 0 (rss_stat m)).
Proof.
  assert (H : ∀ m, get_total_mm_pages m = wrap_ulong (foldr Z.add 0 (rss_stat m))).
  { intros m0. unfold get_total_mm_pages.
    change 0 with (wrap_ulong 0) at 1. rewrite fold_total_wrap. reflexivity. }
  split; [apply H|]. split.
  - intros Hp. rewrite !H. f_equal.
    induction Hp; cbn [foldr]; lia.
  - intros Hs. rewrite H. apply wrap_ulong_small. exact Hs.
Qed.

(** ** The display notifier, over any sequence of calls *)

Section DisplayCalls.
Variables MSM_DRM_EVENT_BLANK MSM_DRM_PRIMARY_DISPLAY : Z.
Variables MSM_DRM_BLANK_POWERDOWN MSM_DRM_BLANK_UNBLANK : Z.

Local Abbreviation callback :=
  (msm_drm_notifier_callback MSM_DRM_EVENT_BLANK MSM_DRM_PRIMARY_DISPLAY
     MSM_DRM_BLANK_POWERDOWN MSM_DRM_BLANK_UNBLANK).
Local Abbreviation display_calls' :=
  (display_calls MSM_DRM_EVENT_BLANK MSM_DRM_PRIMARY_DISPLAY
     MSM_DRM_BLANK_POWERDOWN MSM_DRM_BLANK_UNBLANK).

(** One call either changes nothing or flips the screen state, with
    the value of [min_pressure] that goes with the new state. *)
Lemma callback_cases event evdata s :
  callback event evdata s = s
  ∨ (screen_on s = true ∧
     callback event evdata s = set_min_pressure 95 (set_screen_on false s))
  ∨ (screen_on s = false ∧
     callback event evdata s = set_min_pressure 100 (set_screen_on true s)).
Proof.
  unfold msm_drm_notifier_callback.
  destruct (negb (event =? MSM_DRM_EVENT_BLANK)); [left; reflexivity|].
  destruct evdata as [ev|]; [|left; reflexivity].
  destruct (notifier_data ev) as [blank|]; [|left; reflexivity].
  destruct (negb (notifier_id ev =? MSM_DRM_PRIMARY_DISPLAY)); [left; reflexivity|].
  destruct (blank =? MSM_DRM_BLANK_POWERDOWN).
  - destruct (screen_on s) eqn:E; cbn [negb]; [right; left|left]; auto.
  - destruct (blank =? MSM_DRM_BLANK_UNBLANK); [|left; reflexivity].
    destruct (screen_on s) eqn:E; [left|right; right]; auto.
Qed.

(** X10. Whatever calls the display notifier receives, and in whatever
    order: it touches nothing but [screen_on] and [min_pressure] (so it
    never requests a reclaim and never changes the table, the counters
    or the trace); while the screen is off [min_pressure] is 95; and
    with the screen on it is 100 or still the value it had before the
    first call.  A call that is not a blank event, or carries no data,
    or is for another display, changes nothing at all. *)
Theorem display_calls_frame (calls : list (Z * option msm_drm_notifier))
    (s : state) :
  screen_on s = true →
  let s' := display_calls' calls s in
  (screen_on s' = false → min_pressure s' = 95) ∧
  (screen_on s' = true →
     min_pressure s' = 100 ∨ min_pressure s' = min_pressure s) ∧
  victims s' = victims s ∧ task_bucket s' = task_bucket s ∧
  nr_victims s' = nr_victims s ∧ needs_reclaim s' = needs_reclaim s ∧
  nr_killed s' = nr_killed s ∧ reclaim_done s' = reclaim_done s ∧
  mm_free_lock s' = mm_free_lock s ∧ trace s' = trace s ∧
  (∀ event evdata s0,
     event ≠ MSM_DRM_EVENT_BLANK ∨ evdata = None
     ∨ (∃ ev, evdata = Some ev ∧
              (notifier_data ev = None ∨ notifier_id ev ≠ MSM_DRM_PRIMARY_DISPLAY)) →
     callback event evdata s0 = s0).
Proof.
  intros Hon. cbn zeta.
  set (inv := fun s' : state =>
    (screen_on s' = false → min_pressure s' = 95) ∧
    (screen_on s' = true →
       min_pressure s' = 100 ∨ min_pressure s' = min_pressure s) ∧
    victims s' = victims s ∧ task_bucket s' = task_bucket s ∧
    nr_victims s' = nr_victims s ∧ needs_reclaim s' = needs_reclaim s ∧
    nr_killed s' = nr_killed s ∧ reclaim_done s' = reclaim_done s ∧
    mm_free_lock s' = mm_free_lock s ∧ trace s' = trace s).
  assert (Hstep : ∀ event evdata s1, inv s1 → inv (callback event evdata s1)).
  { intros event evdata s1 (H1 & H2 & H3 & H4 & H5 & H6 & H7 & H8 & H9 & H10).
    destruct (callback_cases event evdata s1) as [->|[[Hs ->]|[Hs ->]]];
      unfold inv; cbn [screen_on min_pressure victims task_bucket nr_victims
                       needs_reclaim nr_killed reclaim_done mm_free_lock trace
                       set_min_pressure set_screen_on].
    - repeat split; assumption.
    - repeat split; try assumption; discriminate.
    - repeat split; try assumption; try discriminate. intros _. left. reflexivity. }
  assert (Hall : ∀ calls s1, inv s1 → inv (display_calls' calls s1)).
  { clear calls. induction calls as [|c calls IH]; intros s1 Hs1; [exact Hs1|].
    cbn [display_calls fold_left]. apply IH, Hstep, Hs1. }
  assert (H0 : inv s).
  { unfold inv. split; [congruence|]. split; [intros _; right; reflexivity|].
    repeat split; reflexivity. }
  destruct (Hall calls s H0) as (H1 & H2 & H3 & H4 & H5 & H6 & H7 & H8 & H9 & H10).
  repeat (split; [assumption|]).
  intros event evdata s0 Hcase. unfold msm_drm_notifier_callback.
  destruct (event =? MSM_DRM_EVENT_BLANK) eqn:Ee; cbn [negb]; [|reflexivity].
  apply Z.eqb_eq in Ee.
  destruct Hcase as [Hne|[->|(ev & -> & [Hd|Hid])]]; [contradiction|reflexivity| |].
  - rewrite Hd. reflexivity.
  - destruct (notifier_data ev); [|reflexivity].
    apply Z.eqb_neq in Hid. rewrite Hid. reflexivity.
Qed.

End DisplayCalls.

(** ** The pressure callback, over any sequence of reports *)

Lemma pressure_reports_pending reports s :
  needs_reclaim s ≠ 0 → pressure_reports reports s = s.
Proof.
  intros Hn. induction reports as [|p reports IH]; [reflexivity|].
  cbn [pressure_reports fold_left]. unfold simple_lmk_vmpressure_cb at 2.
  destruct (p >=? 90); [rewrite (simple_lmk_trigger_pending s Hn)|]; exact IH.
Qed.

(** X11. From a state with no request pending, any sequence of
    pressure reports leaves exactly one of two states: when every
    report is below 90 nothing has changed; as soon as one report is 90
    or more, [needs_reclaim] is 1 and the worker was woken exactly
    once, however many reports there were and whatever their values. *)
Theorem pressure_reports_one_wake_up (reports : list Z) (s : state) :
  needs_reclaim s = 0 →
  (Forall (fun pressure => pressure < 90) reports →
     pressure_reports reports s = s) ∧
  (Exists (fun pressure => 90 <= pressure) reports →
     pressure_reports reports s = emit [wake_up] (set_needs_reclaim 1 s)).
Proof.
  intros Hz. split.
  - induction 1 as [|p reports Hp _ IH]; [reflexivity|].
    cbn [pressure_reports fold_left]. unfold simple_lmk_vmpressure_cb at 2.
    assert ((p >=? 90) = false) as -> by (rewrite Z.geb_leb; apply Z.leb_gt; exact Hp).
    exact IH.
  - induction reports as [|p reports IH]; intros Hex;
      [apply Exists_nil in Hex; contradiction|].
    cbn [pressure_reports fold_left]. unfold simple_lmk_vmpressure_cb at 2.
    destruct (p >=? 90) eqn:E.
    + rewrite (simple_lmk_trigger_idle s Hz).
      apply pressure_reports_pending. cbn. discriminate.
    + apply IH. apply Exists_cons in Hex as [Hp|Hex]; [|exact Hex].
      rewrite Z.geb_leb in E. apply Z.leb_gt in E. lia.
Qed.

(** ** Initialisation *)

Section InitFacts.
Variable PAGE_SHIFT : Z.

Local Abbreviation tune_by_totalram' := (tune_by_totalram PAGE_SHIFT).
Local Abbreviation simple_lmk_init_set' := (simple_lmk_init_set PAGE_SHIFT).
Local Abbreviation init_calls' := (init_calls PAGE_SHIFT).

Lemma tune_by_totalram_frame r t :
  init_done (tune_by_totalram' r t) = init_done t ∧
  started (tune_by_totalram' r t) = started t ∧
  slmk_minfree (tune_by_totalram' r t) = 64 ∧
  (slmk_timeout (tune_by_totalram' r t) = 160
   ∨ slmk_timeout (tune_by_totalram' r t) = 172
   ∨ slmk_timeout (tune_by_totalram' r t) = 250).
Proof.
  unfold tune_by_totalram.
  destruct (_ >? 5072 * 1024 * 1024); [|destruct (_ >? 3072 * 1024 * 1024)];
    cbn [init_done started slmk_minfree slmk_timeout set_tunables];
    repeat split; auto.
Qed.

(** Once [init_done] is set a write only refreshes the tunables. *)
Lemma init_set_done env t :
  init_done t ≠ 0 →
  simple_lmk_init_set' env t
  = init_returned 0 (tune_by_totalram' (totalram env) t).
Proof.
  intros Hd. unfold simple_lmk_init_set.
  apply Z.eqb_neq in Hd. rewrite Hd. reflexivity.
Qed.

(** What the first write starts, and that it sets [init_done]. *)
Lemma init_set_first env t :
  init_done t = 0 →
  let t1 := outcome_tunables (simple_lmk_init_set' env t) in
  init_done t1 = 1 ∧
  started t1 = started t ++
    kthread_run ::
    (if kthread_run_is_err env then []
     else vmpressure_notifier_register ::
          (if vmpressure_notifier_register_ret env =? 0
           then [msm_drm_register_client] else [])).
Proof.
  intros Hd. cbn zeta. unfold simple_lmk_init_set. rewrite Hd.
  change (0 =? 0) with true. cbn iota.
  destruct (kthread_run_is_err env); [cbn; split; reflexivity|].
  destruct (vmpressure_notifier_register_ret env =? 0); cbn [negb];
    [|cbn; rewrite <- app_assoc; split; reflexivity].
  destruct (msm_drm_register_client_ret env =? 0); cbn [negb outcome_tunables].
  - destruct (tune_by_totalram_frame (totalram env)
      (start msm_drm_register_client (start vmpressure_notifier_register
         (start kthread_run (set_init_done 1 t))))) as (-> & -> & _).
    cbn. rewrite <- !app_assoc. split; reflexivity.
  - cbn. rewrite <- !app_assoc. split; reflexivity.
Qed.

Lemma init_calls_done envs t :
  init_done t ≠ 0 →
  init_done (init_calls' envs t) = init_done t ∧
  started (init_calls' envs t) = started t.
Proof.
  revert t. induction envs as [|env envs IH]; intros t Hd; [split; reflexivity|].
  change (init_calls' (env :: envs) t)
    with (init_calls' envs (outcome_tunables (simple_lmk_init_set' env t))).
  rewrite (init_set_done env t Hd). cbn [outcome_tunables].
  destruct (tune_by_totalram_frame (totalram env) t) as (H1 & H2 & _).
  destruct (IH (tune_by_totalram' (totalram env) t)) as [-> ->]; [congruence|].
  split; assumption.
Qed.

(** X12. Initialisation happens on the first write and never again.
    The first write to the parameter starts the reclaim thread exactly
    once, registers the pressure notifier after it and the display
    notifier last, stopping at the first of the three that fails (a
    [BUG_ON]).  Whatever that write did, and whether it returned or
    not, [init_done] is 1 afterwards: every later write starts and
    registers nothing, cannot hit a [BUG_ON], and returns 0 after
    setting the tunables again. *)
Theorem init_starts_once (env : init_env) (envs : list init_env)
    (env' : init_env) (t : tunables) :
  init_done t = 0 →
  let t1 := outcome_tunables (simple_lmk_init_set' env t) in
  let t' := init_calls' envs t1 in
  started t1 = started t ++
    kthread_run ::
    (if kthread_run_is_err env then []
     else vmpressure_notifier_register ::
          (if vmpressure_notifier_register_ret env =? 0
           then [msm_drm_register_client] else [])) ∧
  init_done t' = 1 ∧
  started t' = started t1 ∧
  simple_lmk_init_set' env' t'
  = init_returned 0 (tune_by_totalram' (totalram env') t').
Proof.
  intros Hd. cbn zeta.
  destruct (init_set_first env t Hd) as [H1 Hs]. cbn zeta in H1, Hs.
  split; [exact Hs|].
  destruct (init_calls_done envs (outcome_tunables (simple_lmk_init_set' env t)))
    as [Hd' Hs']; [rewrite H1; discriminate|].
  split; [rewrite Hd'; exact H1|]. split; [exact Hs'|].
  apply init_set_done. rewrite Hd', H1. discriminate.
Qed.

(** X13. A write that returns leaves [slmk_minfree] at 64 and
    [slmk_timeout] at 160, 172 or 250, whatever was written and
    whatever the tunables were.  The page count shifted by
    [PAGE_SHIFT - 10] is a size in KiB, and it is compared with
    [5072 * 2^20] and [3072 * 2^20]: so, as long as the shift does not
    overflow, the timeout is 250 for every amount of memory up to
    [3072 * 2^30] bytes, 172 above that and up to [5072 * 2^30] bytes,
    and 160 beyond. *)
Theorem init_set_tunables (env : init_env) (t t' : tunables) (ret : Z) :
  10 <= PAGE_SHIFT →
  0 <= totalram env →
  simple_lmk_init_set' env t = init_returned ret t' →
  ret = 0 ∧
  slmk_minfree t' = 64 ∧
  (slmk_timeout t' = 160 ∨ slmk_timeout t' = 172 ∨ slmk_timeout t' = 250) ∧
  (totalram env * 2 ^ (PAGE_SHIFT - 10) < 2 ^ ULONG_BITS →
     let bytes := totalram env * 2 ^ PAGE_SHIFT in
     slmk_timeout t' =
       if bytes >? 5072 * 2 ^ 30 then 160
       else if bytes >? 3072 * 2 ^ 30 then 172 else 250).
Proof.
  intros Hps Hram Hrun.
  assert (Ht : ∃ t0, ret = 0 ∧ t' = tune_by_totalram' (totalram env) t0).
  { unfold simple_lmk_init_set in Hrun.
    destruct (init_done t =? 0).
    - destruct (kthread_run_is_err env); [discriminate|].
      destruct (negb (vmpressure_notifier_register_ret env =? 0)); [discriminate|].
      destruct (negb (msm_drm_register_client_ret env =? 0)); [discriminate|].
      injection Hrun as <- <-. eexists. split; reflexivity.
    - injection Hrun as <- <-. eexists. split; reflexivity. }
  destruct Ht as (t0 & -> & ->).
  destruct (tune_by_totalram_frame (totalram env) t0) as (_ & _ & Hm & Hto).
  split; [reflexivity|]. split; [exact Hm|]. split; [exact Hto|].
  intros Hfit. cbn zeta. unfold tune_by_totalram.
  rewrite Z.shiftl_mul_pow2 by lia.
  assert (Hpow : 0 < 2 ^ (PAGE_SHIFT - 10)) by (apply Z.pow_pos_nonneg; lia).
  rewrite wrap_ulong_small by nia.
  replace (2 ^ PAGE_SHIFT) with (2 ^ (PAGE_SHIFT - 10) * 1024).
  2:{ change 1024 with (2 ^ 10). rewrite <- Z.pow_add_r by lia. f_equal. lia. }
  set (kib := totalram env * 2 ^ (PAGE_SHIFT - 10)).
  replace (totalram env * (2 ^ (PAGE_SHIFT - 10) * 1024)) with (kib * 1024)
    by (unfold kib; lia).
  destruct (kib >? 5072 * 1024 * 1024) eqn:E1.
  - assert ((kib * 1024 >? 5072 * 2 ^ 30) = true) as -> by lia. reflexivity.
  - assert ((kib * 1024 >? 5072 * 2 ^ 30) = false) as -> by lia.
    destruct (kib >? 3072 * 1024 * 1024) eqn:E2.
    + assert ((kib * 1024 >? 3072 * 2 ^ 30) = true) as -> by lia. reflexivity.
    + assert ((kib * 1024 >? 3072 * 2 ^ 30) = false) as -> by lia. reflexivity.
Qed.

End InitFacts.

(** ** The cycle in detail *)

Section CycleShape.
Variable MIN_FREE_PAGES : Z.
Variables SIGNAL_GROUP_EXIT SIGNAL_GROUP_COREDUMP PF_EXITING : Z.

Local Abbreviation skip_task' :=
  (skip_task SIGNAL_GROUP_EXIT SIGNAL_GROUP_COREDUMP PF_EXITING).
Local Abbreviation candidates' :=
  (candidates SIGNAL_GROUP_EXIT SIGNAL_GROUP_COREDUMP PF_EXITING).
Local Abbreviation find_victims' :=
  (find_victims MIN_FREE_PAGES SIGNAL_GROUP_EXIT SIGNAL_GROUP_COREDUMP PF_EXITING).
Local Abbreviation scan_and_kill_begin' :=
  (scan_and_kill_begin MIN_FREE_PAGES SIGNAL_GROUP_EXIT SIGNAL_GROUP_COREDUMP
     PF_EXITING).
Local Abbreviation scan_and_kill' :=
  (scan_and_kill MIN_FREE_PAGES SIGNAL_GROUP_EXIT SIGNAL_GROUP_COREDUMP
     PF_EXITING).
Local Abbreviation chosen' := (chosen MIN_FREE_PAGES).

(** The first half of [scan_and_kill] after a scan that found
    something, call by call. *)
Lemma scan_and_kill_begin_shape ps s nr_found pages_found s1 :
  find_victims' ps 0 s = Some (nr_found, pages_found, s1) →
  0 < nr_found <= Z.of_nat (length (victims s1)) →
  let found := take (Z.to_nat nr_found) (victims s1) in
  let two := pages_found >? MIN_FREE_PAGES in
  let c1 := if two then chosen' 0 found else found in
  let l1 := if two then sort victim_cmp c1 else found in
  let c2 := if two then chosen' 0 l1 else found in
  ∃ s2,
    scan_and_kill_begin' ps s = Some (awaiting s2) ∧
    published s2 = c2 ∧
    nr_victims s2 = Z.of_nat (length c2) ∧
    trace s2 = trace s1 ++ unlock_events (drop (length c1) found)
                 ++ unlock_events (drop (length c2) l1)
                 ++ [write_lock; write_unlock] ++ flat_map kill_victim c2 ∧
    nr_killed s2 = nr_killed s1 ∧ reclaim_done s2 = reclaim_done s1 ∧
    mm_free_lock s2 = false.
Proof.
  intros Hfv Hnr found two c1 l1 c2. unfold scan_and_kill_begin. rewrite Hfv.
  cbn [mbind option_bind].
  assert ((nr_found =? 0) = false) as -> by lia.
  assert (Hlf : length found = Z.to_nat nr_found)
    by (unfold found; rewrite length_take; lia).
  subst two c1 l1 c2. destruct (pages_found >? MIN_FREE_PAGES) eqn:Epf.
  - rewrite process_victims_spec. fold found.
    set (c1 := chosen' 0 found).
    assert (Hc1 : (length c1 ≤ length found)%nat) by apply chosen_length.
    cbn [victims emit set_victims].
    rewrite process_victims_spec. cbn [victims emit set_victims].
    rewrite !Nat2Z.id.
    assert (Hl1 : take (length c1) (sort_victims 0 (Z.of_nat (length c1)) (victims s1))
                  = sort victim_cmp c1).
    { pose proof (sort_victims_slice 0 (Z.of_nat (length c1)) (victims s1)) as Hs.
      rewrite Z.sub_0_r, Nat2Z.id in Hs. change (Z.to_nat 0) with 0%nat in Hs.
      rewrite !drop_0 in Hs. rewrite Hs by lia. f_equal. unfold c1.
      rewrite (chosen_prefix _ 0 found) at 2.
      unfold found. rewrite take_take. f_equal. fold found c1. lia. }
    rewrite !Hl1.
    set (l1 := sort victim_cmp c1). set (c2 := chosen' 0 l1).
    assert (Hc2 : (length c2 ≤ length l1)%nat) by apply chosen_length.
    assert (Hll1 : length l1 = length c1) by apply sort_length.
    assert (Hsel : take (length c2)
                     (sort_victims 0 (Z.of_nat (length c1)) (victims s1)) = c2).
    { transitivity (take (length c2) (take (length c1)
                      (sort_victims 0 (Z.of_nat (length c1)) (victims s1)))).
      - rewrite take_take. f_equal. lia.
      - rewrite Hl1. symmetry. apply chosen_prefix. }
    eexists. split; [reflexivity|].
    rewrite kill_loop_spec. unfold published, publish_victims.
    cbn [trace victims nr_victims emit set_victims set_nr_victims set_mm_free_lock
         task_bucket nr_killed needs_reclaim reclaim_done mm_free_lock].
    rewrite !Nat2Z.id, !Hsel.
    split; [reflexivity|]. split; [reflexivity|].
    split; [rewrite <- !app_assoc; reflexivity|].
    repeat split; reflexivity.
  - eexists. split; [reflexivity|].
    rewrite kill_loop_spec. unfold published, publish_victims.
    cbn [trace victims nr_victims emit set_victims set_nr_victims set_mm_free_lock
         task_bucket nr_killed needs_reclaim reclaim_done mm_free_lock].
    fold found. rewrite Hlf, drop_ge by lia.
    split; [reflexivity|]. split; [lia|].
    split; [cbn [unlock_events map app]; rewrite <- !app_assoc; reflexivity|].
    repeat split; reflexivity.
Qed.

End CycleShape.

Section CycleMore.
Variable MIN_FREE_PAGES : Z.
Variables SIGNAL_GROUP_EXIT SIGNAL_GROUP_COREDUMP PF_EXITING : Z.

Local Abbreviation skip_task' :=
  (skip_task SIGNAL_GROUP_EXIT SIGNAL_GROUP_COREDUMP PF_EXITING).
Local Abbreviation candidates' :=
  (candidates SIGNAL_GROUP_EXIT SIGNAL_GROUP_COREDUMP PF_EXITING).
Local Abbreviation find_victims' :=
  (find_victims MIN_FREE_PAGES SIGNAL_GROUP_EXIT SIGNAL_GROUP_COREDUMP PF_EXITING).
Local Abbreviation scan_and_kill_begin' :=
  (scan_and_kill_begin MIN_FREE_PAGES SIGNAL_GROUP_EXIT SIGNAL_GROUP_COREDUMP
     PF_EXITING).
Local Abbreviation scan_and_kill' :=
  (scan_and_kill MIN_FREE_PAGES SIGNAL_GROUP_EXIT SIGNAL_GROUP_COREDUMP
     PF_EXITING).
Local Abbreviation chosen' := (chosen MIN_FREE_PAGES).

Lemma chosen_split pages_found vs :
  chosen' pages_found vs ++ drop (length (chosen' pages_found vs)) vs = vs.
Proof.
  rewrite (chosen_prefix MIN_FREE_PAGES pages_found vs) at 1. apply take_drop.
Qed.

(** A candidate is the record of a task the first loop keeps. *)
Lemma candidates_elem ps v :
  v ∈ candidates' ps →
  ∃ t vtsk vmm,
    t ∈ ps ∧ skip_task' t = false ∧ 0 <= oom_score_adj t ∧
    find_lock_task_mm t = Some (vtsk, vmm) ∧
    v = {| tsk := Some vtsk; mm := Some (mm_id vmm);
           size := get_total_mm_pages vmm |}.
Proof.
  unfold candidates. intros Hv.
  apply list_elem_of_omap in Hv as (t & Ht & Hvt).
  apply list_elem_of_filter in Ht as [Hskip Hin].
  unfold victim_of in Hvt.
  destruct (find_lock_task_mm t) as [[vtsk vmm]|] eqn:Hf; [|discriminate].
  injection Hvt as <-. exists t, vtsk, vmm.
  split; [exact Hin|]. split; [exact Hskip|]. split; [|split; [exact Hf|reflexivity]].
  unfold skip_task in Hskip.
  destruct (oom_score_adj t <? 0) eqn:E; [discriminate|]. lia.
Qed.

(** The victims selected are among the candidates found, each taken at
    most once. *)
Lemma selected_of_candidates ps s :
  Z.of_nat (length (victims s)) = MAX_VICTIMS →
  task_bucket s = ∅ →
  ∃ r spared,
    scan_and_kill_begin' ps s = Some r ∧
    selected r ++ spared ≡ₚ candidates' ps ∧
    Z.of_nat (length (selected r)) <= MAX_VICTIMS.
Proof.
  intros Hlen Hemp.
  destruct (find_victims_spec MIN_FREE_PAGES SIGNAL_GROUP_EXIT
              SIGNAL_GROUP_COREDUMP PF_EXITING ps s Hlen Hemp)
    as (nr & pf & tbl & locks & rest & Hfv & Hnr & Hl & Hdr & Hcs & Hst & Hpf & Hlk).
  set (s1 := emit locks (set_victims tbl s)) in *.
  destruct (decide (nr = 0)) as [Hz|Hnz].
  - exists (no_victims (emit [pr_err_no_processes] s1)), (candidates' ps).
    split; [|split; [reflexivity|cbn; unfold MAX_VICTIMS; lia]].
    unfold scan_and_kill_begin. rewrite Hfv, Hz. reflexivity.
  - destruct (scan_and_kill_begin_shape MIN_FREE_PAGES SIGNAL_GROUP_EXIT
                SIGNAL_GROUP_COREDUMP PF_EXITING ps s nr pf s1 Hfv)
      as (s2 & Hr & Hpub & Hnv & _); [cbn; lia|].
    cbn [victims emit set_victims s1] in Hpub, Hnv.
    set (found := take (Z.to_nat nr) tbl) in *.
    assert (Hlf : length found = Z.to_nat nr)
      by (unfold found; rewrite length_take; lia).
    destruct (pf >? MIN_FREE_PAGES).
    + set (c1 := chosen' 0 found) in *. set (l1 := sort victim_cmp c1) in *.
      exists (awaiting s2), (drop (length (chosen' 0 l1)) l1
                             ++ drop (length c1) found ++ rest).
      split; [exact Hr|]. cbn [selected]. fold (published s2). rewrite Hpub.
      split.
      * rewrite app_assoc, chosen_split. unfold l1. rewrite sort_Permutation.
        rewrite app_assoc. unfold c1. rewrite chosen_split. exact Hcs.
      * pose proof (chosen_length MIN_FREE_PAGES 0 l1) as H1.
        pose proof (chosen_length MIN_FREE_PAGES 0 found) as H2.
        unfold l1 in H1 at 2. rewrite sort_length in H1. fold c1 in H2. lia.
    + exists (awaiting s2), rest. split; [exact Hr|].
      cbn [selected]. fold (published s2). rewrite Hpub.
      split; [exact Hcs|lia].
Qed.

(** What the first half of a cycle adds to the trace, and whom it
    signals. *)
Lemma begin_signals ps s :
  Z.of_nat (length (victims s)) = MAX_VICTIMS →
  task_bucket s = ∅ →
  ∃ r new,
    scan_and_kill_begin' ps s = Some r ∧
    trace (outcome_state r) = trace s ++ new ∧
    signalled new = map tsk (selected r).
Proof.
  intros Hlen Hemp.
  destruct (find_victims_spec MIN_FREE_PAGES SIGNAL_GROUP_EXIT
              SIGNAL_GROUP_COREDUMP PF_EXITING ps s Hlen Hemp)
    as (nr & pf & tbl & locks & rest & Hfv & Hnr & Hl & _ & _ & _ & _ & Hlk).
  assert (Hsl : signalled locks = [])
    by (apply (signalled_Permutation_nil locks _ Hlk), signalled_lock).
  destruct (decide (nr = 0)) as [Hz|Hnz].
  - eexists _, (locks ++ [pr_err_no_processes]).
    split; [unfold scan_and_kill_begin; rewrite Hfv, Hz; reflexivity|].
    cbn [outcome_state selected trace emit set_victims map].
    split; [rewrite <- app_assoc; reflexivity|].
    rewrite signalled_app, Hsl. reflexivity.
  - destruct (scan_and_kill_begin_shape MIN_FREE_PAGES SIGNAL_GROUP_EXIT
                SIGNAL_GROUP_COREDUMP PF_EXITING ps s nr pf _ Hfv)
      as (s2 & Hr & Hpub & _ & Htr & _); [cbn; lia|].
    cbn zeta in Hpub, Htr. cbn [victims trace emit set_victims] in Htr.
    eexists (awaiting s2), _. split; [exact Hr|].
    cbn [outcome_state selected]. fold (published s2).
    split; [rewrite Htr, <- app_assoc; reflexivity|].
    rewrite !signalled_app, Hsl, !signalled_unlock, signalled_kill, Hpub.
    reflexivity.
Qed.

(** X16. A cycle sends the kill signal only to tasks the scan may
    target: every task signalled is the thread that [find_lock_task_mm]
    returned (so one with an address space) for a process of the list
    that has a non-negative [oom_score_adj] and passes the other tests
    of the first loop.  No candidate is signalled more often than it
    occurs among the candidates (so none twice, when the threads
    returned for different processes are different), and at most
    [MAX_VICTIMS] signals are sent. *)
Theorem kills_only_candidates (ps : list task_struct) (s : state) :
  Z.of_nat (length (victims s)) = MAX_VICTIMS →
  task_bucket s = ∅ →
  ∃ r new,
    scan_and_kill_begin' ps s = Some r ∧
    trace (outcome_state r) = trace s ++ new ∧
    Z.of_nat (length (signalled new)) <= MAX_VICTIMS ∧
    (∃ spared, signalled new ++ spared ≡ₚ map tsk (candidates' ps)) ∧
    (NoDup (map tsk (candidates' ps)) → NoDup (signalled new)) ∧
    ∀ t, t ∈ signalled new →
      ∃ p vtsk vmm,
        p ∈ ps ∧ skip_task' p = false ∧ 0 <= oom_score_adj p ∧
        find_lock_task_mm p = Some (vtsk, vmm) ∧ t = Some vtsk.
Proof.
  intros Hlen Hemp.
  destruct (selected_of_candidates ps s Hlen Hemp) as (r & spared & Hr & Hsp & Hmax).
  destruct (begin_signals ps s Hlen Hemp) as (r' & new & Hr' & Hnew & Hsn).
  rewrite Hr in Hr'. injection Hr' as <-.
  exists r, new. split; [exact Hr|]. split; [exact Hnew|].
  rewrite Hsn. split; [rewrite length_map; exact Hmax|]. split; [|split].
  - exists (map tsk spared). rewrite <- map_app, Hsp. reflexivity.
  - intros Hnd. rewrite <- Hsp, map_app in Hnd.
    apply NoDup_app in Hnd as [Hnd _]. exact Hnd.
  - intros t Ht. apply list_elem_of_fmap in Ht as (v & -> & Hv).
    assert (Hc : v ∈ candidates' ps).
    { rewrite <- Hsp. apply elem_of_app. left. exact Hv. }
    destruct (candidates_elem ps v Hc) as (p & vtsk & vmm & H1 & H2 & H3 & H4 & ->).
    exists p, vtsk, vmm. repeat split; assumption.
Qed.

End CycleMore.

(** ** Notifications outside the window *)

Lemma deliver_freed_idle ms s : nr_victims s = 0 → deliver_freed ms s = s.
Proof.
  intros Hn. unfold deliver_freed.
  induction ms as [|m ms IH]; cbn [fold_left]; [reflexivity|].
  assert (simple_lmk_mm_freed m s = s) as ->; [|exact IH].
  unfold simple_lmk_mm_freed. rewrite Hn.
  destruct (mm_free_lock s); reflexivity.
Qed.

Section AfterCycle.
Variable MIN_FREE_PAGES : Z.
Variables SIGNAL_GROUP_EXIT SIGNAL_GROUP_COREDUMP PF_EXITING : Z.

Local Abbreviation candidates' :=
  (candidates SIGNAL_GROUP_EXIT SIGNAL_GROUP_COREDUMP PF_EXITING).
Local Abbreviation find_victims' :=
  (find_victims MIN_FREE_PAGES SIGNAL_GROUP_EXIT SIGNAL_GROUP_COREDUMP PF_EXITING).
Local Abbreviation scan_and_kill_begin' :=
  (scan_and_kill_begin MIN_FREE_PAGES SIGNAL_GROUP_EXIT SIGNAL_GROUP_COREDUMP
     PF_EXITING).
Local Abbreviation scan_and_kill' :=
  (scan_and_kill MIN_FREE_PAGES SIGNAL_GROUP_EXIT SIGNAL_GROUP_COREDUMP
     PF_EXITING).
Local Abbreviation chosen' := (chosen MIN_FREE_PAGES).

(** X7. Notifications that come in when no victim count is published
    are dropped.  After a whole cycle, whatever was confirmed in time,
    the count is 0 again, and any further notifications (those of
    victims that died after the timeout among them) leave the state
    exactly as it is: no stale entry of the table is matched, the
    counter stays 0 and no completion is signalled. *)
Theorem late_notifications_ignored (ps : list task_struct)
    (freed late : list Z) (s : state) :
  Z.of_nat (length (victims s)) = MAX_VICTIMS →
  task_bucket s = ∅ →
  nr_victims s = 0 →
  deliver_freed late s = s ∧
  ∃ s', scan_and_kill' ps freed s = Some s' ∧
        nr_victims s' = 0 ∧
        deliver_freed late s' = s'.
Proof.
  intros Hlen Hemp Hn. split; [apply deliver_freed_idle; exact Hn|].
  destruct (scan_and_kill_begin_total MIN_FREE_PAGES SIGNAL_GROUP_EXIT
              SIGNAL_GROUP_COREDUMP PF_EXITING ps s Hlen Hemp)
    as (r & Hr & _ & _ & _ & _ & _ & Hcase).
  unfold scan_and_kill. rewrite Hr. cbn [mbind option_bind].
  destruct r as [s0|s2].
  - subst s0. eexists. split; [reflexivity|].
    split; [exact Hn|]. apply deliver_freed_idle. exact Hn.
  - eexists. split; [reflexivity|].
    destruct (scan_and_kill_end_frame (deliver_freed freed s2)) as (_ & _ & H0 & _).
    split; [exact H0|]. apply deliver_freed_idle. exact H0.
Qed.

Lemma sum_sizes_take_le (vs : list victim_info) k :
  Forall (fun v => 0 <= size v) vs → 0 <= sum_sizes (take k vs) <= sum_sizes vs.
Proof.
  intros Hvs. rewrite <- (take_drop k vs) at 3. rewrite sum_sizes_app.
  assert (0 <= sum_sizes (take k vs))
    by (apply sum_sizes_nonneg, Forall_take, Hvs).
  assert (0 <= sum_sizes (drop k vs))
    by (apply sum_sizes_nonneg, Forall_drop, Hvs).
  lia.
Qed.

(** X8. When the scan returns more pages than the target, the cycle
    stops selecting as soon as the target is met: before each victim it
    kills, the victims killed before it hold (modulo [2^64], as the
    running total is an [unsigned long]) fewer pages than the target.
    When the pages found fit an [unsigned long] this is the plain sum:
    no proper prefix of the victims killed reaches the target, so none
    of them is killed needlessly after it was met. *)
Theorem kills_stop_at_target (ps : list task_struct) (s : state)
    (nr_found pages_found : Z) (s1 : state) (r : scan_outcome) (k : nat) :
  Z.of_nat (length (victims s)) = MAX_VICTIMS →
  task_bucket s = ∅ →
  find_victims' ps 0 s = Some (nr_found, pages_found, s1) →
  scan_and_kill_begin' ps s = Some r →
  MIN_FREE_PAGES < pages_found →
  (k < length (selected r))%nat →
  wrap_ulong (sum_sizes (take k (selected r))) < MIN_FREE_PAGES ∧
  (sum_sizes (take (Z.to_nat nr_found) (victims s1)) < 2 ^ ULONG_BITS →
     sum_sizes (take k (selected r)) < MIN_FREE_PAGES).
Proof.
  intros Hlen Hemp Hfv Hr Hpf Hk.
  destruct (find_victims_spec MIN_FREE_PAGES SIGNAL_GROUP_EXIT
              SIGNAL_GROUP_COREDUMP PF_EXITING ps s Hlen Hemp)
    as (nr & pf & tbl & locks & rest & Hfv' & Hnr & Hl & Hdr & Hcs & Hst & Hpf' & Hlk).
  rewrite Hfv in Hfv'. injection Hfv' as -> -> ->.
  cbn [victims emit set_victims].
  set (found := take (Z.to_nat nr) tbl) in *.
  destruct (decide (nr = 0)) as [Hz|Hnz].
  { unfold scan_and_kill_begin in Hr. rewrite Hfv, Hz in Hr.
    injection Hr as <-. cbn in Hk. lia. }
  destruct (scan_and_kill_begin_shape MIN_FREE_PAGES SIGNAL_GROUP_EXIT
              SIGNAL_GROUP_COREDUMP PF_EXITING ps s nr pf _ Hfv)
    as (s2 & Hr2 & Hpub & _); [cbn; lia|].
  rewrite Hr in Hr2. injection Hr2 as ->.
  cbn [selected] in *. fold (published s2) in Hk |- *.
  cbn [victims emit set_victims] in Hpub. fold found in Hpub.
  assert ((pf >? MIN_FREE_PAGES) = true) as Htwo by lia.
  rewrite Htwo in Hpub.
  set (c1 := chosen' 0 found) in *. set (l1 := sort victim_cmp c1) in *.
  rewrite Hpub in Hk |- *.
  assert (Htk : take k (chosen' 0 l1) = take k l1).
  { rewrite (chosen_prefix MIN_FREE_PAGES 0 l1), take_take. f_equal. lia. }
  pose proof (chosen_below MIN_FREE_PAGES 0 l1 k Hk) as Hbelow.
  rewrite add_sizes_wrap in Hbelow by (unfold ULONG_BITS; lia).
  rewrite Z.add_0_l in Hbelow. rewrite Htk.
  split; [exact Hbelow|]. intros Hfit.
  pose proof (candidates_nonneg SIGNAL_GROUP_EXIT SIGNAL_GROUP_COREDUMP PF_EXITING
                ps) as Hnn.
  rewrite <- Hcs in Hnn. apply Forall_app in Hnn as [Hnnf _].
  assert (Hnn1 : Forall (fun v => 0 <= size v) c1)
    by (apply chosen_Forall; exact Hnnf).
  assert (Hnnl : Forall (fun v => 0 <= size v) l1)
    by (unfold l1; rewrite sort_Permutation; exact Hnn1).
  pose proof (sum_sizes_take_le l1 k Hnnl) as H1.
  assert (H2 : sum_sizes l1 = sum_sizes c1)
    by (apply sum_sizes_Permutation, sort_Permutation).
  assert (H3 : 0 <= sum_sizes c1 <= sum_sizes found).
  { unfold c1. rewrite (chosen_prefix MIN_FREE_PAGES 0 found).
    apply sum_sizes_take_le. exact Hnnf. }
  rewrite wrap_ulong_small in Hbelow by lia. exact Hbelow.
Qed.

(** X9. The second pass keeps the largest victims of the first
    selection.  When all the candidates' sizes are below [2^31] and the
    two passes run, the victims selected by the first pass, re-sorted,
    are in non-increasing order of size; the victims finally killed are
    a prefix of that list and the others are released: every victim
    killed is at least as large as every victim the second pass
    released. *)
Theorem second_pass_keeps_largest (ps : list task_struct) (s : state)
    (nr_found pages_found : Z) (s1 : state) (r : scan_outcome) :
  Z.of_nat (length (victims s)) = MAX_VICTIMS →
  task_bucket s = ∅ →
  Forall small_size (candidates' ps) →
  find_victims' ps 0 s = Some (nr_found, pages_found, s1) →
  scan_and_kill_begin' ps s = Some r →
  MIN_FREE_PAGES < pages_found →
  ∃ released,
    selected r ++ released
      ≡ₚ chosen' 0 (take (Z.to_nat nr_found) (victims s1)) ∧
    (∀ i j x y, (i < j)%nat →
       (selected r ++ released) !! i = Some x →
       (selected r ++ released) !! j = Some y → size y <= size x) ∧
    (∀ x y, x ∈ selected r → y ∈ released → size y <= size x).
Proof.
  intros Hlen Hemp Hsmall Hfv Hr Hpf.
  destruct (find_victims_spec MIN_FREE_PAGES SIGNAL_GROUP_EXIT
              SIGNAL_GROUP_COREDUMP PF_EXITING ps s Hlen Hemp)
    as (nr & pf & tbl & locks & rest & Hfv' & Hnr & Hl & Hdr & Hcs & Hst & Hpf' & Hlk).
  rewrite Hfv in Hfv'. injection Hfv' as -> -> ->.
  cbn [victims emit set_victims].
  set (found := take (Z.to_nat nr) tbl) in *.
  destruct (decide (nr = 0)) as [Hz|Hnz].
  { unfold scan_and_kill_begin in Hr. rewrite Hfv, Hz in Hr.
    injection Hr as <-. exists []. cbn [selected app].
    assert (Hf0 : found = []) by (unfold found; rewrite Hz; apply take_0).
    rewrite Hf0. cbn [chosen]. split; [reflexivity|].
    split; [intros i j x y _ Hx; rewrite lookup_nil in Hx; discriminate|].
    intros x y Hx. apply elem_of_nil in Hx. contradiction. }
  destruct (scan_and_kill_begin_shape MIN_FREE_PAGES SIGNAL_GROUP_EXIT
              SIGNAL_GROUP_COREDUMP PF_EXITING ps s nr pf _ Hfv)
    as (s2 & Hr2 & Hpub & _); [cbn; lia|].
  rewrite Hr in Hr2. injection Hr2 as ->.
  cbn [selected]. fold (published s2).
  cbn [victims emit set_victims] in Hpub. fold found in Hpub.
  assert ((pf >? MIN_FREE_PAGES) = true) as Htwo by lia.
  rewrite Htwo in Hpub.
  set (c1 := chosen' 0 found) in *. set (l1 := sort victim_cmp c1) in *.
  rewrite Hpub.
  assert (Hsm1 : Forall small_size c1).
  { apply chosen_Forall. rewrite <- Hcs in Hsmall.
    apply Forall_app in Hsmall as [Hs _]. exact Hs. }
  exists (drop (length (chosen' 0 l1)) l1).
  rewrite chosen_split.
  assert (Hdesc : ∀ i j x y, (i < j)%nat →
            l1 !! i = Some x → l1 !! j = Some y → size y <= size x).
  { intros i j x y Hij Hx Hy.
    exact (sort_victim_cmp_descending c1 i j x y Hsm1 Hij Hx Hy). }
  split; [apply sort_Permutation|]. split; [exact Hdesc|].
  intros x y Hx Hy.
  rewrite (chosen_prefix MIN_FREE_PAGES 0 l1) in Hx.
  apply list_elem_of_lookup in Hx as (i & Hi).
  apply list_elem_of_lookup in Hy as (j & Hj).
  apply lookup_take_Some in Hi as [Hi Hilt].
  rewrite lookup_drop in Hj.
  apply (Hdesc i (length (chosen' 0 l1) + j)%nat x y); [lia|exact Hi|exact Hj].
Qed.

End AfterCycle.

(** ** Completion *)

(** One confirmation: the completion is signalled when the counter
    reaches the published count. *)
Lemma confirm_done j v m s :
  window_inv s →
  (j < Z.to_nat (nr_victims s))%nat → victims s !! j = Some v → mm v = Some m →
  reclaim_done (confirm j v s)
    = (if nr_killed s + 1 =? nr_victims s then reclaim_done s + 1 else reclaim_done s) ∧
  trace (confirm j v s)
    = trace s ++ (if nr_killed s + 1 =? nr_victims s then [complete] else []) ∧
  mm_free_lock (confirm j v s) = mm_free_lock s.
Proof.
  intros (H0 & Hle & Hnv & Hmax) Hj Hv Hm.
  assert (Hk : to_int (nr_killed s + 1) = nr_killed s + 1).
  { apply to_int_small. unfold pending in Hle. unfold MAX_VICTIMS in Hmax. lia. }
  unfold confirm. cbn [nr_killed nr_victims set_victims set_nr_killed].
  rewrite Hk.
  destruct (nr_killed s + 1 =? nr_victims s);
    cbn [reclaim_done trace mm_free_lock set_reclaim_done emit set_nr_killed
         set_victims];
    [|rewrite app_nil_r]; repeat split; reflexivity.
Qed.

Lemma pending_nonneg s : 0 <= pending s.
Proof. unfold pending. lia. Qed.

Lemma simple_lmk_mm_freed_done tr0 m s :
  window_done tr0 s → window_done tr0 (simple_lmk_mm_freed m s).
Proof.
  intros (Hinv & Heq & Hlock & Hrd & Htr).
  unfold simple_lmk_mm_freed. rewrite Hlock.
  destruct (mm_freed_loop_cases (Z.to_nat (nr_victims s)) 0 m s)
    as [[-> _]|(j & v & Hj & Hv & Hm & ->)].
  { exact (conj Hinv (conj Heq (conj Hlock (conj Hrd Htr)))). }
  destruct (confirm_step j v m s Hinv) as (Hk & Hn & Hp & Hinv');
    [lia|exact Hv|exact Hm|].
  destruct (confirm_done j v m s Hinv) as (Hrd' & Htr' & Hlock');
    [lia|exact Hv|exact Hm|].
  pose proof (pending_nonneg (confirm j v s)) as Hp0.
  assert (Hpos : 0 < nr_victims s) by lia.
  assert (Hbefore : ((0 <? nr_victims s) && (pending s =? 0)) = false).
  { apply andb_false_iff. right. apply Z.eqb_neq. lia. }
  rewrite Hbefore in Hrd, Htr. rewrite app_nil_r in Htr.
  split; [exact Hinv'|]. split; [lia|]. split; [congruence|].
  rewrite Hrd', Htr', Hn, Hp, Hrd, Htr.
  assert ((0 <? nr_victims s) = true) as -> by lia. cbn [andb].
  destruct (nr_killed s + 1 =? nr_victims s) eqn:E.
  - assert ((pending s - 1 =? 0) = true) as -> by lia. split; reflexivity.
  - assert ((pending s - 1 =? 0) = false) as -> by lia. split; reflexivity.
Qed.

Lemma deliver_freed_done tr0 ms s :
  window_done tr0 s → window_done tr0 (deliver_freed ms s).
Proof.
  unfold deliver_freed. revert s.
  induction ms as [|m ms IH]; intros s Hs; cbn [fold_left]; [exact Hs|].
  apply IH, simple_lmk_mm_freed_done, Hs.
Qed.

Lemma filter_all_length {A} (P : A → Prop) `{∀ x, Decision (P x)} (l : list A) :
  Forall P l → length (filter P l) = length l.
Proof.
  induction 1 as [|x l Hx _ IH]; [reflexivity|].
  rewrite filter_cons_True by exact Hx. cbn [length]. f_equal. exact IH.
Qed.

Section Completion.
Variable MIN_FREE_PAGES : Z.
Variables SIGNAL_GROUP_EXIT SIGNAL_GROUP_COREDUMP PF_EXITING : Z.

Local Abbreviation candidates' :=
  (candidates SIGNAL_GROUP_EXIT SIGNAL_GROUP_COREDUMP PF_EXITING).
Local Abbreviation find_victims' :=
  (find_victims MIN_FREE_PAGES SIGNAL_GROUP_EXIT SIGNAL_GROUP_COREDUMP PF_EXITING).
Local Abbreviation scan_and_kill_begin' :=
  (scan_and_kill_begin MIN_FREE_PAGES SIGNAL_GROUP_EXIT SIGNAL_GROUP_COREDUMP
     PF_EXITING).
Local Abbreviation scan_and_kill' :=
  (scan_and_kill MIN_FREE_PAGES SIGNAL_GROUP_EXIT SIGNAL_GROUP_COREDUMP
     PF_EXITING).

(** When the count is published every published victim is pending. *)
Lemma window_opens ps s s2 :
  Z.of_nat (length (victims s)) = MAX_VICTIMS →
  task_bucket s = ∅ →
  nr_killed s = 0 → reclaim_done s = 0 →
  scan_and_kill_begin' ps s = Some (awaiting s2) →
  0 <= nr_victims s2 ∧
  nr_killed s2 = 0 ∧
  pending s2 = nr_victims s2 ∧
  window_done (trace s2) s2.
Proof.
  intros Hlen Hemp Hk0 Hrd0 Hbegin.
  destruct (scan_and_kill_begin_total MIN_FREE_PAGES SIGNAL_GROUP_EXIT
              SIGNAL_GROUP_COREDUMP PF_EXITING ps s Hlen Hemp)
    as (r & Hr & Hl & Hb & Hn & Hnk & Hw & Hcase).
  rewrite Hbegin in Hr. injection Hr as <-. cbn [outcome_state] in *.
  destruct Hcase as [Hnv Hlock].
  destruct (selected_of_candidates MIN_FREE_PAGES SIGNAL_GROUP_EXIT
              SIGNAL_GROUP_COREDUMP PF_EXITING ps s Hlen Hemp)
    as (r & spared & Hr & Hsp & _).
  rewrite Hbegin in Hr. injection Hr as <-. cbn [selected] in Hsp.
  fold (published s2) in Hsp.
  assert (Hhas : Forall (fun v => has_mm v = true) (published s2)).
  { apply Forall_forall. intros v Hv.
    assert (Hc : v ∈ candidates' ps)
      by (rewrite <- Hsp; apply elem_of_app; left; exact Hv).
    destruct (candidates_elem SIGNAL_GROUP_EXIT SIGNAL_GROUP_COREDUMP PF_EXITING
                ps v Hc) as (p & vtsk & vmm & _ & _ & _ & _ & ->).
    reflexivity. }
  assert (Hpend : pending s2 = nr_victims s2).
  { unfold pending. rewrite (filter_all_length _ _ Hhas).
    unfold published. rewrite length_take. lia. }
  (* the completion count is untouched until the window opens *)
  destruct (find_victims_spec MIN_FREE_PAGES SIGNAL_GROUP_EXIT
              SIGNAL_GROUP_COREDUMP PF_EXITING ps s Hlen Hemp)
    as (nr & pf & tbl & locks & rest & Hfv & Hnr & Hlt & _).
  assert (Hnz : nr ≠ 0).
  { intros Hz. unfold scan_and_kill_begin in Hbegin. rewrite Hfv, Hz in Hbegin.
    discriminate. }
  destruct (scan_and_kill_begin_shape MIN_FREE_PAGES SIGNAL_GROUP_EXIT
              SIGNAL_GROUP_COREDUMP PF_EXITING ps s nr pf _ Hfv)
    as (s2' & Hr2 & _ & _ & _ & _ & Hrd & _); [cbn; lia|].
  rewrite Hbegin in Hr2. injection Hr2 as <-.
  cbn [reclaim_done emit set_victims] in Hrd.
  assert (Hk2 : nr_killed s2 = 0) by congruence.
  split; [lia|]. split; [exact Hk2|]. split; [exact Hpend|].
  unfold window_done, window_inv. rewrite Hk2, Hpend, Hrd, Hrd0, Hl.
  assert (((0 <? nr_victims s2) && (nr_victims s2 =? 0)) = false) as ->.
  { destruct (0 <? nr_victims s2) eqn:E; [|reflexivity].
    cbn [andb]. apply Z.eqb_neq. lia. }
  rewrite app_nil_r. repeat split; try reflexivity; try assumption; lia.
Qed.

End Completion.

(** ** The wait and the clean-up, apart *)

Lemma scan_and_kill_end_split s :
  scan_and_kill_end s = scan_and_kill_cleanup (scan_and_kill_wait s).
Proof. reflexivity. Qed.

Lemma scan_and_kill_wait_frame s :
  victims (scan_and_kill_wait s) = victims s ∧
  nr_victims (scan_and_kill_wait s) = nr_victims s ∧
  nr_killed (scan_and_kill_wait s) = nr_killed s ∧
  mm_free_lock (scan_and_kill_wait s) = mm_free_lock s ∧
  pending (scan_and_kill_wait s) = pending s.
Proof.
  unfold scan_and_kill_wait, pending, published. cbn [emit reclaim_done].
  destruct (0 <? reclaim_done s); repeat split; reflexivity.
Qed.

Lemma scan_and_kill_wait_trace s :
  trace (scan_and_kill_wait s)
  = trace s ++ wait_for_completion_timeout
      :: (if 0 <? reclaim_done s then [] else [pr_info_timeout]).
Proof.
  unfold scan_and_kill_wait. cbn [emit reclaim_done].
  destruct (0 <? reclaim_done s); cbn [trace emit set_reclaim_done];
    rewrite <- ?app_assoc; reflexivity.
Qed.

Lemma scan_and_kill_cleanup_trace s :
  trace (scan_and_kill_cleanup s) = trace s ++ [write_lock; write_unlock].
Proof.
  unfold scan_and_kill_cleanup.
  cbn [trace emit set_reclaim_done set_nr_killed set_nr_victims set_mm_free_lock].
  rewrite <- app_assoc. reflexivity.
Qed.

(** Once no published victim is pending the notifications change
    nothing. *)
Lemma deliver_freed_settled ms s :
  window_inv s → pending s = 0 → deliver_freed ms s = s.
Proof.
  intros Hinv Hp. induction ms as [|m ms IH]; [reflexivity|].
  unfold deliver_freed. cbn [fold_left].
  destruct (simple_lmk_mm_freed_step m s Hinv) as (_ & _ & _ & Hsame).
  rewrite Hsame; [exact IH|].
  right. intros Hin. apply list_elem_of_fmap in Hin as (v & Hm & Hv).
  assert (Hf : v ∈ filter (fun v => has_mm v = true) (published s)).
  { apply list_elem_of_filter. split; [|exact Hv].
    unfold has_mm. rewrite <- Hm. reflexivity. }
  unfold pending in Hp.
  destruct (filter (fun v => has_mm v = true) (published s)); [|discriminate].
  apply elem_of_nil in Hf. exact Hf.
Qed.

Section CompletionGap.
Variable MIN_FREE_PAGES : Z.
Variables SIGNAL_GROUP_EXIT SIGNAL_GROUP_COREDUMP PF_EXITING : Z.

Local Abbreviation scan_and_kill_begin' :=
  (scan_and_kill_begin MIN_FREE_PAGES SIGNAL_GROUP_EXIT SIGNAL_GROUP_COREDUMP
     PF_EXITING).
Local Abbreviation scan_and_kill' :=
  (scan_and_kill MIN_FREE_PAGES SIGNAL_GROUP_EXIT SIGNAL_GROUP_COREDUMP
     PF_EXITING).
Local Abbreviation scan_and_kill_gap' :=
  (scan_and_kill_gap MIN_FREE_PAGES SIGNAL_GROUP_EXIT SIGNAL_GROUP_COREDUMP
     PF_EXITING).

(** X6. The completion a cycle waits for is signalled at most once,
    by the notification that confirms the last published victim,
    wherever that notification falls.  Take a cycle from an idle state,
    [freed] the address spaces reported freed before the wait ends and
    [gap] those reported after the wait has ended and before the
    clean-up takes the write lock.  All the victims published are
    pending at first, and the counter and the pending victims add up
    to the published count until the clean-up.  The notifications
    before the end of the wait add one [complete] to the trace when
    (and only when) none is pending after them; the wait then ends
    without the timeout line, and with that line in every other case.
    After a timeout the notifications of the gap still add one
    [complete] when they confirm the last pending victim, and nothing
    otherwise: the timeout line and the completion can both occur in
    one cycle.  The clean-up then drops the completion with the
    counters.  With no notification in the gap this is
    [scan_and_kill]. *)
Theorem completion_on_last_confirmation (ps : list task_struct)
    (freed gap : list Z) (s s2 : state) :
  Z.of_nat (length (victims s)) = MAX_VICTIMS →
  task_bucket s = ∅ →
  nr_killed s = 0 → reclaim_done s = 0 →
  scan_and_kill_begin' ps s = Some (awaiting s2) →
  let a := deliver_freed freed s2 in
  let b := scan_and_kill_wait a in
  let c := deliver_freed gap b in
  let in_time := (0 <? nr_victims s2) && (pending a =? 0) in
  let late := negb in_time && (0 <? nr_victims s2) && (pending c =? 0) in
  pending s2 = nr_victims s2 ∧
  nr_killed a + pending a = nr_victims s2 ∧
  nr_killed c + pending c = nr_victims s2 ∧
  trace a = trace s2 ++ (if in_time then [complete] else []) ∧
  trace b = trace a ++ wait_for_completion_timeout
              :: (if in_time then [] else [pr_info_timeout]) ∧
  trace c = trace b ++ (if late then [complete] else []) ∧
  reclaim_done c = (if late then 1 else 0) ∧
  scan_and_kill_gap' ps freed gap s = Some (scan_and_kill_cleanup c) ∧
  trace (scan_and_kill_cleanup c) = trace c ++ [write_lock; write_unlock] ∧
  nr_victims (scan_and_kill_cleanup c) = 0 ∧
  nr_killed (scan_and_kill_cleanup c) = 0 ∧
  reclaim_done (scan_and_kill_cleanup c) = 0 ∧
  scan_and_kill_gap' ps freed [] s = scan_and_kill' ps freed s.
Proof.
  intros Hlen Hemp Hk0 Hrd0 Hbegin a b c in_time late.
  destruct (window_opens MIN_FREE_PAGES SIGNAL_GROUP_EXIT SIGNAL_GROUP_COREDUMP
              PF_EXITING ps s s2 Hlen Hemp Hk0 Hrd0 Hbegin)
    as (Hnv & Hk2 & Hpend & Hdone).
  destruct (deliver_freed_done (trace s2) freed s2 Hdone)
    as (Hinv & Heq & Hlock & Hrd & Htr).
  fold a in Hinv, Heq, Hlock, Hrd, Htr.
  destruct (deliver_freed_frame freed s2) as (_ & _ & Hn & _).
  fold a in Hn. rewrite Hn in Heq, Hrd, Htr.
  fold in_time in Hrd, Htr.
  destruct (scan_and_kill_wait_frame a) as (Hbv & Hbn & Hbk & Hbl & Hbp).
  fold b in Hbv, Hbn, Hbk, Hbl, Hbp.
  assert (Hinvb : window_inv b).
  { unfold window_inv. rewrite Hbv, Hbn, Hbk, Hbp. exact Hinv. }
  assert (Htb : trace b = trace a ++ wait_for_completion_timeout
                            :: (if in_time then [] else [pr_info_timeout])
                ∧ reclaim_done b = 0).
  { unfold b, scan_and_kill_wait. cbn [emit reclaim_done]. rewrite Hrd.
    destruct in_time; cbn [Z.ltb Z.compare];
      cbn [trace emit set_reclaim_done reclaim_done];
      rewrite <- ?app_assoc; (split; [reflexivity|rewrite ?Hrd; reflexivity]). }
  destruct Htb as [Htb Hrb].
  assert (Hc : nr_killed c + pending c = nr_victims s2 ∧
               trace c = trace b ++ (if late then [complete] else []) ∧
               reclaim_done c = (if late then 1 else 0)).
  { destruct in_time eqn:Ein.
    - (* all confirmed in time: nothing is pending *)
      assert (Hp0 : pending b = 0).
      { rewrite Hbp. unfold in_time in Ein.
        apply andb_true_iff in Ein as [_ Ein]. apply Z.eqb_eq in Ein. exact Ein. }
      unfold c. rewrite (deliver_freed_settled gap b Hinvb Hp0).
      unfold late. cbn [negb andb]. rewrite app_nil_r.
      rewrite Hbk, Hbp. split; [exact Heq|]. split; [reflexivity|exact Hrb].
    - (* timed out: the window is still open *)
      assert (Hdb : window_done (trace b) b).
      { refine (conj Hinvb (conj _ (conj _ (conj _ _)))).
        - rewrite Hbk, Hbp, Hbn, Hn. exact Heq.
        - rewrite Hbl. exact Hlock.
        - rewrite Hbn, Hbp, Hn. fold in_time. rewrite Ein. exact Hrb.
        - rewrite Hbn, Hbp, Hn. fold in_time. rewrite Ein, app_nil_r. reflexivity. }
      destruct (deliver_freed_done (trace b) gap b Hdb)
        as (_ & Heqc & _ & Hrdc & Htrc).
      fold c in Heqc, Hrdc, Htrc.
      destruct (deliver_freed_frame gap b) as (_ & _ & Hnc & _).
      fold c in Hnc. rewrite Hnc, Hbn, Hn in Heqc, Hrdc, Htrc.
      unfold late. cbn [negb andb].
      split; [exact Heqc|]. split; [exact Htrc|exact Hrdc]. }
  destruct Hc as (Hc1 & Hc2 & Hc3).
  split; [exact Hpend|]. split; [exact Heq|]. split; [exact Hc1|].
  split; [exact Htr|]. split; [exact Htb|]. split; [exact Hc2|].
  split; [exact Hc3|].
  split; [unfold scan_and_kill_gap; rewrite Hbegin; reflexivity|].
  split; [apply scan_and_kill_cleanup_trace|].
  split; [reflexivity|]. split; [reflexivity|]. split; [reflexivity|].
  unfold scan_and_kill_gap, scan_and_kill. rewrite Hbegin. reflexivity.
Qed.

End CompletionGap.

(** ** The locks *)

Lemma release_elem t held :
  t ∈ held → ∃ held', release t held = Some held' ∧ held ≡ₚ t :: held'.
Proof.
  induction held as [|h held IH]; intros Hin; [apply elem_of_nil in Hin; contradiction|].
  cbn [release]. destruct (decide (h = t)) as [->|Hne].
  - exists held. split; reflexivity.
  - apply elem_of_cons in Hin as [->|Hin]; [congruence|].
    destruct (IH Hin) as (held' & -> & Hp). cbn [mbind option_bind].
    exists (h :: held'). split; [reflexivity|].
    rewrite Hp. apply perm_swap.
Qed.

Lemma release_Permutation t held rest :
  held ≡ₚ t :: rest → ∃ held', release t held = Some held' ∧ held' ≡ₚ rest.
Proof.
  intros Hp.
  assert (Hin : t ∈ held) by (rewrite Hp; apply list_elem_of_here).
  destruct (release_elem t held Hin) as (held' & Hr & Hp').
  exists held'. split; [exact Hr|].
  apply (Permutation_cons_inv (a := t)). rewrite <- Hp', Hp. reflexivity.
Qed.

Lemma lock_replay_app tr1 tr2 held wr :
  lock_replay (tr1 ++ tr2) held wr
  = r ← lock_replay tr1 held wr; lock_replay tr2 r.1 r.2.
Proof.
  revert held wr. induction tr1 as [|e tr1 IH]; intros held wr; [reflexivity|].
  cbn [app lock_replay]. destruct e; try apply IH.
  - destruct (release t held) as [held'|]; [apply IH|reflexivity].
  - destruct (decide (t ∈ held)); [apply IH|reflexivity].
  - destruct (decide (t ∈ held)); [apply IH|reflexivity].
  - destruct (decide (t ∈ held)); [apply IH|reflexivity].
  - destruct wr; [reflexivity|apply IH].
  - destruct wr; [apply IH|reflexivity].
Qed.

(** Events that are all [task_lock] add their tasks to the locks. *)
Lemma lock_replay_locks tr held wr :
  Forall (fun e => ∃ t, e = task_lock t) tr →
  ∃ held', lock_replay tr held wr = Some (held', wr) ∧
           held' ≡ₚ lock_targets tr ++ held.
Proof.
  intros Htr. revert held.
  induction Htr as [|e tr [t ->] _ IH]; intros held.
  - exists held. split; reflexivity.
  - cbn [lock_replay]. destruct (IH (t :: held)) as (held' & -> & Hp).
    exists held'. split; [reflexivity|].
    rewrite Hp. unfold lock_targets. cbn [omap list_omap].
    symmetry. apply Permutation_middle.
Qed.

Lemma lock_targets_lock_events vs : lock_targets (lock_events vs) = map tsk vs.
Proof. induction vs as [|v vs IH]; [reflexivity|]. cbn. f_equal. exact IH. Qed.

(** Releasing victims whose locks are held. *)
Lemma lock_replay_unlocks vs held wr rest :
  held ≡ₚ map tsk vs ++ rest →
  ∃ held', lock_replay (unlock_events vs) held wr = Some (held', wr) ∧
           held' ≡ₚ rest.
Proof.
  revert held. induction vs as [|v vs IH]; intros held Hp.
  - exists held. split; [reflexivity|exact Hp].
  - cbn [unlock_events map lock_replay].
    destruct (release_Permutation (tsk v) held (map tsk vs ++ rest) Hp)
      as (held1 & -> & Hp1).
    cbn [mbind option_bind]. apply IH. exact Hp1.
Qed.

(** Killing victims whose locks are held: each is signalled with its
    lock held and released afterwards. *)
Lemma lock_replay_kills vs held wr rest :
  held ≡ₚ map tsk vs ++ rest →
  ∃ held', lock_replay (flat_map kill_victim vs) held wr = Some (held', wr) ∧
           held' ≡ₚ rest.
Proof.
  revert held. induction vs as [|v vs IH]; intros held Hp.
  - exists held. split; [reflexivity|exact Hp].
  - cbn [flat_map kill_victim app lock_replay].
    assert (Hin : tsk v ∈ held) by (rewrite Hp; apply list_elem_of_here).
    destruct (decide (tsk v ∈ held)) as [_|Hn]; [|contradiction].
    destruct (release_Permutation (tsk v) held (map tsk vs ++ rest) Hp)
      as (held1 & -> & Hp1).
    cbn [mbind option_bind]. apply IH. exact Hp1.
Qed.

Lemma lock_replay_completes n held wr :
  lock_replay (replicate n complete) held wr = Some (held, wr).
Proof. induction n as [|n IH]; [reflexivity|exact IH]. Qed.

(** Notifications add nothing to the trace but completions. *)
Lemma deliver_freed_trace ms s :
  ∃ n, trace (deliver_freed ms s) = trace s ++ replicate n complete.
Proof.
  unfold deliver_freed. revert s.
  induction ms as [|m ms IH]; intros s; cbn [fold_left].
  - exists 0%nat. cbn. rewrite app_nil_r. reflexivity.
  - destruct (IH (simple_lmk_mm_freed m s)) as (n & ->).
    unfold simple_lmk_mm_freed. destruct (mm_free_lock s); [exists n; reflexivity|].
    destruct (mm_freed_loop_cases (Z.to_nat (nr_victims s)) 0 m s)
      as [[-> _]|(j & v & _ & _ & _ & ->)]; [exists n; reflexivity|].
    unfold confirm. cbn [nr_killed nr_victims set_victims set_nr_killed].
    destruct (_ =? _);
      cbn [trace emit set_reclaim_done set_nr_killed set_victims].
    + exists (S n). rewrite <- app_assoc. reflexivity.
    + exists n. reflexivity.
Qed.

Section Locks.
Variable MIN_FREE_PAGES : Z.
Variables SIGNAL_GROUP_EXIT SIGNAL_GROUP_COREDUMP PF_EXITING : Z.

Local Abbreviation find_victims' :=
  (find_victims MIN_FREE_PAGES SIGNAL_GROUP_EXIT SIGNAL_GROUP_COREDUMP PF_EXITING).
Local Abbreviation scan_and_kill_begin' :=
  (scan_and_kill_begin MIN_FREE_PAGES SIGNAL_GROUP_EXIT SIGNAL_GROUP_COREDUMP
     PF_EXITING).
Local Abbreviation scan_and_kill_gap' :=
  (scan_and_kill_gap MIN_FREE_PAGES SIGNAL_GROUP_EXIT SIGNAL_GROUP_COREDUMP
     PF_EXITING).
Local Abbreviation chosen' := (chosen MIN_FREE_PAGES).

(** X5. The lock discipline of a cycle, [freed] being the address
    spaces reported freed before the wait ends and [gap] those reported
    between the end of the wait and the clean-up.  The calls the whole
    cycle makes are, in order: one [task_lock] for every candidate the
    scan recorded; when none was recorded, the error line and nothing
    else; otherwise one [task_unlock] for every candidate spared, the
    [write_lock] and [write_unlock] around the publication of the
    count, then for every victim killed, in turn, its log line, its
    kill signal, its expediting and its [task_unlock] with nothing in
    between, then the completions, the wait with or without the
    timeout line, the completions of the gap, and the [write_lock] and
    [write_unlock] of the clean-up.  The candidates recorded are the
    victims killed and the candidates spared, so every candidate the
    scan locked is unlocked exactly once, a victim right after it was
    logged, signalled and expedited.  Replayed against the locks the
    calls never release a lock that is not held, never touch a victim
    whose lock is not held, take and release [mm_free_lock] in turn,
    and end with no task lock held and [mm_free_lock] free. *)
Theorem lock_discipline (ps : list task_struct) (freed gap : list Z)
    (s : state) :
  Z.of_nat (length (victims s)) = MAX_VICTIMS →
  task_bucket s = ∅ →
  ∃ nr_found pages_found s1 r s' locks spared n timeout_line n',
    find_victims' ps 0 s = Some (nr_found, pages_found, s1) ∧
    scan_and_kill_begin' ps s = Some r ∧
    scan_and_kill_gap' ps freed gap s = Some s' ∧
    let found := take (Z.to_nat nr_found) (victims s1) in
    let killed := selected r in
    let new :=
      locks ++
      (if nr_found =? 0 then [pr_err_no_processes]
       else unlock_events spared ++ [write_lock; write_unlock]
              ++ flat_map kill_victim killed ++ replicate n complete
              ++ wait_for_completion_timeout :: timeout_line
              ++ replicate n' complete ++ [write_lock; write_unlock]) in
    locks ≡ₚ lock_events found ∧
    found ≡ₚ killed ++ spared ∧
    (timeout_line = [] ∨ timeout_line = [pr_info_timeout]) ∧
    trace s' = trace s ++ new ∧
    lock_replay new [] false = Some ([], false).
Proof.
  intros Hlen Hemp.
  destruct (find_victims_spec MIN_FREE_PAGES SIGNAL_GROUP_EXIT
              SIGNAL_GROUP_COREDUMP PF_EXITING ps s Hlen Hemp)
    as (nr & pf & tbl & locks & rest & Hfv & Hnr & Hl & Hdr & Hcs & Hst & Hpf & Hlk).
  set (s1 := emit locks (set_victims tbl s)) in *.
  set (found := take (Z.to_nat nr) tbl) in *.
  assert (Hlocks : ∃ held, lock_replay locks [] false = Some (held, false) ∧
                           held ≡ₚ map tsk found).
  { destruct (lock_replay_locks locks [] false) as (held & Hrun & Hp).
    - rewrite Hlk. apply Forall_forall. intros e He.
      apply list_elem_of_fmap in He as (v & -> & _). eexists. reflexivity.
    - exists held. split; [exact Hrun|].
      rewrite Hp, app_nil_r. unfold lock_targets. rewrite Hlk.
      fold (lock_targets (lock_events found)).
      rewrite lock_targets_lock_events. reflexivity. }
  destruct Hlocks as (held & Hrun & Hheld).
  destruct (decide (nr = 0)) as [Hz|Hnz].
  - assert (Hf0 : found = []) by (unfold found; rewrite Hz; apply take_0).
    rewrite Hf0 in Hheld. apply Permutation_nil_r in Hheld. subst held.
    exists nr, pf, s1, (no_victims (emit [pr_err_no_processes] s1)),
      (emit [pr_err_no_processes] s1), locks, [], 0%nat, [], 0%nat.
    split; [exact Hfv|].
    split; [unfold scan_and_kill_begin; rewrite Hfv, Hz; reflexivity|].
    split; [unfold scan_and_kill_gap, scan_and_kill_begin; rewrite Hfv, Hz;
            reflexivity|].
    cbn zeta. cbn [victims emit set_victims s1 selected]. fold found.
    rewrite Hz. cbn [Z.eqb].
    split; [exact Hlk|]. split; [rewrite Hf0; reflexivity|].
    split; [left; reflexivity|].
    split; [cbn; rewrite <- app_assoc; reflexivity|].
    rewrite lock_replay_app, Hrun. reflexivity.
  - destruct (scan_and_kill_begin_shape MIN_FREE_PAGES SIGNAL_GROUP_EXIT
                SIGNAL_GROUP_COREDUMP PF_EXITING ps s nr pf s1 Hfv)
      as (s2 & Hr & Hpub & _ & Htr & _); [cbn; lia|].
    cbn [victims emit set_victims s1] in Htr, Hpub. fold found in Htr, Hpub.
    set (c1 := if pf >? MIN_FREE_PAGES then chosen' 0 found else found) in *.
    set (l1 := if pf >? MIN_FREE_PAGES then sort victim_cmp c1 else found) in *.
    set (c2 := if pf >? MIN_FREE_PAGES then chosen' 0 l1 else found) in *.
    assert (H1 : found = c1 ++ drop (length c1) found).
    { unfold c1. destruct (pf >? MIN_FREE_PAGES).
      - symmetry. apply chosen_split.
      - rewrite drop_all, app_nil_r. reflexivity. }
    assert (H2 : l1 ≡ₚ c1).
    { unfold l1. destruct (pf >? MIN_FREE_PAGES); [apply sort_Permutation|].
      unfold c1. reflexivity. }
    assert (H3 : l1 = c2 ++ drop (length c2) l1).
    { unfold c2. destruct (pf >? MIN_FREE_PAGES).
      - symmetry. apply chosen_split.
      - unfold l1. rewrite drop_all, app_nil_r. reflexivity. }
    destruct (deliver_freed_trace freed s2) as (n & Hn).
    set (a := deliver_freed freed s2) in *.
    set (tmo := if 0 <? reclaim_done a then [] else [pr_info_timeout]).
    pose proof (scan_and_kill_wait_trace a) as Hb. fold tmo in Hb.
    set (b := scan_and_kill_wait a) in *.
    destruct (deliver_freed_trace gap b) as (n' & Hn').
    set (c := deliver_freed gap b) in *.
    pose proof (scan_and_kill_cleanup_trace c) as Hend.
    exists nr, pf, s1, (awaiting s2), (scan_and_kill_cleanup c), locks,
      (drop (length c1) found ++ drop (length c2) l1), n, tmo, n'.
    split; [exact Hfv|]. split; [exact Hr|].
    split; [unfold scan_and_kill_gap; rewrite Hr; reflexivity|].
    cbn zeta. cbn [victims emit set_victims s1]. fold found.
    change (selected (awaiting s2)) with (published s2). rewrite Hpub.
    destruct (nr =? 0) eqn:Enr; [apply Z.eqb_eq in Enr; contradiction|].
    split; [exact Hlk|].
    split.
    { rewrite H1 at 1. rewrite <- H2, H3 at 1.
      rewrite <- !app_assoc. apply Permutation_app_head, Permutation_app_comm. }
    split; [unfold tmo; destruct (0 <? reclaim_done a); [left|right]; reflexivity|].
    split.
    { rewrite Hend, Hn', Hb, Hn, Htr. cbn [trace emit set_victims s1].
      unfold unlock_events. rewrite map_app. fold (unlock_events (drop (length c1) found)).
      fold (unlock_events (drop (length c2) l1)).
      rewrite <- !app_assoc. reflexivity. }
    (* the replay, segment by segment *)
    unfold unlock_events. rewrite map_app. fold (unlock_events (drop (length c1) found)).
    fold (unlock_events (drop (length c2) l1)). rewrite <- !app_assoc.
    rewrite lock_replay_app, Hrun. cbn [mbind option_bind fst snd].
    destruct (lock_replay_unlocks (drop (length c1) found) held false (map tsk c1))
      as (held1 & Hrun1 & Hheld1).
    { rewrite Hheld, H1 at 1. rewrite map_app. apply Permutation_app_comm. }
    rewrite lock_replay_app, Hrun1. cbn [mbind option_bind fst snd].
    destruct (lock_replay_unlocks (drop (length c2) l1) held1 false (map tsk c2))
      as (held2 & Hrun2 & Hheld2).
    { rewrite Hheld1, <- H2, H3 at 1. rewrite map_app. apply Permutation_app_comm. }
    rewrite lock_replay_app, Hrun2. cbn [mbind option_bind fst snd].
    cbn [app lock_replay].
    destruct (lock_replay_kills c2 held2 false []) as (held3 & Hrun3 & Hheld3).
    { rewrite app_nil_r. exact Hheld2. }
    apply Permutation_nil_r in Hheld3. subst held3.
    rewrite lock_replay_app, Hrun3. cbn [mbind option_bind fst snd].
    rewrite lock_replay_app, lock_replay_completes. cbn [mbind option_bind fst snd].
    change (wait_for_completion_timeout
              :: tmo ++ replicate n' complete ++ [write_lock; write_unlock])
      with ((wait_for_completion_timeout :: tmo)
              ++ replicate n' complete ++ [write_lock; write_unlock]).
    rewrite lock_replay_app.
    assert (Htmo : lock_replay (wait_for_completion_timeout :: tmo) [] false
                   = Some ([], false))
      by (unfold tmo; destruct (0 <? reclaim_done a); reflexivity).
    rewrite Htmo. cbn [mbind option_bind fst snd].
    rewrite lock_replay_app, lock_replay_completes. reflexivity.
Qed.

End Locks.

(** ** The order of the table *)

(** The table after a chain was stored at [vindex] and its slice
    sorted. *)
Lemma sorted_slice (T : list victim_info) (vindex : Z) (new1 : list victim_info) :
  0 <= vindex →
  vindex + Z.of_nat (length new1) <= Z.of_nat (length T) →
  sort_victims vindex (vindex + Z.of_nat (length new1))
    (take (Z.to_nat vindex) T ++ new1
     ++ drop (Z.to_nat (vindex + Z.of_nat (length new1))) T)
  = take (Z.to_nat vindex) T ++ sort victim_cmp new1
    ++ drop (Z.to_nat (vindex + Z.of_nat (length new1))) T.
Proof.
  intros H0 Hlen. unfold sort_victims.
  replace (Z.to_nat (vindex + Z.of_nat (length new1) - vindex))
    with (length new1) by lia.
  set (A := take (Z.to_nat vindex) T).
  set (C := drop (Z.to_nat (vindex + Z.of_nat (length new1))) T).
  assert (HA : length A = Z.to_nat vindex) by (unfold A; rewrite length_take; lia).
  rewrite <- HA at 1 2 3.
  rewrite take_app_length, drop_app_length, take_app_length.
  rewrite (app_assoc A new1 C).
  replace (length A + length new1)%nat with (length (A ++ new1))
    by apply length_app.
  rewrite drop_app_length. reflexivity.
Qed.

Lemma sorted_slice_lookup (A C new1 : list victim_info) k :
  (k < length new1)%nat →
  (A ++ sort victim_cmp new1 ++ C) !! (length A + k)%nat
  = sort victim_cmp new1 !! k.
Proof.
  intros Hk. rewrite lookup_app_r by lia.
  replace (length A + k - length A)%nat with k by lia.
  apply lookup_app_l. rewrite sort_length. exact Hk.
Qed.

Lemma descending_replicate_app n i adjs :
  Forall (fun a => a <= i) adjs → descending adjs →
  descending (replicate n i ++ adjs).
Proof.
  intros Hle Hd j k a b Hjk Hj Hk.
  destruct (decide (j < n)%nat) as [Hjn|Hjn].
  - rewrite lookup_app_l in Hj by (rewrite length_replicate; exact Hjn).
    apply lookup_replicate in Hj as [-> _].
    destruct (decide (k < n)%nat) as [Hkn|Hkn].
    + rewrite lookup_app_l in Hk by (rewrite length_replicate; exact Hkn).
      apply lookup_replicate in Hk as [-> _]. lia.
    + rewrite lookup_app_r in Hk by (rewrite length_replicate; lia).
      exact (Forall_lookup_1 _ _ _ _ Hle Hk).
  - rewrite lookup_app_r in Hj by (rewrite length_replicate; lia).
    rewrite lookup_app_r in Hk by (rewrite length_replicate; lia).
    rewrite length_replicate in Hj, Hk.
    apply (Hd (j - n)%nat (k - n)%nat); [lia|exact Hj|exact Hk].
Qed.

Lemma take_add_split {A} (l : list A) n m :
  (n ≤ length l)%nat → take (n + m) l = take n l ++ take m (drop n l).
Proof.
  intros Hn. rewrite <- (take_drop n l) at 1.
  apply take_app_add'. rewrite length_take. lia.
Qed.

Section Order.
Variable MIN_FREE_PAGES : Z.
Variables SIGNAL_GROUP_EXIT SIGNAL_GROUP_COREDUMP PF_EXITING : Z.

Local Abbreviation skip_task' :=
  (skip_task SIGNAL_GROUP_EXIT SIGNAL_GROUP_COREDUMP PF_EXITING).
Local Abbreviation for_each_process' :=
  (for_each_process SIGNAL_GROUP_EXIT SIGNAL_GROUP_COREDUMP PF_EXITING).
Local Abbreviation candidates' :=
  (candidates SIGNAL_GROUP_EXIT SIGNAL_GROUP_COREDUMP PF_EXITING).
Local Abbreviation find_victims' :=
  (find_victims MIN_FREE_PAGES SIGNAL_GROUP_EXIT SIGNAL_GROUP_COREDUMP PF_EXITING).
Local Abbreviation adj_labels' :=
  (adj_labels SIGNAL_GROUP_EXIT SIGNAL_GROUP_COREDUMP PF_EXITING).

(** The walk over the buckets fills the table bucket by bucket, from
    the highest index down. *)
Lemma bucket_walk_order n i min_adj vindex pages_found s :
  Z.of_nat (length (victims s)) = MAX_VICTIMS →
  0 <= vindex < MAX_VICTIMS →
  0 <= pages_found < 2 ^ ULONG_BITS →
  buckets_within min_adj i (task_bucket s) →
  n = Z.to_nat (i - min_adj + 1) →
  ∃ adjs pages_found' s',
    bucket_walk MIN_FREE_PAGES n i min_adj vindex pages_found s
      = Some (vindex + Z.of_nat (length adjs), pages_found', s') ∧
    length (victims s') = length (victims s) ∧
    take (Z.to_nat vindex) (victims s') = take (Z.to_nat vindex) (victims s) ∧
    Forall (fun a => a <= i) adjs ∧
    descending adjs ∧
    bucket_labels (task_bucket s) (victims s') (Z.to_nat vindex) adjs ∧
    (∀ a c t v a',
       task_bucket s !! a = Some c → t ∈ c → victim_of t = Some v →
       a' ∈ adjs → a' < a →
       ∃ k, (k < length adjs)%nat ∧
            victims s' !! (Z.to_nat vindex + k)%nat = Some v) ∧
    (Forall small_size (omap victim_of (bucket_tasks (task_bucket s))) →
     ∀ j k a x y, (j < k)%nat → adjs !! j = Some a → adjs !! k = Some a →
       victims s' !! (Z.to_nat vindex + j)%nat = Some x →
       victims s' !! (Z.to_nat vindex + k)%nat = Some y → size y <= size x) ∧
    (∀ k a a', adjs !! k = Some a → adjs !! S k = Some a' → a' < a →
       wrap_ulong (pages_found
                   + sum_sizes (take (S k) (drop (Z.to_nat vindex) (victims s'))))
         < MIN_FREE_PAGES ∧
       vindex + Z.of_nat (S k) < MAX_VICTIMS).
Proof.
  revert i vindex pages_found s.
  induction n as [|n IH]; intros i vindex pages_found s Hlen Hv Hpf Hb Hn;
    cbn [bucket_walk].
  - exists [], pages_found, s. cbn [length]. rewrite Z.add_0_r.
    split; [reflexivity|]. split; [reflexivity|]. split; [reflexivity|].
    split; [constructor|].
    split; [intros j k a b _ Hj; rewrite lookup_nil in Hj; discriminate|].
    split; [intros k a Hk; rewrite lookup_nil in Hk; discriminate|].
    split; [intros a c t v a' _ _ _ Hin; apply elem_of_nil in Hin; contradiction|].
    split; [intros _ j k a x y _ Hj; rewrite lookup_nil in Hj; discriminate|].
    intros k a a' Hk. rewrite lookup_nil in Hk. discriminate.
  - destruct (task_bucket s !! i) as [[|t0 chain]|] eqn:Hbi.
    + destruct (Hb i [] Hbi) as [Hne _]. congruence.
    + (* a chain hangs off bucket [i] *)
      set (cc := omap victim_of (t0 :: chain)).
      set (b1 := delete i (task_bucket s)).
      assert (Hb1 : buckets_within min_adj (i - 1) b1)
        by (apply buckets_within_delete; exact Hb).
      assert (Hcands : omap victim_of (bucket_tasks (task_bucket s))
                       ≡ₚ cc ++ omap victim_of (bucket_tasks b1)).
      { rewrite (bucket_tasks_delete _ i _ Hbi), omap_app. reflexivity. }
      assert (Hsub : ∀ a c, b1 !! a = Some c → task_bucket s !! a = Some c).
      { intros a c Hac. apply lookup_delete_Some in Hac as [_ Hac]. exact Hac. }
      assert (Hcc : ∀ v, v ∈ cc → ∃ t, t ∈ t0 :: chain ∧ victim_of t = Some v).
      { intros v Hv'. apply list_elem_of_omap in Hv'. exact Hv'. }
      rewrite bucket_chain_spec by (cbn; assumption).
      fold cc. set (new1 := take (Z.to_nat (MAX_VICTIMS - vindex)) cc).
      set (v1 := vindex + Z.of_nat (length new1)).
      cbn [mbind option_bind victims set_task_bucket].
      set (T2 := take (Z.to_nat vindex) (victims s) ++ new1
                 ++ drop (Z.to_nat v1) (victims s)).
      assert (Hlen1 : Z.of_nat (length new1) <= MAX_VICTIMS - vindex).
      { unfold new1. rewrite length_take. lia. }
      assert (HlenA : length (take (Z.to_nat vindex) (victims s)) = Z.to_nat vindex)
        by (rewrite length_take; lia).
      assert (HlenT2 : length T2 = length (victims s)).
      { unfold T2. rewrite !length_app, length_take, length_drop. unfold v1. lia. }
      assert (Hnew_cc : ∀ v, v ∈ new1 → v ∈ cc).
      { intros v Hv'. unfold new1 in Hv'.
        apply list_elem_of_lookup in Hv' as (k & Hk).
        apply lookup_take_Some in Hk as [Hk _].
        apply list_elem_of_lookup. exists k. exact Hk. }
      destruct (v1 =? vindex) eqn:E1; [apply Z.eqb_eq in E1|apply Z.eqb_neq in E1].
      * (* nothing was found in this bucket *)
        assert (Hnil : new1 = []).
        { apply length_zero_iff_nil. unfold v1 in E1. lia. }
        assert (Hc : cc = []).
        { apply length_zero_iff_nil.
          assert (Hl0 : length new1 = 0%nat) by (rewrite Hnil; reflexivity).
          unfold new1 in Hl0. rewrite length_take in Hl0. lia. }
        assert (HT2 : T2 = victims s).
        { unfold T2. rewrite Hnil, E1. cbn [app]. apply take_drop. }
        rewrite E1.
        match goal with |- context [bucket_walk _ n _ _ _ ?p ?s2] =>
          destruct (IH (i - 1) vindex p s2)
            as (adjs & pf' & s' & Hrun & Hl & Htk & Hle & Hd & Hlab & Hpri & Hsz & Hdep)
        end.
        { cbn. rewrite HlenT2. exact Hlen. }
        { exact Hv. }
        { rewrite Hnil. cbn. exact Hpf. }
        { cbn. exact Hb1. }
        { lia. }
        rewrite Hnil in Hdep. cbn [add_sizes fold_left] in Hdep.
        cbn [victims emit set_victims set_task_bucket task_bucket]
          in Hl, Htk, Hlab, Hpri, Hsz.
        rewrite HT2 in Hl, Htk.
        exists adjs, pf', s'. split; [exact Hrun|]. split; [exact Hl|].
        split; [exact Htk|].
        split; [eapply Forall_impl; [exact Hle|]; cbn; intros; lia|].
        split; [exact Hd|].
        split; [|split; [|split; [|exact Hdep]]].
        -- intros k a Hk. destruct (Hlab k a Hk) as (v & c & t & H1 & H2 & H3 & H4).
           exists v, c, t. split; [exact H1|]. split; [apply Hsub; exact H2|].
           split; assumption.
        -- intros a c t v a' Hac Ht Hvt Ha' Hlt.
           destruct (decide (a = i)) as [->|Hne].
           ++ exfalso. rewrite Hbi in Hac. injection Hac as <-.
              assert (Hin : v ∈ cc)
                by (apply list_elem_of_omap; exists t; split; assumption).
              rewrite Hc in Hin. apply elem_of_nil in Hin. exact Hin.
           ++ apply (Hpri a c t v a'); try assumption.
              unfold b1. rewrite lookup_delete_ne by congruence. exact Hac.
        -- intros Hsmall. apply Hsz.
           rewrite Hcands in Hsmall. apply Forall_app in Hsmall as [_ Hs].
           exact Hs.
      * (* the new slice is sorted *)
        assert (Hnew1 : 0 < Z.of_nat (length new1)) by (unfold v1 in E1; lia).
        assert (HT3 : sort_victims vindex v1 T2
                      = take (Z.to_nat vindex) (victims s) ++ sort victim_cmp new1
                        ++ drop (Z.to_nat v1) (victims s)).
        { unfold T2, v1. apply sorted_slice; [lia|]. lia. }
        set (T3 := sort_victims vindex v1 T2) in *.
        assert (HlenT3 : length T3 = length (victims s)).
        { unfold T3. rewrite sort_victims_length. exact HlenT2. }
        assert (HtakeT3 : take (Z.to_nat vindex) T3 = take (Z.to_nat vindex) (victims s)).
        { rewrite HT3. rewrite <- HlenA at 1. apply take_app_length. }
        assert (Hslice : ∀ k, (k < length new1)%nat →
                  T3 !! (Z.to_nat vindex + k)%nat = sort victim_cmp new1 !! k).
        { intros k Hk. rewrite HT3. rewrite <- HlenA at 1.
          apply sorted_slice_lookup. exact Hk. }
        assert (Hslice_src : ∀ k v, (k < length new1)%nat →
                  T3 !! (Z.to_nat vindex + k)%nat = Some v →
                  ∃ t, t ∈ t0 :: chain ∧ victim_of t = Some v).
        { intros k v Hk Hkv. rewrite (Hslice k Hk) in Hkv.
          apply Hcc, Hnew_cc.
          rewrite <- (sort_Permutation victim_cmp new1).
          apply list_elem_of_lookup. exists k. exact Hkv. }
        assert (Hslice_sz : Forall small_size cc →
                  ∀ j k x y, (j < k)%nat → (k < length new1)%nat →
                  T3 !! (Z.to_nat vindex + j)%nat = Some x →
                  T3 !! (Z.to_nat vindex + k)%nat = Some y → size y <= size x).
        { intros Hs j k x y Hjk Hk Hx Hy.
          rewrite (Hslice j) in Hx by lia. rewrite (Hslice k Hk) in Hy.
          apply (sort_victim_cmp_descending new1 j k x y); try assumption.
          unfold new1. apply Forall_take. exact Hs. }
        destruct ((v1 =? MAX_VICTIMS)
                  || (add_sizes pages_found new1 >=? MIN_FREE_PAGES)) eqn:E2.
        -- (* out of space, or enough pages found *)
           eexists (replicate (length new1) i), _, _.
           rewrite length_replicate. fold v1.
           split; [reflexivity|].
           assert (Hvic : ∀ s0 : state,
                     victims (if i >? min_adj
                              then set_task_bucket
                                     (memset_buckets min_adj (i - min_adj) (task_bucket s0)) s0
                              else s0) = victims s0)
             by (intros s0; destruct (i >? min_adj); reflexivity).
           rewrite Hvic. cbn [victims set_victims].
           split; [exact HlenT3|]. split; [exact HtakeT3|].
           split; [apply Forall_replicate; lia|].
           split.
           { intros j k a b _ Hj Hk.
             apply lookup_replicate in Hj as [-> _].
             apply lookup_replicate in Hk as [-> _]. lia. }
           split.
           { intros k a Hk. apply lookup_replicate in Hk as [-> Hk].
             destruct (lookup_lt_is_Some_2 T3 (Z.to_nat vindex + k)%nat) as [v Hkv];
               [rewrite HlenT3; lia|].
             destruct (Hslice_src k v Hk Hkv) as (t & Ht & Hvt).
             exists v, (t0 :: chain), t. repeat split; assumption. }
           split.
           { intros a c t v a' Hac _ _ Ha' Hlt.
             apply elem_of_replicate in Ha' as [-> _].
             destruct (Hb a c Hac) as [_ ?]. lia. }
           split.
           { intros Hsmall j k a x y Hjk Hj Hk Hx Hy.
             apply lookup_replicate in Hk as [_ Hk].
             apply (Hslice_sz) with (j := j) (k := k); try assumption.
             rewrite Hcands in Hsmall. apply Forall_app in Hsmall as [Hs _]. exact Hs. }
           intros k a a' Hk Hk'.
           apply lookup_replicate in Hk as [-> _].
           apply lookup_replicate in Hk' as [-> _]. lia.
        -- (* on to the next bucket *)
           apply orb_false_iff in E2 as [E2a E2b]. apply Z.eqb_neq in E2a.
           assert (Hall : new1 = cc).
           { unfold new1. apply take_ge.
             assert (Hl1 : length new1
                           = Init.Nat.min (Z.to_nat (MAX_VICTIMS - vindex)) (length cc))
               by (unfold new1; apply length_take).
             unfold v1 in E2a. lia. }
           assert (Hpf1 : add_sizes pages_found new1
                          = wrap_ulong (pages_found + sum_sizes new1))
             by (apply add_sizes_wrap; exact Hpf).
           match goal with |- context [bucket_walk _ n _ _ _ ?p ?s3] =>
             destruct (IH (i - 1) v1 p s3)
               as (adjs & pf' & s' & Hrun & Hl & Htk & Hle & Hd & Hlab & Hpri & Hsz & Hdep)
           end.
           { cbn. fold T3. rewrite HlenT3. exact Hlen. }
           { unfold v1. lia. }
           { rewrite Hpf1. apply wrap_ulong_range. }
           { cbn. exact Hb1. }
           { lia. }
           cbn [victims emit set_victims set_task_bucket task_bucket]
             in Hl, Htk, Hlab, Hpri, Hsz.
           fold T3 in Hl, Htk.
           assert (Hv1nat : Z.to_nat v1 = (Z.to_nat vindex + length new1)%nat)
             by (unfold v1; lia).
           assert (Hlow : ∀ k, (k < length new1)%nat →
                     victims s' !! (Z.to_nat vindex + k)%nat
                     = T3 !! (Z.to_nat vindex + k)%nat).
           { intros k Hk.
             rewrite <- (lookup_take_lt (victims s') (Z.to_nat v1)) by lia.
             rewrite Htk. apply lookup_take_lt. lia. }
           exists (replicate (length new1) i ++ adjs), pf', s'.
           rewrite length_app, length_replicate, Nat2Z.inj_add, Z.add_assoc. fold v1.
           split; [exact Hrun|]. split; [rewrite Hl; exact HlenT3|].
           split.
           { rewrite <- HtakeT3.
             transitivity (take (Z.to_nat vindex) (take (Z.to_nat v1) (victims s'))).
             - rewrite take_take. f_equal. lia.
             - rewrite Htk, take_take. f_equal. lia. }
           split.
           { apply Forall_app. split; [apply Forall_replicate; lia|].
             eapply Forall_impl; [exact Hle|]. cbn. intros. lia. }
           split.
           { apply descending_replicate_app; [|exact Hd].
             eapply Forall_impl; [exact Hle|]. cbn. intros. lia. }
           split.
           { intros k a Hk.
             destruct (decide (k < length new1)%nat) as [Hkn|Hkn].
             - rewrite lookup_app_l in Hk by (rewrite length_replicate; exact Hkn).
               apply lookup_replicate in Hk as [-> _].
               destruct (lookup_lt_is_Some_2 T3 (Z.to_nat vindex + k)%nat) as [v Hkv];
                 [rewrite HlenT3; lia|].
               destruct (Hslice_src k v Hkn Hkv) as (t & Ht & Hvt).
               exists v, (t0 :: chain), t. rewrite (Hlow k Hkn).
               repeat split; assumption.
             - rewrite lookup_app_r in Hk by (rewrite length_replicate; lia).
               rewrite length_replicate in Hk.
               destruct (Hlab _ a Hk) as (v & c & t & H1 & H2 & H3 & H4).
               exists v, c, t.
               split; [rewrite <- H1; f_equal; lia|].
               split; [apply Hsub; exact H2|]. split; assumption. }
           split.
           { intros a c t v a' Hac Ht Hvt Ha' Hlt.
             destruct (decide (a = i)) as [->|Hne].
             - rewrite Hbi in Hac. injection Hac as <-.
               assert (Hin : v ∈ sort victim_cmp new1).
               { rewrite sort_Permutation, Hall.
                 apply list_elem_of_omap. exists t. split; assumption. }
               apply list_elem_of_lookup in Hin as (k & Hk).
               assert (Hkn : (k < length new1)%nat).
               { apply lookup_lt_Some in Hk. rewrite sort_length in Hk. exact Hk. }
               exists k. split; [rewrite ?length_app, ?length_replicate; lia|].
               rewrite (Hlow k Hkn), (Hslice k Hkn). exact Hk.
             - destruct (Hb a c Hac) as [_ Hai].
               apply elem_of_app in Ha' as [Ha'|Ha'].
               { apply elem_of_replicate in Ha' as [-> _]. lia. }
               destruct (Hpri a c t v a') as (k & Hk & Hkv); try assumption.
               { unfold b1. rewrite lookup_delete_ne by congruence. exact Hac. }
               exists (length new1 + k)%nat.
               split; [rewrite ?length_app, ?length_replicate; lia|].
               rewrite <- Hkv. f_equal. lia. }
           split.
           { intros Hsmall j k a x y Hjk Hj Hk Hx Hy.
             rewrite Hcands in Hsmall. apply Forall_app in Hsmall as [Hs1 Hs2].
             destruct (decide (k < length new1)%nat) as [Hkn|Hkn].
             - rewrite Hlow in Hx by lia. rewrite Hlow in Hy by lia.
               apply (Hslice_sz Hs1 j k x y); assumption.
             - rewrite lookup_app_r in Hk by (rewrite length_replicate; lia).
               rewrite length_replicate in Hk.
               destruct (decide (j < length new1)%nat) as [Hjn|Hjn].
               + rewrite lookup_app_l in Hj by (rewrite length_replicate; exact Hjn).
                 apply lookup_replicate in Hj as [-> _].
                 pose proof (Forall_lookup_1 _ _ _ _ Hle Hk) as Hlt. cbn in Hlt. lia.
               + rewrite lookup_app_r in Hj by (rewrite length_replicate; lia).
                 rewrite length_replicate in Hj.
                 apply (Hsz Hs2 (j - length new1)%nat (k - length new1)%nat a x y);
                   [lia|exact Hj|exact Hk| |].
                 * rewrite <- Hx. f_equal. lia.
                 * rewrite <- Hy. f_equal. lia. }
           (* where the table passes on to a lower bucket *)
           assert (Hseg : take (length new1) (drop (Z.to_nat vindex) (victims s'))
                          = sort victim_cmp new1).
           { rewrite take_drop_commute, <- Hv1nat, Htk, HT3, Hv1nat.
             set (A := take (Z.to_nat vindex) (victims s)) in *.
             rewrite <- HlenA, app_assoc.
             rewrite <- (sort_length victim_cmp new1) at 1.
             rewrite <- length_app, take_app_length.
             apply drop_app_length. }
           assert (E2b' : add_sizes pages_found new1 < MIN_FREE_PAGES)
             by (rewrite Z.geb_leb in E2b; apply Z.leb_gt in E2b; exact E2b).
           intros k a a' Hk Hk' Hlt.
           destruct (decide (S k < length new1)%nat) as [Hkn|Hkn].
           { rewrite lookup_app_l in Hk by (rewrite length_replicate; lia).
             rewrite lookup_app_l in Hk' by (rewrite length_replicate; lia).
             apply lookup_replicate in Hk as [-> _].
             apply lookup_replicate in Hk' as [-> _]. lia. }
           destruct (decide (S k = length new1)) as [Hke|Hkne].
           { rewrite Hke, Hseg, (sum_sizes_Permutation _ _ (sort_Permutation _ _)).
             rewrite <- Hpf1. split; [exact E2b'|]. unfold v1 in E2a.
             assert (Z.of_nat (length new1) <= MAX_VICTIMS - vindex) by exact Hlen1.
             lia. }
           rewrite lookup_app_r in Hk by (rewrite length_replicate; lia).
           rewrite lookup_app_r in Hk' by (rewrite length_replicate; lia).
           rewrite length_replicate in Hk, Hk'.
           replace (S k - length new1)%nat with (S (k - length new1)) in Hk' by lia.
           destruct (Hdep (k - length new1)%nat a a' Hk Hk' Hlt) as [Hsum Hroom].
           split; [|unfold v1 in Hroom; lia].
           replace (S k) with (length new1 + S (k - length new1))%nat by lia.
           rewrite take_add_split by (rewrite length_drop, Hl, HlenT3; lia).
           rewrite Hseg, drop_drop, <- Hv1nat, sum_sizes_app.
           rewrite (sum_sizes_Permutation _ _ (sort_Permutation _ _)).
           rewrite Z.add_assoc, <- wrap_ulong_add_l, <- Hpf1. exact Hsum.
    + (* an empty bucket *)
      destruct (IH (i - 1) vindex pages_found s)
        as (adjs & pf' & s' & Hrun & Hl & Htk & Hle & Hd & Hlab & Hpri & Hsz & Hdep);
        try assumption; [apply buckets_within_skip; assumption|lia|].
      exists adjs, pf', s'. split; [exact Hrun|]. split; [exact Hl|].
      split; [exact Htk|].
      split; [eapply Forall_impl; [exact Hle|]; cbn; intros; lia|].
      split; [exact Hd|]. split; [exact Hlab|]. split; [exact Hpri|].
      split; [exact Hsz|exact Hdep].
Qed.

(** Where the first loop puts the tasks. *)
Lemma for_each_process_members ps b min_adj max_adj b' min_adj' max_adj' :
  for_each_process' ps b min_adj max_adj = (b', min_adj', max_adj') →
  (∀ a c t, b' !! a = Some c → t ∈ c →
     (∃ c0, b !! a = Some c0 ∧ t ∈ c0)
     ∨ (t ∈ ps ∧ skip_task' t = false ∧ oom_score_adj t = a)) ∧
  (∀ a c0 t, b !! a = Some c0 → t ∈ c0 → ∃ c, b' !! a = Some c ∧ t ∈ c) ∧
  (∀ t, t ∈ ps → skip_task' t = false →
     ∃ c, b' !! oom_score_adj t = Some c ∧ t ∈ c).
Proof.
  revert b min_adj max_adj.
  induction ps as [|p ps IH]; intros b lo hi Hrun; cbn [for_each_process] in Hrun.
  - injection Hrun as <- <- <-. split; [|split].
    + intros a c t Hac Ht. left. exists c. split; assumption.
    + intros a c0 t Hac Ht. exists c0. split; assumption.
    + intros t Ht. apply elem_of_nil in Ht. contradiction.
  - destruct (skip_task' p) eqn:Hskip.
    + destruct (IH _ _ _ Hrun) as (H1 & H2 & H3). split; [|split].
      * intros a c t Hac Ht. destruct (H1 a c t Hac Ht) as [Hl|(Hin & Hs & Ha)];
          [left; exact Hl|right].
        split; [apply elem_of_cons; right; exact Hin|]. split; assumption.
      * exact H2.
      * intros t Ht Hs. apply elem_of_cons in Ht as [->|Ht]; [congruence|].
        apply H3; assumption.
    + destruct (IH _ _ _ Hrun) as (H1 & H2 & H3).
      set (adj := oom_score_adj p) in *.
      assert (Hpush : ∀ a c0 t, b !! a = Some c0 → t ∈ c0 →
                ∃ c, bucket_push adj p b !! a = Some c ∧ t ∈ c).
      { intros a c0 t Hac Ht. unfold bucket_push.
        destruct (decide (a = adj)) as [->|Hne].
        - rewrite lookup_insert_eq, Hac. eexists. split; [reflexivity|].
          apply elem_of_cons. right. exact Ht.
        - rewrite lookup_insert_ne by congruence. exists c0. split; assumption. }
      split; [|split].
      * intros a c t Hac Ht. destruct (H1 a c t Hac Ht) as [(c0 & Hc0 & Ht0)|(Hin & Hs & Ha)].
        -- unfold bucket_push in Hc0.
           apply lookup_insert_Some in Hc0 as [[<- <-]|[Hne Hc0]].
           ++ apply elem_of_cons in Ht0 as [->|Ht0].
              ** right. split; [apply list_elem_of_here|]. split; [exact Hskip|reflexivity].
              ** left. destruct (b !! adj) as [c0|]; cbn in Ht0;
                   [|apply elem_of_nil in Ht0; contradiction].
                 exists c0. split; [reflexivity|exact Ht0].
           ++ left. exists c0. split; assumption.
        -- right. split; [apply elem_of_cons; right; exact Hin|]. split; assumption.
      * intros a c0 t Hac Ht.
        destruct (Hpush a c0 t Hac Ht) as (c & Hc & Htc). apply (H2 a c t Hc Htc).
      * intros t Ht Hs. apply elem_of_cons in Ht as [->|Ht]; [|apply H3; assumption].
        apply (H2 adj (p :: default [] (b !! adj)) p).
        -- unfold bucket_push. apply lookup_insert_eq.
        -- apply list_elem_of_here.
Qed.

(** A scan from a well-formed state: the table, labelled with the
    importance of the tasks recorded. *)
Lemma find_victims_order ps s :
  Z.of_nat (length (victims s)) = MAX_VICTIMS →
  task_bucket s = ∅ →
  ∃ nr_found pages_found s1 adjs,
    find_victims' ps 0 s = Some (nr_found, pages_found, s1) ∧
    Z.of_nat (length adjs) = nr_found ∧
    adj_labels' ps (victims s1) adjs ∧
    descending adjs ∧
    (∀ t v a', t ∈ ps → skip_task' t = false → victim_of t = Some v →
       a' ∈ adjs → a' < oom_score_adj t →
       v ∈ take (Z.to_nat nr_found) (victims s1)) ∧
    (Forall small_size (candidates' ps) →
     ∀ j k a x y, (j < k)%nat → adjs !! j = Some a → adjs !! k = Some a →
       victims s1 !! j = Some x → victims s1 !! k = Some y → size y <= size x) ∧
    (∀ k a a', adjs !! k = Some a → adjs !! S k = Some a' → a' < a →
       wrap_ulong (sum_sizes (take (S k) (victims s1))) < MIN_FREE_PAGES ∧
       Z.of_nat (S k) < MAX_VICTIMS).
Proof.
  intros Hlen Hemp. unfold find_victims.
  destruct (for_each_process' ps (task_bucket s) SHRT_MAX 0)
    as [[b min_adj] max_adj] eqn:Hfep.
  destruct (for_each_process_spec _ _ _ _ _ _ _ _ _ _ Hfep) as [Hw Hp].
  { rewrite Hemp. intros k c Hk. rewrite lookup_empty in Hk. discriminate. }
  rewrite Hemp, bucket_tasks_empty, app_nil_r in Hp.
  destruct (for_each_process_members _ _ _ _ _ _ _ Hfep) as (Hm1 & _ & Hm3).
  destruct (bucket_walk_order (Z.to_nat (max_adj - min_adj + 1)) max_adj min_adj
              0 0 (set_task_bucket b s))
    as (adjs & pf' & s' & Hrun & Hl & _ & _ & Hd & Hlab & Hpri & Hsz & Hdep);
    [exact Hlen|unfold MAX_VICTIMS; lia|unfold ULONG_BITS; lia|exact Hw|reflexivity|].
  cbn [victims task_bucket set_task_bucket] in Hl, Hlab, Hpri, Hsz.
  change (Z.to_nat 0) with 0%nat in Hlab, Hpri, Hsz, Hdep.
  rewrite Z.add_0_l in Hrun.
  exists (Z.of_nat (length adjs)), pf', s', adjs.
  split; [exact Hrun|]. split; [reflexivity|].
  split; [|split; [exact Hd|split; [|split]]].
  - intros k a Hk. destruct (Hlab k a Hk) as (v & c & t & H1 & H2 & H3 & H4).
    destruct (Hm1 a c t H2 H3) as [(c0 & Hc0 & _)|(Hin & Hs & Ha)].
    { rewrite Hemp, lookup_empty in Hc0. discriminate. }
    exists v, t. repeat split; assumption.
  - intros t v a' Ht Hs Hvt Ha' Hlt.
    destruct (Hm3 t Ht Hs) as (c & Hc & Htc).
    destruct (Hpri _ c t v a' Hc Htc Hvt Ha' Hlt) as (k & Hk & Hkv).
    apply list_elem_of_lookup. exists k. rewrite Nat2Z.id.
    rewrite lookup_take_lt by exact Hk. exact Hkv.
  - intros Hsmall. apply Hsz. unfold candidates in Hsmall.
    rewrite Hp. exact Hsmall.
  - intros k a a' Hk Hk' Hlt.
    destruct (Hdep k a a' Hk Hk' Hlt) as [Hsum Hroom].
    rewrite drop_0, Z.add_0_l in Hsum. split; [exact Hsum|lia].
Qed.

(** X1. The scan leaves the victims in the table in non-increasing
    order of importance: each of the [nr_found] entries is the record
    of a process of the list that the first loop keeps, and, reading
    the table from index 0, the [oom_score_adj] of these processes
    never goes up. *)
Theorem find_victims_adj_descending (ps : list task_struct) (s : state) :
  Z.of_nat (length (victims s)) = MAX_VICTIMS →
  task_bucket s = ∅ →
  ∃ nr_found pages_found s1 adjs,
    find_victims' ps 0 s = Some (nr_found, pages_found, s1) ∧
    Z.of_nat (length adjs) = nr_found ∧
    adj_labels' ps (victims s1) adjs ∧
    descending adjs.
Proof.
  intros Hlen Hemp.
  destruct (find_victims_order ps s Hlen Hemp)
    as (nr & pf & s1 & adjs & H1 & H2 & H3 & H4 & _).
  exists nr, pf, s1, adjs. repeat split; assumption.
Qed.

(** X2. The scan passes over no candidate in favour of a less
    expendable one: when an entry of the table is the record of a
    process of importance [a'], every process of the list that the
    first loop keeps, that has an address space and whose
    [oom_score_adj] is above [a'] is recorded in the table too. *)
Theorem find_victims_higher_adj_first (ps : list task_struct) (s : state) :
  Z.of_nat (length (victims s)) = MAX_VICTIMS →
  task_bucket s = ∅ →
  ∃ nr_found pages_found s1 adjs,
    find_victims' ps 0 s = Some (nr_found, pages_found, s1) ∧
    Z.of_nat (length adjs) = nr_found ∧
    adj_labels' ps (victims s1) adjs ∧
    ∀ t v a', t ∈ ps → skip_task' t = false → victim_of t = Some v →
      a' ∈ adjs → a' < oom_score_adj t →
      v ∈ take (Z.to_nat nr_found) (victims s1).
Proof.
  intros Hlen Hemp.
  destruct (find_victims_order ps s Hlen Hemp)
    as (nr & pf & s1 & adjs & H1 & H2 & H3 & _ & H5 & _).
  exists nr, pf, s1, adjs. repeat split; assumption.
Qed.

(** X3. When the sizes of all the candidates are below [2^31] pages,
    the victims of one importance stand in the table in non-increasing
    order of size: of two entries recorded for the same [oom_score_adj]
    the later one is not the larger. *)
Theorem find_victims_size_descending (ps : list task_struct) (s : state) :
  Z.of_nat (length (victims s)) = MAX_VICTIMS →
  task_bucket s = ∅ →
  Forall small_size (candidates' ps) →
  ∃ nr_found pages_found s1 adjs,
    find_victims' ps 0 s = Some (nr_found, pages_found, s1) ∧
    Z.of_nat (length adjs) = nr_found ∧
    adj_labels' ps (victims s1) adjs ∧
    ∀ j k a x y, (j < k)%nat → adjs !! j = Some a → adjs !! k = Some a →
      victims s1 !! j = Some x → victims s1 !! k = Some y → size y <= size x.
Proof.
  intros Hlen Hemp Hsmall.
  destruct (find_victims_order ps s Hlen Hemp)
    as (nr & pf & s1 & adjs & H1 & H2 & H3 & _ & _ & H6 & _).
  exists nr, pf, s1, adjs. split; [exact H1|]. split; [exact H2|].
  split; [exact H3|]. apply H6. exact Hsmall.
Qed.

(** X21. The scan goes down to a lower importance only while it is
    short of pages and has room: wherever the table passes from the
    victims of one [oom_score_adj] to those of a lower one, the pages
    recorded up to there are (modulo [2^64], as they are counted) fewer
    than the target, and the table is not full.  So once the victims of
    the importances visited reach the target, no less expendable
    process is recorded, locked or killed. *)
Theorem find_victims_descends_while_short (ps : list task_struct) (s : state) :
  Z.of_nat (length (victims s)) = MAX_VICTIMS →
  task_bucket s = ∅ →
  ∃ nr_found pages_found s1 adjs,
    find_victims' ps 0 s = Some (nr_found, pages_found, s1) ∧
    Z.of_nat (length adjs) = nr_found ∧
    adj_labels' ps (victims s1) adjs ∧
    ∀ k a a', adjs !! k = Some a → adjs !! S k = Some a' → a' < a →
      wrap_ulong (sum_sizes (take (S k) (victims s1))) < MIN_FREE_PAGES ∧
      Z.of_nat (S k) < MAX_VICTIMS.
Proof.
  intros Hlen Hemp.
  destruct (find_victims_order ps s Hlen Hemp)
    as (nr & pf & s1 & adjs & H1 & H2 & H3 & _ & _ & _ & H7).
  exists nr, pf, s1, adjs. repeat split; try assumption; apply (H7 k a a'); assumption.
Qed.

End Order.

(** ** What a scan accounts for *)

Section Accounts.
Variable MIN_FREE_PAGES : Z.
Variables SIGNAL_GROUP_EXIT SIGNAL_GROUP_COREDUMP PF_EXITING : Z.

Local Abbreviation candidates' :=
  (candidates SIGNAL_GROUP_EXIT SIGNAL_GROUP_COREDUMP PF_EXITING).
Local Abbreviation find_victims' :=
  (find_victims MIN_FREE_PAGES SIGNAL_GROUP_EXIT SIGNAL_GROUP_COREDUMP PF_EXITING).
Local Abbreviation scan_and_kill' :=
  (scan_and_kill MIN_FREE_PAGES SIGNAL_GROUP_EXIT SIGNAL_GROUP_COREDUMP
     PF_EXITING).
Local Abbreviation step' :=
  (step MIN_FREE_PAGES SIGNAL_GROUP_EXIT SIGNAL_GROUP_COREDUMP PF_EXITING).
Local Abbreviation run' :=
  (run MIN_FREE_PAGES SIGNAL_GROUP_EXIT SIGNAL_GROUP_COREDUMP PF_EXITING).

(** X4. What [find_victims] returns and leaves.  The value returned is
    the sum of the sizes it recorded, modulo [2^64] (the sum itself
    when that fits an [unsigned long]).  The entries recorded are
    candidates, each taken at most once; candidates are left over only
    if the table is full or the pages found have reached the target.
    The table is untouched from the index [nr_found] on.  The scan
    takes the task lock of the recorded victims, of each once and of no
    other task, and changes nothing else in the state. *)
Theorem find_victims_accounts (ps : list task_struct) (s : state) :
  Z.of_nat (length (victims s)) = MAX_VICTIMS →
  task_bucket s = ∅ →
  ∃ nr_found pages_found s1 locks rest,
    find_victims' ps 0 s = Some (nr_found, pages_found, s1) ∧
    let found := take (Z.to_nat nr_found) (victims s1) in
    pages_found = wrap_ulong (sum_sizes found) ∧
    (sum_sizes found < 2 ^ ULONG_BITS → pages_found = sum_sizes found) ∧
    found ++ rest ≡ₚ candidates' ps ∧
    (rest ≠ [] → nr_found = MAX_VICTIMS ∨ MIN_FREE_PAGES <= pages_found) ∧
    drop (Z.to_nat nr_found) (victims s1) = drop (Z.to_nat nr_found) (victims s) ∧
    locks ≡ₚ lock_events found ∧
    s1 = emit locks (set_victims (victims s1) s).
Proof.
  intros Hlen Hemp.
  destruct (find_victims_spec MIN_FREE_PAGES SIGNAL_GROUP_EXIT
              SIGNAL_GROUP_COREDUMP PF_EXITING ps s Hlen Hemp)
    as (nr & pf & tbl & locks & rest & Hfv & Hnr & Hl & Hdr & Hcs & Hst & Hpf & Hlk).
  exists nr, pf, (emit locks (set_victims tbl s)), locks, rest.
  split; [exact Hfv|]. cbn [victims emit set_victims]. cbn zeta.
  split; [exact Hpf|]. split.
  { intros Hfit. rewrite Hpf. apply wrap_ulong_small. split; [|exact Hfit].
    apply sum_sizes_nonneg.
    pose proof (candidates_nonneg SIGNAL_GROUP_EXIT SIGNAL_GROUP_COREDUMP
                  PF_EXITING ps) as Hnn.
    rewrite <- Hcs in Hnn. apply Forall_app in Hnn as [Hnn _]. exact Hnn. }
  split; [exact Hcs|]. split.
  { intros Hrest. destruct Hst as [->|Hst]; [contradiction|exact Hst]. }
  split; [exact Hdr|]. split; [exact Hlk|].
  apply state_ext; reflexivity.
Qed.

(** A cycle takes an idle state to an idle state. *)
Lemma scan_and_kill_idle ps freed s :
  idle s →
  ∃ s', scan_and_kill' ps freed s = Some s' ∧ idle s' ∧
        needs_reclaim s' = needs_reclaim s.
Proof.
  intros (Hlen & Hemp & Hnv & Hnk & Hrd & Hlock & Hnr).
  destruct (scan_and_kill_begin_total MIN_FREE_PAGES SIGNAL_GROUP_EXIT
              SIGNAL_GROUP_COREDUMP PF_EXITING ps s Hlen Hemp)
    as (r & Hr & Hl & Hb & Hn & _ & _ & Hcase).
  unfold scan_and_kill. rewrite Hr. cbn [mbind option_bind].
  destruct r as [s0|s2]; cbn [outcome_state] in *.
  - subst s0. eexists. split; [reflexivity|]. split; [|reflexivity].
    unfold idle. cbn [victims task_bucket nr_victims nr_killed reclaim_done
                      mm_free_lock needs_reclaim emit].
    repeat split; assumption.
  - eexists. split; [reflexivity|].
    destruct (deliver_freed_frame freed s2) as (Hb' & Hl' & _ & Hn' & _).
    destruct (scan_and_kill_end_frame (deliver_freed freed s2))
      as (E1 & E2 & E3 & E4 & E5 & E6 & E7).
    split; [|rewrite E6, Hn'; exact Hn].
    unfold idle. rewrite E1, E2, E3, E4, E5, E6, E7, Hb', Hl', Hn', Hn.
    repeat split; assumption.
Qed.

(** X17. Every cycle of the worker starts from an idle state.  From
    an idle state with the worker in its wait, any interleaving of
    requests and worker steps can be run to its end, and leaves the
    statics idle again: the table has its size, the buckets are empty,
    no victim count is published, the confirmation counter and the
    completion are back at 0 and the lock is free; [needs_reclaim] is
    0 or 1 throughout, and it is 1 while the worker is between
    [scan_and_kill] and the clearing of the flag. *)
Theorem worker_cycles_start_idle (sched : list action) (y : system) :
  idle (statics y) →
  (pc y = after_scan_and_kill → needs_reclaim (statics y) = 1) →
  ∃ y', run' sched y = Some y' ∧
        idle (statics y') ∧
        (pc y' = after_scan_and_kill → needs_reclaim (statics y') = 1).
Proof.
  revert y. induction sched as [|a sched IH]; intros y Hidle Hpc; cbn [run].
  - exists y. split; [reflexivity|]. split; assumption.
  - assert (Hstep : ∃ y1, step' a y = Some y1 ∧ idle (statics y1) ∧
              (pc y1 = after_scan_and_kill → needs_reclaim (statics y1) = 1)).
    { pose proof Hidle as (Hlen & Hemp & Hnv & Hnk & Hrd & Hlock & Hnr).
      destruct a as [|ps freed|]; cbn [step].
      - eexists. split; [reflexivity|]. cbn [pc statics].
        destruct (decide (needs_reclaim (statics y) = 0)) as [Hz|Hnz].
        + rewrite (simple_lmk_trigger_idle _ Hz). split.
          * unfold idle. cbn [victims task_bucket nr_victims nr_killed
              reclaim_done mm_free_lock needs_reclaim emit set_needs_reclaim].
            repeat split; try assumption. right. reflexivity.
          * intros _. reflexivity.
        + rewrite (simple_lmk_trigger_pending _ Hnz). split; assumption.
      - destruct (pc y) eqn:Epc.
        + destruct (needs_reclaim (statics y) =? 0) eqn:Ez.
          * exists y. split; [reflexivity|]. split; [exact Hidle|].
            intros Hp. rewrite Epc in Hp. discriminate.
          * destruct (scan_and_kill_idle ps freed (statics y) Hidle)
              as (s' & Hrun & Hidle' & Hn').
            rewrite Hrun. cbn [mbind option_bind].
            eexists. split; [reflexivity|]. cbn [pc statics].
            split; [exact Hidle'|]. intros _. rewrite Hn'. lia.
        + exists y. split; [reflexivity|]. split; [exact Hidle|].
          intros _. apply Hpc. reflexivity.
      - destruct (pc y) eqn:Epc.
        + exists y. split; [reflexivity|]. split; [exact Hidle|].
          intros Hp. rewrite Epc in Hp. discriminate.
        + eexists. split; [reflexivity|]. cbn [pc statics]. split.
          * unfold idle. cbn [victims task_bucket nr_victims nr_killed
              reclaim_done mm_free_lock needs_reclaim set_needs_reclaim].
            repeat split; try assumption. left. reflexivity.
          * discriminate. }
    destruct Hstep as (y1 & -> & Hidle1 & Hpc1). cbn [mbind option_bind].
    apply IH; assumption.
Qed.

End Accounts.

(** ** One notification and the table *)

(** The loop of [simple_lmk_mm_freed] stops at the first entry that
    matches. *)
Lemma mm_freed_loop_first n i m s :
  (mm_freed_loop n i m s = s ∧
   Some m ∉ map mm (take n (drop i (victims s))))
  ∨ (∃ j v, (i ≤ j < i + n)%nat ∧ victims s !! j = Some v ∧ mm v = Some m ∧
            (∀ k w, (i ≤ k < j)%nat → victims s !! k = Some w → mm w ≠ Some m) ∧
            mm_freed_loop n i m s = confirm j v s).
Proof.
  revert i. induction n as [|n IH]; intros i; cbn [mm_freed_loop].
  - left. split; [reflexivity|]. rewrite take_0. cbn. apply not_elem_of_nil.
  - destruct (victims s !! i) as [v|] eqn:Hi.
    + case_decide as Hm.
      * right. exists i, v. split; [lia|]. split; [exact Hi|]. split; [exact Hm|].
        split; [intros k w Hk; lia|reflexivity].
      * destruct (IH (S i)) as [[Heq Hnot]|(j & w & Hj & Hw & Hmw & Hfirst & Heq)].
        -- left. split; [exact Heq|].
           rewrite (drop_S _ _ _ Hi). cbn [take map].
           rewrite not_elem_of_cons. split; [congruence|exact Hnot].
        -- right. exists j, w. split; [lia|]. split; [exact Hw|].
           split; [exact Hmw|]. split; [|exact Heq].
           intros k u Hk Hu. destruct (decide (k = i)) as [->|Hne].
           ++ rewrite Hi in Hu. injection Hu as <-. exact Hm.
           ++ apply (Hfirst k u); [lia|exact Hu].
    + left. split; [reflexivity|].
      rewrite drop_ge by (apply lookup_ge_None_1; exact Hi).
      rewrite take_nil. cbn. apply not_elem_of_nil.
Qed.

Lemma confirm_table j v s :
  victims (confirm j v s) = <[j := clear_mm v]> (victims s) ∧
  nr_victims (confirm j v s) = nr_victims s ∧
  mm_free_lock (confirm j v s) = mm_free_lock s ∧
  task_bucket (confirm j v s) = task_bucket s.
Proof.
  unfold confirm. cbn [nr_killed nr_victims set_victims set_nr_killed].
  destruct (_ =? _); repeat split; reflexivity.
Qed.

Lemma map_insert_same {A B} (f : A → B) (l : list A) j x y :
  l !! j = Some x → f y = f x → map f (<[j := y]> l) = map f l.
Proof.
  intros Hj Hf. rewrite list_fmap_insert, Hf.
  apply list_insert_id. rewrite list_lookup_fmap, Hj. reflexivity.
Qed.

(** X18. What one notification does to the table.  With the lock
    free, [simple_lmk_mm_freed] changes nothing when no published
    victim has the address space that was freed; otherwise it clears
    the address-space pointer of the first published entry that has it,
    and only of that one.  In either case no entry's task or size
    changes and the table is untouched from the index [nr_victims] on.
    When the address space is that of a single published victim, a
    second notification for it changes nothing. *)
Theorem mm_freed_clears_first_match (m : Z) (s : state) :
  mm_free_lock s = false →
  let s' := simple_lmk_mm_freed m s in
  (Some m ∉ map mm (published s) → s' = s) ∧
  (Some m ∈ map mm (published s) →
     ∃ j v, (j < Z.to_nat (nr_victims s))%nat ∧
            victims s !! j = Some v ∧ mm v = Some m ∧
            (∀ k w, (k < j)%nat → victims s !! k = Some w → mm w ≠ Some m) ∧
            victims s' = <[j := clear_mm v]> (victims s) ∧
            ((∀ k w, k ≠ j → published s !! k = Some w → mm w ≠ Some m) →
             simple_lmk_mm_freed m s' = s')) ∧
  map tsk (victims s') = map tsk (victims s) ∧
  map size (victims s') = map size (victims s) ∧
  drop (Z.to_nat (nr_victims s)) (victims s')
    = drop (Z.to_nat (nr_victims s)) (victims s).
Proof.
  intros Hlock s'.
  assert (Hs' : s' = mm_freed_loop (Z.to_nat (nr_victims s)) 0 m s)
    by (unfold s', simple_lmk_mm_freed; rewrite Hlock; reflexivity).
  clearbody s'.
  destruct (mm_freed_loop_first (Z.to_nat (nr_victims s)) 0 m s)
    as [[Heq Hnot]|(j & v & Hj & Hv & Hm & Hfirst & Heq)];
    rewrite Heq in Hs'; subst s'.
  - rewrite drop_0 in Hnot. fold (published s) in Hnot.
    split; [reflexivity|]. split; [intros Hin; contradiction|].
    repeat split; reflexivity.
  - destruct (confirm_table j v s) as (Htbl & Hnv & Hlk & _).
    assert (Hin : Some m ∈ map mm (published s)).
    { apply list_elem_of_fmap. exists v. split; [symmetry; exact Hm|].
      apply list_elem_of_lookup. exists j. unfold published.
      rewrite lookup_take_lt by lia. exact Hv. }
    split; [intros Hnot; contradiction|]. split.
    { intros _. exists j, v. split; [lia|]. split; [exact Hv|]. split; [exact Hm|].
      split; [intros k w Hk; apply Hfirst; lia|]. split; [exact Htbl|].
      intros Honly. unfold simple_lmk_mm_freed. rewrite Hlk, Hlock, Hnv.
      destruct (mm_freed_loop_cases (Z.to_nat (nr_victims s)) 0 m (confirm j v s))
        as [[Heq' _]|(k & w & Hk & Hw & Hmw & _)]; [exact Heq'|].
      exfalso. rewrite Htbl in Hw.
      destruct (decide (k = j)) as [->|Hne].
      - rewrite list_lookup_insert_eq in Hw by (apply lookup_lt_Some in Hv; exact Hv).
        injection Hw as <-. discriminate Hmw.
      - rewrite list_lookup_insert_ne in Hw by congruence.
        apply (Honly k w Hne); [|exact Hmw].
        unfold published. rewrite lookup_take_lt by lia. exact Hw. }
    rewrite Htbl.
    split; [apply (map_insert_same tsk _ j v); [exact Hv|reflexivity]|].
    split; [apply (map_insert_same size _ j v); [exact Hv|reflexivity]|].
    apply drop_insert_lt. lia.
Qed.

Section Publish.
Variable MIN_FREE_PAGES : Z.
Variables SIGNAL_GROUP_EXIT SIGNAL_GROUP_COREDUMP PF_EXITING : Z.

Local Abbreviation find_victims' :=
  (find_victims MIN_FREE_PAGES SIGNAL_GROUP_EXIT SIGNAL_GROUP_COREDUMP PF_EXITING).
Local Abbreviation scan_and_kill_begin' :=
  (scan_and_kill_begin MIN_FREE_PAGES SIGNAL_GROUP_EXIT SIGNAL_GROUP_COREDUMP
     PF_EXITING).

(** X19. When the scan returns no more pages than the target (also
    when exactly as many), there is no selection: provided it found a
    victim at all, the cycle publishes the number of victims found and
    kills every one of them, in the order of the table, releasing none
    unkilled. *)
Theorem all_found_killed_when_short (ps : list task_struct) (s : state)
    (nr_found pages_found : Z) (s1 : state) :
  Z.of_nat (length (victims s)) = MAX_VICTIMS →
  task_bucket s = ∅ →
  find_victims' ps 0 s = Some (nr_found, pages_found, s1) →
  nr_found ≠ 0 →
  pages_found <= MIN_FREE_PAGES →
  ∃ s2,
    scan_and_kill_begin' ps s = Some (awaiting s2) ∧
    nr_victims s2 = nr_found ∧
    published s2 = take (Z.to_nat nr_found) (victims s1) ∧
    trace s2 = trace s1 ++ [write_lock; write_unlock]
                 ++ flat_map kill_victim (take (Z.to_nat nr_found) (victims s1)) ∧
    signalled (flat_map kill_victim (take (Z.to_nat nr_found) (victims s1)))
      = map tsk (take (Z.to_nat nr_found) (victims s1)).
Proof.
  intros Hlen Hemp Hfv Hnz Hpf.
  destruct (find_victims_spec MIN_FREE_PAGES SIGNAL_GROUP_EXIT
              SIGNAL_GROUP_COREDUMP PF_EXITING ps s Hlen Hemp)
    as (nr & pf & tbl & locks & rest & Hfv' & Hnr & Hl & _).
  rewrite Hfv in Hfv'. injection Hfv' as -> -> ->.
  destruct (scan_and_kill_begin_shape MIN_FREE_PAGES SIGNAL_GROUP_EXIT
              SIGNAL_GROUP_COREDUMP PF_EXITING ps s nr pf _ Hfv)
    as (s2 & Hr & Hpub & Hnv & Htr & _); [cbn; lia|].
  assert ((pf >? MIN_FREE_PAGES) = false) as Hone by lia.
  rewrite Hone in Hpub, Hnv, Htr.
  exists s2. split; [exact Hr|].
  split; [rewrite Hnv, length_take; cbn; lia|]. split; [exact Hpub|].
  split; [|apply signalled_kill].
  rewrite Htr, drop_all. reflexivity.
Qed.

(** X20. The victim count is published before the first kill signal.
    In a cycle that found a victim, what the cycle adds to the trace
    after the scan is: the releases of the victims spared, none of them
    a kill signal; then [write_lock], [write_unlock], between which
    [nr_victims] is set; and only then, for each of the [nr_victims]
    published victims in the order of the table, the log line, the kill
    signal, the expediting and the release.  So any victim that dies
    finds its count published. *)
Theorem count_published_before_kills (ps : list task_struct) (s : state)
    (nr_found pages_found : Z) (s1 : state) :
  Z.of_nat (length (victims s)) = MAX_VICTIMS →
  task_bucket s = ∅ →
  find_victims' ps 0 s = Some (nr_found, pages_found, s1) →
  nr_found ≠ 0 →
  ∃ s2 released,
    scan_and_kill_begin' ps s = Some (awaiting s2) ∧
    trace s2 = trace s1 ++ unlock_events released
                 ++ [write_lock; write_unlock]
                 ++ flat_map kill_victim (published s2) ∧
    signalled (unlock_events released) = [] ∧
    nr_victims s2 = Z.of_nat (length (published s2)) ∧
    signalled (flat_map kill_victim (published s2)) = map tsk (published s2) ∧
    mm_free_lock s2 = false.
Proof.
  intros Hlen Hemp Hfv Hnz.
  destruct (find_victims_spec MIN_FREE_PAGES SIGNAL_GROUP_EXIT
              SIGNAL_GROUP_COREDUMP PF_EXITING ps s Hlen Hemp)
    as (nr & pf & tbl & locks & rest & Hfv' & Hnr & Hl & _).
  rewrite Hfv in Hfv'. injection Hfv' as -> -> ->.
  destruct (scan_and_kill_begin_shape MIN_FREE_PAGES SIGNAL_GROUP_EXIT
              SIGNAL_GROUP_COREDUMP PF_EXITING ps s nr pf _ Hfv)
    as (s2 & Hr & Hpub & Hnv & Htr & _ & _ & Hlock); [cbn; lia|].
  cbn zeta in Hpub, Hnv, Htr.
  eexists s2, (_ ++ _). split; [exact Hr|].
  split; [rewrite Htr, Hpub; unfold unlock_events; rewrite map_app, <- !app_assoc;
          reflexivity|].
  split; [apply signalled_unlock|]. split; [rewrite Hnv, Hpub; reflexivity|].
  split; [apply signalled_kill|exact Hlock].
Qed.

End Publish.

Section Progress.
Variable MIN_FREE_PAGES : Z.
Variables SIGNAL_GROUP_EXIT SIGNAL_GROUP_COREDUMP PF_EXITING : Z.

Local Abbreviation find_victims' :=
  (find_victims MIN_FREE_PAGES SIGNAL_GROUP_EXIT SIGNAL_GROUP_COREDUMP PF_EXITING).
Local Abbreviation scan_and_kill_begin' :=
  (scan_and_kill_begin MIN_FREE_PAGES SIGNAL_GROUP_EXIT SIGNAL_GROUP_COREDUMP
     PF_EXITING).
Local Abbreviation chosen' := (chosen MIN_FREE_PAGES).

Lemma chosen_nonempty vs :
  0 < MIN_FREE_PAGES → (0 < length vs)%nat → (0 < length (chosen' 0 vs))%nat.
Proof.
  intros Hmin Hvs. destruct vs as [|v vs]; [cbn in Hvs; lia|].
  cbn [chosen]. assert ((0 >=? MIN_FREE_PAGES) = false) as -> by lia.
  cbn [length]. lia.
Qed.

(** X22. A cycle that finds a victim kills at least one.  With a
    positive target, whenever [scan_and_kill] gets past the check for
    an empty scan, the count it publishes is at least 1 and at most the
    number of victims found, and the first entry of the table is sent
    the kill signal; with a target of 0 or less and pages found, it
    publishes 0, kills nobody and waits for a completion that cannot
    come. *)
Theorem kills_at_least_one (ps : list task_struct) (s s2 : state) :
  Z.of_nat (length (victims s)) = MAX_VICTIMS →
  task_bucket s = ∅ →
  scan_and_kill_begin' ps s = Some (awaiting s2) →
  ∃ nr_found pages_found s1,
    find_victims' ps 0 s = Some (nr_found, pages_found, s1) ∧
    nr_victims s2 <= nr_found ∧
    (0 < MIN_FREE_PAGES →
       1 <= nr_victims s2 ∧
       ∃ v, published s2 !! 0%nat = Some v ∧
            do_send_sig_info (tsk v) ∈ trace s2) ∧
    (MIN_FREE_PAGES <= 0 → 0 < pages_found →
       nr_victims s2 = 0 ∧ published s2 = []).
Proof.
  intros Hlen Hemp Hbegin.
  destruct (find_victims_spec MIN_FREE_PAGES SIGNAL_GROUP_EXIT
              SIGNAL_GROUP_COREDUMP PF_EXITING ps s Hlen Hemp)
    as (nr & pf & tbl & locks & rest & Hfv & Hnr & Hl & _).
  set (s1 := emit locks (set_victims tbl s)) in *.
  assert (Hnz : nr ≠ 0).
  { intros Hz. unfold scan_and_kill_begin in Hbegin. rewrite Hfv, Hz in Hbegin.
    discriminate. }
  destruct (scan_and_kill_begin_shape MIN_FREE_PAGES SIGNAL_GROUP_EXIT
              SIGNAL_GROUP_COREDUMP PF_EXITING ps s nr pf s1 Hfv)
    as (s2' & Hr & Hpub & Hnv & Htr & _); [cbn; lia|].
  rewrite Hbegin in Hr. injection Hr as <-.
  cbn [victims emit set_victims s1] in Hpub, Hnv, Htr.
  set (found := take (Z.to_nat nr) tbl) in *.
  assert (Hlf : length found = Z.to_nat nr)
    by (unfold found; rewrite length_take; lia).
  exists nr, pf, s1. split; [exact Hfv|].
  assert (Hkill : ∀ v vs, published s2 = v :: vs →
            do_send_sig_info (tsk v) ∈ trace s2).
  { intros v vs Ep. rewrite Htr, <- Hpub, Ep. cbn [flat_map kill_victim app].
    rewrite !elem_of_app. right. right. right.
    apply elem_of_cons. right. apply elem_of_cons. right.
    apply elem_of_cons. right. apply list_elem_of_here. }
  assert (Hfirst : (0 < length (published s2))%nat →
            ∃ v, published s2 !! 0%nat = Some v ∧
                 do_send_sig_info (tsk v) ∈ trace s2).
  { intros Hpos. destruct (published s2) as [|v vs] eqn:Ep; [cbn in Hpos; lia|].
    exists v. split; [reflexivity|]. apply (Hkill v vs). reflexivity. }
  clear Htr Hkill.
  destruct (pf >? MIN_FREE_PAGES) eqn:Etwo.
  - set (c1 := chosen' 0 found) in *. set (l1 := sort victim_cmp c1) in *.
    pose proof (chosen_length MIN_FREE_PAGES 0 l1) as H1.
    pose proof (chosen_length MIN_FREE_PAGES 0 found) as H2. fold c1 in H2.
    assert (Hl1 : length l1 = length c1) by apply sort_length.
    split; [lia|]. split.
    + intros Hmin.
      assert (Hpos : (0 < length (published s2))%nat).
      { rewrite Hpub. apply chosen_nonempty; [exact Hmin|]. rewrite Hl1.
        apply chosen_nonempty; [exact Hmin|lia]. }
      rewrite <- Hpub in Hnv. split; [lia|]. apply Hfirst. exact Hpos.
    + intros Hmin Hpf.
      assert (Hnil : ∀ vs, chosen' 0 vs = []).
      { intros [|v vs]; [reflexivity|]. cbn [chosen].
        assert ((0 >=? MIN_FREE_PAGES) = true) as -> by lia. reflexivity. }
      rewrite Hnil in Hpub, Hnv. split; [exact Hnv|exact Hpub].
  - split; [lia|]. split.
    + intros Hmin. split; [lia|].
      apply Hfirst. rewrite Hpub. lia.
    + intros Hmin Hpf. lia.
Qed.

End Progress.

(** * The further properties at work on concrete inputs *)

Lemma find_victims_adj_descending_witness :
  Z.of_nat (length (victims boot_state)) = MAX_VICTIMS ∧
  task_bucket boot_state = ∅ ∧
  ∃ nr_found pages_found s1 adjs,
    find_victims 60 4 8 4 scenario_ps 0 boot_state
      = Some (nr_found, pages_found, s1) ∧
    Z.of_nat (length adjs) = nr_found ∧
    adj_labels 4 8 4 scenario_ps (victims s1) adjs ∧
    descending adjs.
Proof.
  split; [reflexivity|]. split; [reflexivity|].
  exact (find_victims_adj_descending 60 4 8 4 scenario_ps boot_state eq_refl eq_refl).
Defined.

Lemma find_victims_higher_adj_first_witness :
  Z.of_nat (length (victims boot_state)) = MAX_VICTIMS ∧
  task_bucket boot_state = ∅ ∧
  ∃ nr_found pages_found s1 adjs,
    find_victims 60 4 8 4 scenario_ps 0 boot_state
      = Some (nr_found, pages_found, s1) ∧
    Z.of_nat (length adjs) = nr_found ∧
    adj_labels 4 8 4 scenario_ps (victims s1) adjs ∧
    ∀ t v a', t ∈ scenario_ps → skip_task 4 8 4 t = false →
      victim_of t = Some v → a' ∈ adjs → a' < oom_score_adj t →
      v ∈ take (Z.to_nat nr_found) (victims s1).
Proof.
  split; [reflexivity|]. split; [reflexivity|].
  exact (find_victims_higher_adj_first 60 4 8 4 scenario_ps boot_state
           eq_refl eq_refl).
Defined.

Lemma scenario_sizes_small : Forall small_size (candidates 4 8 4 scenario_ps).
Proof.
  let l := eval vm_compute in (candidates 4 8 4 scenario_ps) in
  change (Forall small_size l).
  repeat (constructor; [unfold small_size; cbn [size]; lia|]).
  constructor.
Defined.

Lemma find_victims_size_descending_witness :
  Z.of_nat (length (victims boot_state)) = MAX_VICTIMS ∧
  task_bucket boot_state = ∅ ∧
  Forall small_size (candidates 4 8 4 scenario_ps) ∧
  ∃ nr_found pages_found s1 adjs,
    find_victims 60 4 8 4 scenario_ps 0 boot_state
      = Some (nr_found, pages_found, s1) ∧
    Z.of_nat (length adjs) = nr_found ∧
    adj_labels 4 8 4 scenario_ps (victims s1) adjs ∧
    ∀ j k a x y, (j < k)%nat → adjs !! j = Some a → adjs !! k = Some a →
      victims s1 !! j = Some x → victims s1 !! k = Some y → size y <= size x.
Proof.
  split; [reflexivity|]. split; [reflexivity|].
  split; [exact scenario_sizes_small|].
  exact (find_victims_size_descending 60 4 8 4 scenario_ps boot_state
           eq_refl eq_refl scenario_sizes_small).
Defined.

Lemma find_victims_accounts_witness :
  Z.of_nat (length (victims boot_state)) = MAX_VICTIMS ∧
  task_bucket boot_state = ∅ ∧
  ∃ nr_found pages_found s1 locks rest,
    find_victims 60 4 8 4 scenario_ps 0 boot_state
      = Some (nr_found, pages_found, s1) ∧
    pages_found = wrap_ulong (sum_sizes (take (Z.to_nat nr_found) (victims s1))) ∧
    take (Z.to_nat nr_found) (victims s1) ++ rest ≡ₚ candidates 4 8 4 scenario_ps ∧
    locks ≡ₚ lock_events (take (Z.to_nat nr_found) (victims s1)).
Proof.
  split; [reflexivity|]. split; [reflexivity|].
  destruct (find_victims_accounts 60 4 8 4 scenario_ps boot_state eq_refl eq_refl)
    as (nr & pf & s1 & locks & rest & Hfv & Hpf & _ & Hcs & _ & _ & Hlk & _).
  exists nr, pf, s1, locks, rest. repeat split; assumption.
Defined.

Lemma lock_discipline_witness :
  Z.of_nat (length (victims boot_state)) = MAX_VICTIMS ∧
  task_bucket boot_state = ∅ ∧
  ∃ nr_found pages_found s1 r s' locks spared n timeout_line n',
    find_victims 60 4 8 4 scenario_ps 0 boot_state
      = Some (nr_found, pages_found, s1) ∧
    scan_and_kill_begin 60 4 8 4 scenario_ps boot_state = Some r ∧
    scan_and_kill_gap 60 4 8 4 scenario_ps [7] [104] boot_state = Some s' ∧
    let found := take (Z.to_nat nr_found) (victims s1) in
    let killed := selected r in
    let new :=
      locks ++
      (if nr_found =? 0 then [pr_err_no_processes]
       else unlock_events spared ++ [write_lock; write_unlock]
              ++ flat_map kill_victim killed ++ replicate n complete
              ++ wait_for_completion_timeout :: timeout_line
              ++ replicate n' complete ++ [write_lock; write_unlock]) in
    locks ≡ₚ lock_events found ∧
    found ≡ₚ killed ++ spared ∧
    (timeout_line = [] ∨ timeout_line = [pr_info_timeout]) ∧
    trace s' = trace boot_state ++ new ∧
    lock_replay new [] false = Some ([], false).
Proof.
  split; [reflexivity|]. split; [reflexivity|].
  exact (lock_discipline 60 4 8 4 scenario_ps [7] [104] boot_state eq_refl eq_refl).
Defined.

Lemma scenario_begins :
  scan_and_kill_begin 60 4 8 4 scenario_ps boot_state
  = Some (awaiting scenario_awaiting).
Proof. vm_compute. reflexivity. Defined.

Lemma scenario_scans :
  find_victims 60 4 8 4 scenario_ps 0 boot_state = Some (3, 460, scenario_scanned).
Proof. vm_compute. reflexivity. Defined.

Lemma completion_on_last_confirmation_witness :
  Z.of_nat (length (victims boot_state)) = MAX_VICTIMS ∧
  task_bucket boot_state = ∅ ∧
  nr_killed boot_state = 0 ∧ reclaim_done boot_state = 0 ∧
  scan_and_kill_begin 60 4 8 4 scenario_ps boot_state
    = Some (awaiting scenario_awaiting) ∧
  let a := deliver_freed [7] scenario_awaiting in
  let b := scan_and_kill_wait a in
  let c := deliver_freed [104] b in
  trace b = trace a ++ [wait_for_completion_timeout; pr_info_timeout] ∧
  trace c = trace b ++ [complete] ∧
  scan_and_kill_gap 60 4 8 4 scenario_ps [7] [104] boot_state
    = Some (scan_and_kill_cleanup c).
Proof.
  split; [reflexivity|]. split; [reflexivity|]. split; [reflexivity|].
  split; [reflexivity|]. split; [exact scenario_begins|].
  destruct (completion_on_last_confirmation 60 4 8 4 scenario_ps [7] [104]
              boot_state scenario_awaiting eq_refl eq_refl eq_refl eq_refl
              scenario_begins)
    as (_ & _ & _ & _ & Hb & Hc & _ & Hrun & _).
  split; [exact Hb|]. split; [exact Hc|exact Hrun].
Defined.

Lemma late_notifications_ignored_witness :
  Z.of_nat (length (victims boot_state)) = MAX_VICTIMS ∧
  task_bucket boot_state = ∅ ∧
  nr_victims boot_state = 0 ∧
  ∃ s', scan_and_kill 60 4 8 4 scenario_ps [] boot_state = Some s' ∧
        nr_victims s' = 0 ∧
        deliver_freed [104; 105] s' = s'.
Proof.
  split; [reflexivity|]. split; [reflexivity|]. split; [reflexivity|].
  exact (proj2 (late_notifications_ignored 60 4 8 4 scenario_ps [] [104; 105]
                  boot_state eq_refl eq_refl eq_refl)).
Defined.

Lemma kills_stop_at_target_witness :
  Z.of_nat (length (victims boot_state)) = MAX_VICTIMS ∧
  task_bucket boot_state = ∅ ∧
  find_victims 60 4 8 4 scenario_ps 0 boot_state = Some (3, 460, scenario_scanned) ∧
  scan_and_kill_begin 60 4 8 4 scenario_ps boot_state
    = Some (awaiting scenario_awaiting) ∧
  60 < 460 ∧
  (0 < length (selected (awaiting scenario_awaiting)))%nat ∧
  wrap_ulong (sum_sizes (take 0 (selected (awaiting scenario_awaiting)))) < 60.
Proof.
  assert (Hk : (0 < length (selected (awaiting scenario_awaiting)))%nat)
    by (vm_compute; constructor).
  split; [reflexivity|]. split; [reflexivity|]. split; [exact scenario_scans|].
  split; [exact scenario_begins|]. split; [reflexivity|]. split; [exact Hk|].
  exact (proj1 (kills_stop_at_target 60 4 8 4 scenario_ps boot_state 3 460
                  scenario_scanned (awaiting scenario_awaiting) 0
                  eq_refl eq_refl scenario_scans scenario_begins eq_refl Hk)).
Defined.

Lemma second_pass_keeps_largest_witness :
  Z.of_nat (length (victims boot_state)) = MAX_VICTIMS ∧
  task_bucket boot_state = ∅ ∧
  Forall small_size (candidates 4 8 4 scenario_ps) ∧
  find_victims 60 4 8 4 scenario_ps 0 boot_state = Some (3, 460, scenario_scanned) ∧
  scan_and_kill_begin 60 4 8 4 scenario_ps boot_state
    = Some (awaiting scenario_awaiting) ∧
  60 < 460 ∧
  ∃ released,
    selected (awaiting scenario_awaiting) ++ released
      ≡ₚ chosen 60 0 (take (Z.to_nat 3) (victims scenario_scanned)) ∧
    (∀ x y, x ∈ selected (awaiting scenario_awaiting) → y ∈ released →
       size y <= size x).
Proof.
  split; [reflexivity|]. split; [reflexivity|].
  split; [exact scenario_sizes_small|]. split; [exact scenario_scans|].
  split; [exact scenario_begins|]. split; [reflexivity|].
  destruct (second_pass_keeps_largest 60 4 8 4 scenario_ps boot_state 3 460
              scenario_scanned (awaiting scenario_awaiting)
              eq_refl eq_refl scenario_sizes_small scenario_scans scenario_begins
              eq_refl) as (released & Hp & _ & Hge).
  exists released. split; [exact Hp|exact Hge].
Defined.

Lemma display_calls_frame_witness :
  screen_on boot_state = true ∧
  let s' := display_calls 1 0 1 0
              [(1, Some {| notifier_id := 0; notifier_data := Some 1 |});
               (1, None);
               (2, Some {| notifier_id := 0; notifier_data := Some 0 |})]
              boot_state in
  (screen_on s' = false → min_pressure s' = 95) ∧
  needs_reclaim s' = needs_reclaim boot_state ∧
  trace s' = trace boot_state.
Proof.
  split; [reflexivity|].
  destruct (display_calls_frame 1 0 1 0
              [(1, Some {| notifier_id := 0; notifier_data := Some 1 |});
               (1, None);
               (2, Some {| notifier_id := 0; notifier_data := Some 0 |})]
              boot_state eq_refl)
    as (Hoff & _ & _ & _ & _ & Hn & _ & _ & _ & Htr & _).
  split; [exact Hoff|]. split; [exact Hn|exact Htr].
Defined.

Lemma pressure_reports_one_wake_up_witness :
  needs_reclaim boot_state = 0 ∧
  (Exists (fun pressure => 90 <= pressure) [10; 95; 100] →
   pressure_reports [10; 95; 100] boot_state
   = emit [wake_up] (set_needs_reclaim 1 boot_state)).
Proof.
  split; [reflexivity|].
  exact (proj2 (pressure_reports_one_wake_up [10; 95; 100] boot_state eq_refl)).
Defined.

Lemma init_starts_once_witness :
  init_done (boot_tunables 64 250) = 0 ∧
  let t1 := outcome_tunables
              (simple_lmk_init_set 12 failing_env (boot_tunables 64 250)) in
  let t' := init_calls 12 [six_gib_env; six_gib_env] t1 in
  started t1 = [kthread_run; vmpressure_notifier_register] ∧
  init_done t' = 1 ∧
  started t' = started t1 ∧
  simple_lmk_init_set 12 six_gib_env t'
  = init_returned 0 (tune_by_totalram 12 (totalram six_gib_env) t').
Proof.
  split; [reflexivity|].
  exact (init_starts_once 12 failing_env [six_gib_env; six_gib_env] six_gib_env
           (boot_tunables 64 250) eq_refl).
Defined.

Lemma init_set_tunables_witness :
  10 <= 12 ∧
  0 <= totalram six_gib_env ∧
  simple_lmk_init_set 12 six_gib_env (boot_tunables 64 100)
  = init_returned 0
      (tune_by_totalram 12 (totalram six_gib_env)
         (start msm_drm_register_client
            (start vmpressure_notifier_register
               (start kthread_run (set_init_done 1 (boot_tunables 64 100)))))) ∧
  slmk_timeout
    (tune_by_totalram 12 (totalram six_gib_env)
       (start msm_drm_register_client
          (start vmpressure_notifier_register
             (start kthread_run (set_init_done 1 (boot_tunables 64 100)))))) = 250.
Proof.
  assert (H1 : 10 <= 12) by discriminate.
  assert (H2 : 0 <= totalram six_gib_env) by discriminate.
  split; [exact H1|]. split; [exact H2|]. split; [reflexivity|].
  destruct (init_set_tunables 12 six_gib_env (boot_tunables 64 100) _ 0
              H1 H2 eq_refl) as (_ & _ & _ & Hto).
  apply Hto. reflexivity.
Defined.

Lemma kills_only_candidates_witness :
  Z.of_nat (length (victims boot_state)) = MAX_VICTIMS ∧
  task_bucket boot_state = ∅ ∧
  ∃ r new,
    scan_and_kill_begin 60 4 8 4 scenario_ps boot_state = Some r ∧
    trace (outcome_state r) = trace boot_state ++ new ∧
    Z.of_nat (length (signalled new)) <= MAX_VICTIMS ∧
    ∀ t, t ∈ signalled new →
      ∃ p vtsk vmm,
        p ∈ scenario_ps ∧ skip_task 4 8 4 p = false ∧ 0 <= oom_score_adj p ∧
        find_lock_task_mm p = Some (vtsk, vmm) ∧ t = Some vtsk.
Proof.
  split; [reflexivity|]. split; [reflexivity|].
  destruct (kills_only_candidates 60 4 8 4 scenario_ps boot_state eq_refl eq_refl)
    as (r & new & Hr & Htr & Hle & _ & _ & Hall).
  exists r, new. repeat split; assumption.
Defined.

Lemma boot_idle : idle boot_state.
Proof.
  unfold idle. split; [reflexivity|]. split; [reflexivity|].
  split; [reflexivity|]. split; [reflexivity|]. split; [reflexivity|].
  split; [reflexivity|]. left. reflexivity.
Defined.

Lemma worker_cycles_start_idle_witness :
  idle (statics boot_system) ∧
  (pc boot_system = after_scan_and_kill → needs_reclaim (statics boot_system) = 1) ∧
  ∃ y',
    run 60 4 8 4
      [a_trigger; a_worker_run scenario_ps [104]; a_trigger; a_worker_clear;
       a_trigger; a_worker_run scenario_ps []]
      boot_system = Some y' ∧
    idle (statics y') ∧
    (pc y' = after_scan_and_kill → needs_reclaim (statics y') = 1).
Proof.
  assert (Hpc : pc boot_system = after_scan_and_kill →
                needs_reclaim (statics boot_system) = 1)
    by (intros H; discriminate H).
  split; [exact boot_idle|]. split; [exact Hpc|].
  exact (worker_cycles_start_idle 60 4 8 4
           [a_trigger; a_worker_run scenario_ps [104]; a_trigger; a_worker_clear;
            a_trigger; a_worker_run scenario_ps []]
           boot_system boot_idle Hpc).
Defined.

Lemma mm_freed_clears_first_match_witness :
  mm_free_lock scenario_awaiting = false ∧
  map tsk (victims (simple_lmk_mm_freed 104 scenario_awaiting))
    = map tsk (victims scenario_awaiting) ∧
  map size (victims (simple_lmk_mm_freed 104 scenario_awaiting))
    = map size (victims scenario_awaiting).
Proof.
  assert (Hlock : mm_free_lock scenario_awaiting = false)
    by (vm_compute; reflexivity).
  split; [exact Hlock|].
  destruct (mm_freed_clears_first_match 104 scenario_awaiting Hlock)
    as (_ & _ & Htsk & Hsize & _).
  split; [exact Htsk|exact Hsize].
Defined.

Lemma scenario_scans_short :
  find_victims 16384 4 8 4 scenario_ps 0 boot_state
  = Some (5, 610, scan_state 16384 4 8 4 scenario_ps boot_state).
Proof. vm_compute. reflexivity. Defined.

Lemma all_found_killed_when_short_witness :
  Z.of_nat (length (victims boot_state)) = MAX_VICTIMS ∧
  task_bucket boot_state = ∅ ∧
  find_victims 16384 4 8 4 scenario_ps 0 boot_state
    = Some (5, 610, scan_state 16384 4 8 4 scenario_ps boot_state) ∧
  (5 : Z) ≠ 0 ∧
  610 <= 16384 ∧
  ∃ s2,
    scan_and_kill_begin 16384 4 8 4 scenario_ps boot_state = Some (awaiting s2) ∧
    nr_victims s2 = 5 ∧
    published s2
      = take (Z.to_nat 5) (victims (scan_state 16384 4 8 4 scenario_ps boot_state)).
Proof.
  assert (H5 : (5 : Z) ≠ 0) by discriminate.
  assert (Hle : 610 <= 16384) by discriminate.
  split; [reflexivity|]. split; [reflexivity|]. split; [exact scenario_scans_short|].
  split; [exact H5|]. split; [exact Hle|].
  destruct (all_found_killed_when_short 16384 4 8 4 scenario_ps boot_state 5 610 _
              eq_refl eq_refl scenario_scans_short H5 Hle)
    as (s2 & Hr & Hnv & Hpub & _).
  exists s2. split; [exact Hr|]. split; [exact Hnv|exact Hpub].
Defined.

Lemma count_published_before_kills_witness :
  Z.of_nat (length (victims boot_state)) = MAX_VICTIMS ∧
  task_bucket boot_state = ∅ ∧
  find_victims 60 4 8 4 scenario_ps 0 boot_state = Some (3, 460, scenario_scanned) ∧
  (3 : Z) ≠ 0 ∧
  ∃ s2 released,
    scan_and_kill_begin 60 4 8 4 scenario_ps boot_state = Some (awaiting s2) ∧
    trace s2 = trace scenario_scanned ++ unlock_events released
                 ++ [write_lock; write_unlock]
                 ++ flat_map kill_victim (published s2) ∧
    nr_victims s2 = Z.of_nat (length (published s2)).
Proof.
  assert (H3 : (3 : Z) ≠ 0) by discriminate.
  split; [reflexivity|]. split; [reflexivity|]. split; [exact scenario_scans|].
  split; [exact H3|].
  destruct (count_published_before_kills 60 4 8 4 scenario_ps boot_state 3 460 _
              eq_refl eq_refl scenario_scans H3)
    as (s2 & released & Hr & Htr & _ & Hnv & _).
  exists s2, released. split; [exact Hr|]. split; [exact Htr|exact Hnv].
Defined.

Lemma find_victims_descends_while_short_witness :
  Z.of_nat (length (victims boot_state)) = MAX_VICTIMS ∧
  task_bucket boot_state = ∅ ∧
  ∃ nr_found pages_found s1 adjs,
    find_victims 60 4 8 4 scenario_ps 0 boot_state
      = Some (nr_found, pages_found, s1) ∧
    Z.of_nat (length adjs) = nr_found ∧
    adj_labels 4 8 4 scenario_ps (victims s1) adjs ∧
    ∀ k a a', adjs !! k = Some a → adjs !! S k = Some a' → a' < a →
      wrap_ulong (sum_sizes (take (S k) (victims s1))) < 60 ∧
      Z.of_nat (S k) < MAX_VICTIMS.
Proof.
  split; [reflexivity|]. split; [reflexivity|].
  exact (find_victims_descends_while_short 60 4 8 4 scenario_ps boot_state
           eq_refl eq_refl).
Defined.

Lemma kills_at_least_one_witness :
  Z.of_nat (length (victims boot_state)) = MAX_VICTIMS ∧
  task_bucket boot_state = ∅ ∧
  scan_and_kill_begin 60 4 8 4 scenario_ps boot_state
    = Some (awaiting scenario_awaiting) ∧
  ∃ nr_found pages_found s1,
    find_victims 60 4 8 4 scenario_ps 0 boot_state
      = Some (nr_found, pages_found, s1) ∧
    nr_victims scenario_awaiting <= nr_found ∧
    1 <= nr_victims scenario_awaiting.
Proof.
  split; [reflexivity|]. split; [reflexivity|]. split; [exact scenario_begins|].
  destruct (kills_at_least_one 60 4 8 4 scenario_ps boot_state scenario_awaiting
              eq_refl eq_refl scenario_begins)
    as (nr & pf & s1 & Hfv & Hle & Hpos & _).
  exists nr, pf, s1. split; [exact Hfv|]. split; [exact Hle|].
  exact (proj1 (Hpos eq_refl)).
Defined.
